(** * Outreach pipeline: retry / fallback / normalize stages

    A shallow embedding of [utils.py], [schemas.py] and [pipeline.py] of the
    outreach demo, together with the properties of the stage pipeline.

    Conventions of the embedding.
    - A Python [str] is the [string] of its UTF-8 encoding.  Lengths and
      slices count code points, and the blanks of [str.strip] and of the
      class [\s] are the Unicode ones; searching, splitting and joining act
      on the bytes, which finds the same places.  [str.lower] and
      [str.capitalize] map ASCII letters only; a pattern letter under [re.I]
      takes both its cases and the letters outside ASCII that fold to it.
    - Code that can raise returns a [result]; code that talks to the agent or
      to the search client runs in the state-and-error monad [M], whose state
      records every contact with a capability in a trace.
    - Library calls ([json.loads], [re], pydantic validation) are modelled by
      executable definitions of the fragment the program exercises. *)

From Stdlib Require Import String Ascii List ZArith Lia Bool Arith.
From Stdlib Require Import DecimalString.
Set Warnings "-register-all".
Import ListNotations.
Open Scope string_scope.
Open Scope nat_scope.

(* ================================================================== *)
(** * Python string operations *)
(* ================================================================== *)

Module PyStr.

Definition code (c : ascii) : nat := nat_of_ascii c.

Definition is_upper (c : ascii) : bool := (65 <=? code c) && (code c <=? 90).
Definition is_lower (c : ascii) : bool := (97 <=? code c) && (code c <=? 122).
Definition is_digit (c : ascii) : bool := (48 <=? code c) && (code c <=? 57).

(** The blanks of one byte: TAB, LF, VT, FF, CR, the separators 0x1c..0x1f
    and the space. *)
Definition is_space (c : ascii) : bool :=
  ((9 <=? code c) && (code c <=? 13)) ||
  ((28 <=? code c) && (code c <=? 31)) ||
  (code c =? 32).

Definition lower_char (c : ascii) : ascii :=
  if is_upper c then ascii_of_nat (code c + 32) else c.

Definition upper_char (c : ascii) : ascii :=
  if is_lower c then ascii_of_nat (code c - 32) else c.

(** [s.lower()] *)
Fixpoint lower (s : string) : string :=
  match s with
  | EmptyString => EmptyString
  | String c s' => String (lower_char c) (lower s')
  end.

(** [s.capitalize()] *)
Definition capitalize (s : string) : string :=
  match s with
  | EmptyString => EmptyString
  | String c s' => String (upper_char c) (lower s')
  end.

(** [s[:n]] for [n >= 0] *)
Fixpoint take (n : nat) (s : string) : string :=
  match n, s with
  | S n', String c s' => String c (take n' s')
  | _, _ => EmptyString
  end.

(** [s[n:]] for [n >= 0] *)
Fixpoint drop (n : nat) (s : string) : string :=
  match n, s with
  | S n', String _ s' => drop n' s'
  | _, _ => s
  end.

(** A byte that continues a code point. *)
Definition is_cont (c : ascii) : bool := (128 <=? code c) && (code c <=? 191).

(** [len(s)]: the number of code points, one for every byte that continues
    none. *)
Fixpoint len (s : string) : nat :=
  match s with
  | EmptyString => 0
  | String c s' => if is_cont c then len s' else S (len s')
  end.

(** [s[:n]] for [n >= 0]: the first [n] code points, each with the bytes
    that continue it. *)
Fixpoint slice_to (n : nat) (s : string) : string :=
  match s with
  | EmptyString => EmptyString
  | String c s' =>
      if is_cont c then String c (slice_to n s')
      else match n with
           | O => EmptyString
           | S n' => String c (slice_to n' s')
           end
  end.

(** The number of bytes of the blank code point at the head of [s], or 0
    when [s] starts with none.  The blanks are those of [str.isspace] and of
    the class [\s]: the one-byte blanks, U+0085, U+00A0, U+1680,
    U+2000..U+200A, U+2028, U+2029, U+202F, U+205F and U+3000. *)
Definition blank_width (s : string) : nat :=
  match s with
  | String c s1 =>
      if is_space c then 1
      else
        match s1 with
        | String c1 s2 =>
            if (code c =? 194) && ((code c1 =? 133) || (code c1 =? 160)) then 2
            else
              match s2 with
              | String c2 _ =>
                  if (code c =? 225) && (code c1 =? 154) && (code c2 =? 128)
                  then 3
                  else if (code c =? 226) && (code c1 =? 128)
                          && (((128 <=? code c2) && (code c2 <=? 138))
                              || (code c2 =? 168) || (code c2 =? 169)
                              || (code c2 =? 175))
                  then 3
                  else if (code c =? 226) && (code c1 =? 129)
                          && (code c2 =? 159)
                  then 3
                  else if (code c =? 227) && (code c1 =? 128)
                          && (code c2 =? 128)
                  then 3
                  else 0
              | EmptyString => 0
              end
        | EmptyString => 0
        end
  | EmptyString => 0
  end.

(** [s.lstrip()]; [skip] counts the bytes left of the blank being dropped. *)
Fixpoint drop_blanks (skip : nat) (s : string) : string :=
  match s with
  | EmptyString => EmptyString
  | String _ s' =>
      match skip with
      | S k => drop_blanks k s'
      | O =>
          match blank_width s with
          | O => s
          | S k => drop_blanks k s'
          end
      end
  end.

Definition lstrip (s : string) : string := drop_blanks 0 s.

(** [s] holds blanks only. *)
Fixpoint blank_from (skip : nat) (s : string) : bool :=
  match s with
  | EmptyString => true
  | String _ s' =>
      match skip with
      | S k => blank_from k s'
      | O =>
          match blank_width s with
          | O => false
          | S k => blank_from k s'
          end
      end
  end.

Definition all_blank (s : string) : bool := blank_from 0 s.

(** [s.rstrip()]: cut where only blanks follow. *)
Fixpoint rstrip (s : string) : string :=
  match s with
  | EmptyString => EmptyString
  | String c s' => if all_blank s then EmptyString else String c (rstrip s')
  end.

(** [s.strip()] *)
Definition strip (s : string) : string := rstrip (lstrip s).

(** [s.startswith(p)] *)
Fixpoint startswith (s p : string) : bool :=
  match p, s with
  | EmptyString, _ => true
  | String a p', String b s' => Ascii.eqb a b && startswith s' p'
  | String _ _, EmptyString => false
  end.

(** [s.endswith(p)] *)
Definition endswith (s p : string) : bool :=
  (String.length p <=? String.length s) &&
  String.eqb (drop (String.length s - String.length p) s) p.

(** [p in s] *)
Fixpoint contains (p s : string) : bool :=
  startswith s p ||
  match s with
  | EmptyString => false
  | String _ s' => contains p s'
  end.

(** [s.split(sep)] for a one-character separator: [cur] is the piece being
    read. *)
Fixpoint split_acc (sep : ascii) (s : string) (cur : string) : list string :=
  match s with
  | EmptyString => [cur]
  | String c s' =>
      if Ascii.eqb c sep then cur :: split_acc sep s' EmptyString
      else split_acc sep s' (cur ++ String c EmptyString)
  end.

Definition split (sep : ascii) (s : string) : list string :=
  split_acc sep s EmptyString.

(** [sep.join(l)] *)
Fixpoint join (sep : string) (l : list string) : string :=
  match l with
  | [] => EmptyString
  | [x] => x
  | x :: rest => x ++ sep ++ join sep rest
  end.

(** Truth value of a string: non-empty. *)
Definition truthy (s : string) : bool :=
  match s with EmptyString => false | _ => true end.

(** [str(n)] for an [int] *)
Definition of_Z (n : Z) : string := NilZero.string_of_int (Z.to_int n).

(** [x in l] for a list (or set) of strings *)
Definition mem (x : string) (l : list string) : bool :=
  existsb (String.eqb x) l.

End PyStr.

(* ================================================================== *)
(** * Regular expressions: a backtracking matcher *)
(* ================================================================== *)

Module Re.
Import PyStr.

(** The fragment of [re] syntax the program's patterns use.  One capture
    group is enough for every pattern of the program. *)
Inductive regex : Type :=
| Eps
| Chr (p : ascii -> bool)          (* one character of a class *)
| Seq (r1 r2 : regex)
| Alt (r1 r2 : regex)              (* tried left to right *)
| Star (r : regex)                 (* greedy repetition *)
| Group (r : regex)                (* capture group 1 *)
| LookBehind (p : ascii -> bool)   (* (?<=[...]) over one character *)
| EndAnchor                        (* $ without MULTILINE *)
| Space.                           (* \s: one blank code point *)

Definition Plus (r : regex) : regex := Seq r (Star r).
Definition Opt (r : regex) : regex := Alt r Eps.

Definition chr (c : ascii) : regex := Chr (Ascii.eqb c).
(** [[\s\S]] *)
Definition any : regex := Chr (fun _ => true).
(** [.] without DOTALL *)
Definition dot : regex := Chr (fun c => negb (Ascii.eqb c "010"%char)).
(** [\s] *)
Definition ws : regex := Space.

Fixpoint lit (s : string) : regex :=
  match s with
  | EmptyString => Eps
  | String c EmptyString => chr c
  | String c s' => Seq (chr c) (lit s')
  end.

Fixpoint alts (rs : list regex) : regex :=
  match rs with
  | [] => Chr (fun _ => false)
  | [r] => r
  | r :: rs' => Alt r (alts rs')
  end.

(** The letters outside ASCII that [re.I] takes for an ASCII letter: U+0130
    and U+0131 for i, U+017F for s and U+212A for k. *)
Definition folds_to (c : ascii) : list string :=
  if Ascii.eqb (lower_char c) "i" then ["İ"; "ı"]
  else if Ascii.eqb (lower_char c) "s" then ["ſ"]
  else if Ascii.eqb (lower_char c) "k" then ["K"]
  else [].

(** a literal ASCII character under [re.I] *)
Definition chr_i (c : ascii) : regex :=
  alts (Chr (fun x => Ascii.eqb (lower_char x) (lower_char c))
          :: map lit (folds_to c)).

Fixpoint lit_i (s : string) : regex :=
  match s with
  | EmptyString => Eps
  | String c EmptyString => chr_i c
  | String c s' => Seq (chr_i c) (lit_i s')
  end.

Section Matcher.
Context {R : Type}.

(** The continuation receives the character before the position reached, the
    rest of the subject and the text of group 1. *)
Definition cont : Type := option ascii -> string -> option string -> option R.

(** The greedy loop of [Star]: [step] matches the repeated expression once.
    Another iteration is tried first, and must consume a character; then the
    continuation.  The fuel covers every character of the subject. *)
Definition star_loop (step : option ascii -> string -> option string -> cont
                             -> option R) (k : cont)
  : nat -> option ascii -> string -> option string -> option R :=
  fix loop (fuel : nat) (prev : option ascii) (s : string)
      (cap : option string) {struct fuel} : option R :=
    match fuel with
    | O => k prev s cap
    | S fuel' =>
        match step prev s cap
                (fun prev' s' cap' =>
                   if String.length s' <? String.length s
                   then loop fuel' prev' s' cap' else None) with
        | Some x => Some x
        | None => k prev s cap
        end
    end.

(** [exec r prev s cap k]: match [r] at the head of [s], where [prev] is the
    character before [s]; alternatives in priority order, first success
    wins. *)
Fixpoint exec (r : regex) (prev : option ascii) (s : string)
         (cap : option string) (k : cont) {struct r} : option R :=
  match r with
  | Eps => k prev s cap
  | Chr p =>
      match s with
      | String c s' => if p c then k (Some c) s' cap else None
      | EmptyString => None
      end
  | Seq r1 r2 =>
      exec r1 prev s cap (fun prev' s' cap' => exec r2 prev' s' cap' k)
  | Alt r1 r2 =>
      match exec r1 prev s cap k with
      | Some x => Some x
      | None => exec r2 prev s cap k
      end
  | Star r1 => star_loop (exec r1) k (S (String.length s)) prev s cap
  | Group r1 =>
      exec r1 prev s cap
        (fun prev' s' _ =>
           k prev' s' (Some (take (String.length s - String.length s') s)))
  | LookBehind p =>
      match prev with
      | Some c => if p c then k prev s cap else None
      | None => None
      end
  | EndAnchor =>
      match s with
      | EmptyString => k prev s cap
      | String "010"%char EmptyString => k prev s cap
      | _ => None
      end
  | Space =>
      match blank_width s with
      | O => None
      | S n => k (String.get n s) (drop (S n) s) cap
      end
  end.
End Matcher.

(** A match object: its text ([group(0)]), [group(1)], what follows the match
    and the character before what follows. *)
Record rmatch : Type := {
  m_text : string;
  m_group1 : option string;
  m_rest : string;
  m_last : option ascii
}.

(** Match anchored at the head of [s]. *)
Definition match_here (r : regex) (prev : option ascii) (s : string)
  : option rmatch :=
  exec r prev s None
    (fun prev' s' cap =>
       Some {| m_text := take (String.length s - String.length s') s;
               m_group1 := cap; m_rest := s'; m_last := prev' |}).

(** [re.match(r, s)] *)
Definition rematch (r : regex) (s : string) : option rmatch :=
  match_here r None s.

(** [re.search]: the leftmost start position that matches. *)
Fixpoint search_from (r : regex) (prev : option ascii) (s : string)
  : option rmatch :=
  match match_here r prev s with
  | Some m => Some m
  | None =>
      match s with
      | EmptyString => None
      | String c s' => search_from r (Some c) s'
      end
  end.

Definition search (r : regex) (s : string) : option rmatch :=
  search_from r None s.

Definition found (r : regex) (s : string) : bool :=
  match search r s with Some _ => true | None => false end.

(** [re.sub(r, '', s)] for a pattern that matches no empty string: every
    non-overlapping match, leftmost first, is removed. *)
Fixpoint sub_empty_from (fuel : nat) (r : regex) (prev : option ascii)
         (s : string) : string :=
  match fuel with
  | O => s
  | S fuel' =>
      match match_here r prev s with
      | Some m =>
          if String.length (m_rest m) <? String.length s
          then sub_empty_from fuel' r (m_last m) (m_rest m)
          else match s with
               | EmptyString => EmptyString
               | String c s' => String c (sub_empty_from fuel' r (Some c) s')
               end
      | None =>
          match s with
          | EmptyString => EmptyString
          | String c s' => String c (sub_empty_from fuel' r (Some c) s')
          end
      end
  end.

Definition sub_empty (r : regex) (s : string) : string :=
  sub_empty_from (S (String.length s)) r None s.

(** [re.split(r, s)] for a pattern that matches no empty string; [cur] is the
    piece being read. *)
Fixpoint split_from (fuel : nat) (r : regex) (prev : option ascii)
         (s : string) (cur : string) : list string :=
  match fuel with
  | O => [cur ++ s]
  | S fuel' =>
      match s with
      | EmptyString => [cur]
      | String c s' =>
          match match_here r prev s with
          | Some m =>
              if String.length (m_rest m) <? String.length s
              then cur :: split_from fuel' r (m_last m) (m_rest m) EmptyString
              else split_from fuel' r (Some c) s' (cur ++ String c EmptyString)
          | None => split_from fuel' r (Some c) s' (cur ++ String c EmptyString)
          end
      end
  end.

Definition split (r : regex) (s : string) : list string :=
  split_from (S (String.length s)) r None s EmptyString.

End Re.

(* ================================================================== *)
(** * JSON values and [json.loads] *)
(* ================================================================== *)

Module Json.
Import PyStr.

(** What [json.loads] builds.  A [float] is kept as the decimal [m * 10^e] the
    text wrote (binary rounding is not modelled); [JConst] holds the constants
    [NaN], [Infinity] and [-Infinity].  A [dict] is the list of its items in
    insertion order, with pairwise distinct keys. *)
Inductive json : Type :=
| JNull
| JBool (b : bool)
| JInt (n : Z)
| JFloat (m e : Z)
| JConst (name : string)
| JStr (s : string)
| JArr (items : list json)
| JObj (items : list (string * json)).

(** [d.get(k)] *)
Fixpoint dict_get (k : string) (d : list (string * json)) : option json :=
  match d with
  | [] => None
  | (k', v) :: d' => if String.eqb k k' then Some v else dict_get k d'
  end.

(** [d[k] = v]: an existing key keeps its place. *)
Fixpoint dict_set (k : string) (v : json) (d : list (string * json))
  : list (string * json) :=
  match d with
  | [] => [(k, v)]
  | (k', v') :: d' =>
      if String.eqb k k' then (k', v) :: d' else (k', v') :: dict_set k v d'
  end.

(** [k in d] *)
Definition dict_has (k : string) (d : list (string * json)) : bool :=
  match dict_get k d with Some _ => true | None => false end.

(** JSON whitespace: space, TAB, LF, CR. *)
Definition is_json_ws (c : ascii) : bool :=
  (code c =? 32) || (code c =? 9) || (code c =? 10) || (code c =? 13).

Fixpoint skip_ws (s : string) : string :=
  match s with
  | String c s' => if is_json_ws c then skip_ws s' else s
  | EmptyString => EmptyString
  end.

Definition hex_val (c : ascii) : option N :=
  let n := code c in
  if is_digit c then Some (N.of_nat (n - 48))
  else if (97 <=? n) && (n <=? 102) then Some (N.of_nat (n - 87))
  else if (65 <=? n) && (n <=? 70) then Some (N.of_nat (n - 55))
  else None.

Definition hex4 (a b c d : ascii) : option N :=
  match hex_val a, hex_val b, hex_val c, hex_val d with
  | Some x, Some y, Some z, Some w =>
      Some (((x * 16 + y) * 16 + z) * 16 + w)%N
  | _, _, _, _ => None
  end.

Definition byte (n : N) : string := String (ascii_of_N n) EmptyString.

(** The UTF-8 form of a code point; a lone surrogate takes the three-byte
    form. *)
Definition utf8 (cp : N) : string :=
  (if cp <? 128 then byte cp
   else if cp <? 2048 then byte (192 + cp / 64) ++ byte (128 + cp mod 64)
   else if cp <? 65536 then
     byte (224 + cp / 4096) ++ byte (128 + (cp / 64) mod 64)
     ++ byte (128 + cp mod 64)
   else
     byte (240 + cp / 262144) ++ byte (128 + (cp / 4096) mod 64)
     ++ byte (128 + (cp / 64) mod 64) ++ byte (128 + cp mod 64))%N.

Definition is_high_surrogate (u : N) : bool :=
  ((55296 <=? u) && (u <=? 56319))%N.
Definition is_low_surrogate (u : N) : bool :=
  ((56320 <=? u) && (u <=? 57343))%N.

Definition simple_escape (e : ascii) : option string :=
  match e with
  | "034"%char => Some (String "034"%char EmptyString)
  | "\"%char => Some "\"
  | "/"%char => Some "/"
  | "b"%char => Some (byte 8)
  | "f"%char => Some (byte 12)
  | "n"%char => Some (byte 10)
  | "r"%char => Some (byte 13)
  | "t"%char => Some (byte 9)
  | _ => None
  end.

(** [scanstring] in strict mode, after the opening quote: the decoded string
    and what follows the closing quote. *)
Fixpoint scan_string (s : string) (acc : string) : option (string * string) :=
  match s with
  | EmptyString => None
  | String c s' =>
      if Ascii.eqb c "034"%char then Some (acc, s')
      else if Ascii.eqb c "\"%char then
        match s' with
        | EmptyString => None
        | String e s'' =>
            if Ascii.eqb e "u"%char then
              match s'' with
              | String h1 (String h2 (String h3 (String h4 s3))) =>
                  match hex4 h1 h2 h3 h4 with
                  | None => None
                  | Some u =>
                      if is_high_surrogate u then
                        match s3 with
                        | String "\"%char (String "u"%char
                            (String g1 (String g2 (String g3 (String g4 s4))))) =>
                            match hex4 g1 g2 g3 g4 with
                            | None => None
                            | Some u2 =>
                                if is_low_surrogate u2 then
                                  scan_string s4
                                    (acc ++ utf8 (65536 + (u - 55296) * 1024
                                                  + (u2 - 56320))%N)
                                else scan_string s3 (acc ++ utf8 u)
                            end
                        | _ => scan_string s3 (acc ++ utf8 u)
                        end
                      else scan_string s3 (acc ++ utf8 u)
                  end
              | _ => None
              end
            else
              match simple_escape e with
              | Some t => scan_string s'' (acc ++ t)
              | None => None
              end
        end
      else if code c <? 32 then None
      else scan_string s' (acc ++ String c EmptyString)
  end.

(** The longest prefix of decimal digits, and the rest. *)
Fixpoint span_digits (s : string) : string * string :=
  match s with
  | String c s' =>
      if is_digit c then
        let (ds, rest) := span_digits s' in (String c ds, rest)
      else (EmptyString, s)
  | EmptyString => (EmptyString, EmptyString)
  end.

Fixpoint digits_value (ds : string) (acc : Z) : Z :=
  match ds with
  | String c ds' => digits_value ds' (acc * 10 + Z.of_nat (code c - 48))%Z
  | EmptyString => acc
  end.

(** The number at the head of [s]: an optional minus sign, then [0] or a
    digit string without leading zero, then an optional fraction (a dot and
    at least one digit), then an optional exponent ([e] or [E], an optional
    sign, at least one digit).  An [int] when neither a fraction nor an
    exponent is present, else a [float]. *)
Definition scan_number (s : string) : option (json * string) :=
  let (neg, s1) :=
    match s with
    | String "-"%char t => (true, t)
    | _ => (false, s)
    end in
  let int_part : option (string * string) :=
    match s1 with
    | String c t =>
        if Ascii.eqb c "0"%char then Some ("0", t)
        else if is_digit c then Some (span_digits s1)
        else None
    | EmptyString => None
    end in
  match int_part with
  | None => None
  | Some (ids, r1) =>
      let '(fds, r2) :=
        match r1 with
        | String "."%char t =>
            let (ds, rest) := span_digits t in
            match ds with
            | EmptyString => (EmptyString, r1)
            | _ => (ds, rest)
            end
        | _ => (EmptyString, r1)
        end in
      let '(ex, r3) :=
        match r2 with
        | String c t =>
            if Ascii.eqb c "e"%char || Ascii.eqb c "E"%char then
              let '(eneg, t1) :=
                match t with
                | String "-"%char u => (true, u)
                | String "+"%char u => (false, u)
                | _ => (false, t)
                end in
              let (ds, rest) := span_digits t1 in
              match ds with
              | EmptyString => (None, r2)
              | _ => let v := digits_value ds 0 in
                     (Some (if eneg then (- v)%Z else v), rest)
              end
            else (None, r2)
        | EmptyString => (None, r2)
        end in
      let sign (z : Z) : Z := if neg then (- z)%Z else z in
      match fds, ex with
      | EmptyString, None => Some (JInt (sign (digits_value ids 0)), r3)
      | _, _ =>
          let m := digits_value fds (digits_value ids 0) in
          let e := match ex with Some x => x | None => 0%Z end in
          Some (JFloat (sign m) (e - Z.of_nat (String.length fds))%Z, r3)
      end
  end.

(** [scan_once] with the object and array readers: each returns the value and
    what follows it.  [None] is a [JSONDecodeError]. *)
Fixpoint scan_once (fuel : nat) (s : string) {struct fuel}
  : option (json * string) :=
  match fuel with
  | O => None
  | S fuel' =>
      match s with
      | EmptyString => None
      | String c s' =>
          if Ascii.eqb c "034"%char then
            match scan_string s' EmptyString with
            | Some (t, rest) => Some (JStr t, rest)
            | None => None
            end
          else if Ascii.eqb c "{"%char then
            match skip_ws s' with
            | String "034"%char _ => scan_members fuel' (skip_ws s') []
            | String "}"%char rest => Some (JObj [], rest)
            | _ => None
            end
          else if Ascii.eqb c "["%char then
            match skip_ws s' with
            | String "]"%char rest => Some (JArr [], rest)
            | _ => scan_elements fuel' (skip_ws s') []
            end
          else if startswith s "null" then Some (JNull, drop 4 s)
          else if startswith s "true" then Some (JBool true, drop 4 s)
          else if startswith s "false" then Some (JBool false, drop 5 s)
          else
            match scan_number s with
            | Some r => Some r
            | None =>
                if startswith s "NaN" then Some (JConst "NaN", drop 3 s)
                else if startswith s "Infinity"
                then Some (JConst "Infinity", drop 8 s)
                else if startswith s "-Infinity"
                then Some (JConst "-Infinity", drop 9 s)
                else None
            end
      end
  end

(** the members of an object, at the opening quote of a key *)
with scan_members (fuel : nat) (s : string) (acc : list (string * json))
       {struct fuel} : option (json * string) :=
  match fuel with
  | O => None
  | S fuel' =>
      match s with
      | String "034"%char s1 =>
          match scan_string s1 EmptyString with
          | None => None
          | Some (key, r1) =>
              match skip_ws r1 with
              | String ":"%char r2 =>
                  match scan_once fuel' (skip_ws r2) with
                  | None => None
                  | Some (v, r3) =>
                      let acc' := dict_set key v acc in
                      match skip_ws r3 with
                      | String "}"%char rest => Some (JObj acc', rest)
                      | String ","%char r4 =>
                          scan_members fuel' (skip_ws r4) acc'
                      | _ => None
                      end
                  end
              | _ => None
              end
          end
      | _ => None
      end
  end

(** the elements of an array, at the head of an element *)
with scan_elements (fuel : nat) (s : string) (acc : list json)
       {struct fuel} : option (json * string) :=
  match fuel with
  | O => None
  | S fuel' =>
      match scan_once fuel' s with
      | None => None
      | Some (v, r1) =>
          match skip_ws r1 with
          | String "]"%char rest => Some (JArr (acc ++ [v])%list, rest)
          | String ","%char r2 =>
              scan_elements fuel' (skip_ws r2) (acc ++ [v])%list
          | _ => None
          end
      end
  end.

(** [json.loads(s)]: [None] when it raises.  A leading byte-order mark is
    refused; whitespace may surround the value; nothing else may follow.
    Every reader call consumes a character at least every second call, so the
    fuel is never the reason of a failure. *)
Definition loads (s : string) : option json :=
  if startswith s (byte 239 ++ byte 187 ++ byte 191) then None
  else
    match scan_once (2 * String.length s + 4) (skip_ws s) with
    | Some (v, rest) =>
        match skip_ws rest with
        | EmptyString => Some v
        | _ => None
        end
    | None => None
    end.

End Json.

(* ================================================================== *)
(** * Exceptions *)
(* ================================================================== *)

(** The exception classes the program meets.  All of them derive from
    [Exception]; [CapabilityError] stands for whatever an agent or the search
    client raises. *)
Inductive exn : Type :=
| TypeError
| AttributeError
| NameError
| ValidationError
| CapabilityError.

Inductive result (A : Type) : Type :=
| Ok (a : A)
| Raise (e : exn).

Arguments Ok {A} a.
Arguments Raise {A} e.

Definition is_ok {A : Type} (r : result A) : bool :=
  match r with Ok _ => true | Raise _ => false end.

(* ================================================================== *)
(** * schemas.py *)
(* ================================================================== *)

Module Company.
Record t : Type := mk { name : string; website : string; why_fit : string }.
End Company.

Module CompaniesPayload.
Record t : Type := mk { companies : list Company.t }.
End CompaniesPayload.

Module Contact.
Record t : Type := mk {
  name : string;
  role : string;
  email : option string;
  inferred : option bool;
  source : option string
}.
End Contact.

Module ContactsPerCompany.
Record t : Type := mk { company : string; contacts : list Contact.t }.
End ContactsPerCompany.

Module ContactsPayload.
Record t : Type := mk { companies : list ContactsPerCompany.t }.
End ContactsPayload.

Module ResearchPerCompany.
Record t : Type := mk { company : string; insights : list string }.
End ResearchPerCompany.

Module ResearchPayload.
Record t : Type := mk { companies : list ResearchPerCompany.t }.
End ResearchPayload.

Module EmailItem.
Record t : Type := mk {
  company : string;
  contact : string;
  subject : string;
  body : string
}.
End EmailItem.

Module EmailsPayload.
Record t : Type := mk { emails : list EmailItem.t }.
End EmailsPayload.

(* ================================================================== *)
(** * Validation of parsed data against the schemas *)
(* ================================================================== *)

(** What constructing a model from parsed JSON does (pydantic 2, default
    configuration): a [str] field takes a string only, a list field a list
    only, a model field a mapping; keys that are no field are ignored; a field
    with a default may be absent.  [None] is a [ValidationError]. *)
Module Validate.
Import PyStr Json.

Fixpoint traverse {A B : Type} (f : A -> option B) (l : list A)
  : option (list B) :=
  match l with
  | [] => Some []
  | x :: l' =>
      match f x, traverse f l' with
      | Some y, Some ys => Some (y :: ys)
      | _, _ => None
      end
  end.

Definition as_str (v : json) : option string :=
  match v with JStr s => Some s | _ => None end.

(** a required [str] field *)
Definition req_str (k : string) (d : list (string * json)) : option string :=
  match dict_get k d with
  | Some v => as_str v
  | None => None
  end.

(** [Optional[str] = None] *)
Definition opt_str (k : string) (d : list (string * json))
  : option (option string) :=
  match dict_get k d with
  | None => Some None
  | Some JNull => Some None
  | Some (JStr s) => Some (Some s)
  | Some _ => None
  end.

(** [bool] in lax mode: a boolean, the numbers 0 and 1, or one of the
    accepted words in any case. *)
Definition as_bool (v : json) : option bool :=
  match v with
  | JBool b => Some b
  | JInt 0 => Some false
  | JInt 1 => Some true
  | JFloat m e =>
      if (m =? 0)%Z then Some false
      else if (0 <=? e)%Z && (m * 10 ^ e =? 1)%Z then Some true
      else if (e <? 0)%Z && (m =? 10 ^ (- e))%Z then Some true
      else None
  | JStr s =>
      let w := lower s in
      if mem w ["0"; "off"; "f"; "false"; "n"; "no"] then Some false
      else if mem w ["1"; "on"; "t"; "true"; "y"; "yes"] then Some true
      else None
  | _ => None
  end.

(** [Optional[bool] = False] *)
Definition opt_bool (k : string) (d : list (string * json))
  : option (option bool) :=
  match dict_get k d with
  | None => Some (Some false)
  | Some JNull => Some None
  | Some v =>
      match as_bool v with
      | Some b => Some (Some b)
      | None => None
      end
  end.

(** [List[T] = Field(default_factory=list)] *)
Definition list_field {T : Type} (item : json -> option T) (k : string)
           (d : list (string * json)) : option (list T) :=
  match dict_get k d with
  | None => Some []
  | Some (JArr l) => traverse item l
  | Some _ => None
  end.

Definition company (v : json) : option Company.t :=
  match v with
  | JObj d =>
      match req_str "name" d, req_str "website" d, req_str "why_fit" d with
      | Some n, Some w, Some f => Some (Company.mk n w f)
      | _, _, _ => None
      end
  | _ => None
  end.

Definition contact (v : json) : option Contact.t :=
  match v with
  | JObj d =>
      match req_str "name" d, req_str "role" d, opt_str "email" d,
            opt_bool "inferred" d, opt_str "source" d with
      | Some n, Some r, Some e, Some i, Some s => Some (Contact.mk n r e i s)
      | _, _, _, _, _ => None
      end
  | _ => None
  end.

Definition contacts_per_company (v : json) : option ContactsPerCompany.t :=
  match v with
  | JObj d =>
      match req_str "company" d, list_field contact "contacts" d with
      | Some c, Some cs => Some (ContactsPerCompany.mk c cs)
      | _, _ => None
      end
  | _ => None
  end.

Definition research_per_company (v : json) : option ResearchPerCompany.t :=
  match v with
  | JObj d =>
      match req_str "company" d, list_field as_str "insights" d with
      | Some c, Some l => Some (ResearchPerCompany.mk c l)
      | _, _ => None
      end
  | _ => None
  end.

Definition email_item (v : json) : option EmailItem.t :=
  match v with
  | JObj d =>
      match req_str "company" d, req_str "contact" d, req_str "subject" d,
            req_str "body" d with
      | Some c, Some t, Some s, Some b => Some (EmailItem.mk c t s b)
      | _, _, _, _ => None
      end
  | _ => None
  end.

(** [Model( **data )]: unpacking anything but a mapping is a [TypeError]. *)
Definition construct {T P : Type} (item : json -> option T) (field : string)
           (mk : list T -> P) (data : json) : result P :=
  match data with
  | JObj d =>
      match list_field item field d with
      | Some l => Ok (mk l)
      | None => Raise ValidationError
      end
  | _ => Raise TypeError
  end.

(** [CompaniesPayload( **data )] *)
Definition companies_payload : json -> result CompaniesPayload.t :=
  construct company "companies" CompaniesPayload.mk.

(** [ContactsPayload( **data )] *)
Definition contacts_payload : json -> result ContactsPayload.t :=
  construct contacts_per_company "companies" ContactsPayload.mk.

(** [ResearchPayload( **data )] *)
Definition research_payload : json -> result ResearchPayload.t :=
  construct research_per_company "companies" ResearchPayload.mk.

(** [EmailsPayload( **data )] *)
Definition emails_payload : json -> result EmailsPayload.t :=
  construct email_item "emails" EmailsPayload.mk.

End Validate.

(* ================================================================== *)
(** * [model_dump] followed by [json.dumps(..., ensure_ascii=False)] *)
(* ================================================================== *)

Module Dumps.
Import PyStr.

Definition hex_digit (n : nat) : string :=
  String (ascii_of_nat (if n <? 10 then 48 + n else 87 + n)) EmptyString.

Definition escape_char (c : ascii) : string :=
  let n := code c in
  if n =? 34 then "\" ++ String c EmptyString
  else if n =? 92 then "\\"
  else if n =? 10 then "\n"
  else if n =? 13 then "\r"
  else if n =? 9 then "\t"
  else if n =? 8 then "\b"
  else if n =? 12 then "\f"
  else if n <? 32 then "\u00" ++ hex_digit (n / 16) ++ hex_digit (n mod 16)
  else String c EmptyString.

Fixpoint escape (s : string) : string :=
  match s with
  | EmptyString => EmptyString
  | String c s' => escape_char c ++ escape s'
  end.

Definition quote : string := String "034"%char EmptyString.

Definition str (s : string) : string := quote ++ escape s ++ quote.

Definition opt_str (o : option string) : string :=
  match o with Some s => str s | None => "null" end.

Definition opt_bool (o : option bool) : string :=
  match o with Some true => "true" | Some false => "false" | None => "null" end.

Definition list_of {A : Type} (f : A -> string) (l : list A) : string :=
  "[" ++ join ", " (map f l) ++ "]".

Definition dict (items : list (string * string)) : string :=
  "{" ++ join ", " (map (fun kv => str (fst kv) ++ ": " ++ snd kv) items) ++ "}".

Definition company (c : Company.t) : string :=
  dict [("name", str (Company.name c)); ("website", str (Company.website c));
        ("why_fit", str (Company.why_fit c))].

Definition contact (c : Contact.t) : string :=
  dict [("name", str (Contact.name c)); ("role", str (Contact.role c));
        ("email", opt_str (Contact.email c));
        ("inferred", opt_bool (Contact.inferred c));
        ("source", opt_str (Contact.source c))].

Definition contacts_payload (p : ContactsPayload.t) : string :=
  dict [("companies",
         list_of (fun pc =>
                    dict [("company", str (ContactsPerCompany.company pc));
                          ("contacts",
                           list_of contact (ContactsPerCompany.contacts pc))])
                 (ContactsPayload.companies p))].

Definition research_payload (p : ResearchPayload.t) : string :=
  dict [("companies",
         list_of (fun rc =>
                    dict [("company", str (ResearchPerCompany.company rc));
                          ("insights",
                           list_of str (ResearchPerCompany.insights rc))])
                 (ResearchPayload.companies p))].

Definition email_item (e : EmailItem.t) : string :=
  dict [("company", str (EmailItem.company e));
        ("contact", str (EmailItem.contact e));
        ("subject", str (EmailItem.subject e));
        ("body", str (EmailItem.body e))].

(** [json.dumps(sender)] for a [Dict[str, str]] *)
Definition str_dict (d : list (string * string)) : string :=
  dict (map (fun kv => (fst kv, str (snd kv))) d).

End Dumps.

(* ================================================================== *)
(** * Capabilities and effects *)
(* ================================================================== *)

(** Every contact with the outside world, in the order it happens. *)
Inductive event : Type :=
| EvLog (message : string)
| EvAgentRun (prompt : string)
| EvSearchAndContents (query : string) (num_results : Z)
| EvSearch (query : string) (num_results : Z).

Definition trace : Type := list event.

Definition is_agent_run (e : event) : bool :=
  match e with EvAgentRun _ => true | _ => false end.

Definition is_search (e : event) : bool :=
  match e with
  | EvSearchAndContents _ _ | EvSearch _ _ => true
  | _ => false
  end.

(** Number of [agent.run] calls in a trace. *)
Definition agent_runs (tr : trace) : nat := length (filter is_agent_run tr).

(** Number of calls to the search client in a trace. *)
Definition searches (tr : trace) : nat := length (filter is_search tr).

(** A computation that reads and extends the trace and may raise. *)
Definition M (A : Type) : Type := trace -> result A * trace.

Definition ret {A : Type} (a : A) : M A := fun tr => (Ok a, tr).

Definition throw {A : Type} (e : exn) : M A := fun tr => (Raise e, tr).

Definition bind {A B : Type} (c : M A) (k : A -> M B) : M B :=
  fun tr =>
    match c tr with
    | (Ok a, tr') => k a tr'
    | (Raise e, tr') => (Raise e, tr')
    end.

Notation "x <- c ;; k" := (bind c (fun x => k))
  (at level 61, c at next level, right associativity).
Notation "c ;;; k" := (bind c (fun _ => k))
  (at level 61, right associativity).

(** a pure step that may raise *)
Definition lift {A : Type} (r : result A) : M A := fun tr => (r, tr).

(** [try: c except Exception: h] *)
Definition try_except {A : Type} (c : M A) (h : M A) : M A :=
  fun tr =>
    match c tr with
    | (Ok a, tr') => (Ok a, tr')
    | (Raise _, tr') => h tr'
    end.

Definition emit (e : event) : M unit := fun tr => (Ok tt, (tr ++ [e])%list).

(** [log_info(message)] *)
Definition log_info (message : string) : M unit := emit (EvLog message).

(** An attribute or item of a response object: a string, or something else. *)
Inductive pyattr : Type :=
| AStr (s : string)
| AOther.

(** What [agent.run] returns: [getattr] gives [getattr(res, name, None)],
    [mapping] gives [res.get] when the response is a [dict], [to_str] is
    [str(res)]. *)
Record Response : Type := {
  getattr : string -> option pyattr;
  mapping : option (string -> option pyattr);
  to_str : result string
}.

(** The agent capability: the answer to the [n]-th call (counting from 0) of
    [run] with a prompt. *)
Definition Agent : Type := nat -> string -> result Response.

(** [agent.run(prompt)] *)
Definition agent_run (agent : Agent) (prompt : string) : M Response :=
  fun tr => (agent (agent_runs tr) prompt, (tr ++ [EvAgentRun prompt])%list).

(** A search result: an object with attributes, or a mapping.  A field is
    [None] when it is absent (or holds [None]). *)
Inductive SearchItem : Type :=
| ItemObj (url title text : option string)
| ItemDict (url title text : option string).

(** The search client: the results of the [n]-th call (counting from 0). *)
Record ExaClient : Type := {
  search_and_contents : nat -> string -> Z -> result (list SearchItem);
  search : nat -> string -> Z -> result (list SearchItem)
}.

(** [exa.search_and_contents(query=q, num_results=n, use_autoprompt=True)],
    then [.results] *)
Definition exa_search_and_contents (exa : ExaClient) (q : string) (n : Z)
  : M (list SearchItem) :=
  fun tr => (search_and_contents exa (searches tr) q n,
             (tr ++ [EvSearchAndContents q n])%list).

(** [exa.search(query=q, num_results=n, use_autoprompt=True)], then
    [.results] *)
Definition exa_search (exa : ExaClient) (q : string) (n : Z)
  : M (list SearchItem) :=
  fun tr => (search exa (searches tr) q n, (tr ++ [EvSearch q n])%list).

Inductive field_name : Type := FUrl | FTitle | FText.

Definition field_key (f : field_name) : string :=
  match f with FUrl => "url" | FTitle => "title" | FText => "text" end.

(** [getattr(r, f, None) or r.get(f, '')]: an object whose attribute is
    absent, [None] or empty has no [get]. *)
Definition item_field (r : SearchItem) (f : field_name) : result string :=
  match r with
  | ItemObj u t x =>
      match (match f with FUrl => u | FTitle => t | FText => x end) with
      | Some (String c s) => Ok (String c s)
      | _ => Raise AttributeError
      end
  | ItemDict u t x =>
      match (match f with FUrl => u | FTitle => t | FText => x end) with
      | Some s => Ok s
      | None => Ok EmptyString
      end
  end.

Definition nl : string := String "010"%char EmptyString.

(* ================================================================== *)
(** * utils.py *)
(* ================================================================== *)

Section Outreach.
Import PyStr Json.

(** [_get_exa()]: the client, or [None] when the library, the key or the
    construction of the client is missing. *)
Variable _get_exa : option ExaClient.

(** The first key whose value is a string that is not blank. *)
Fixpoint first_text (get : string -> option pyattr) (keys : list string)
  : option string :=
  match keys with
  | [] => None
  | k :: keys' =>
      match get k with
      | Some (AStr val) =>
          if truthy (strip val) then Some val else first_text get keys'
      | _ => first_text get keys'
      end
  end.

Definition response_text (res : Response) : string :=
  match first_text (getattr res) ["text"; "output"; "response"; "content"] with
  | Some val => val
  | None =>
      let str_res :=
        match to_str res with Ok s => s | Raise _ => EmptyString end in
      match mapping res with
      | Some get =>
          match first_text get ["content"; "text"; "output"] with
          | Some val => val
          | None => str_res
          end
      | None => str_res
      end
  end.

(** The pattern of [parse_json_safe]: an opening brace, anything, a closing
    brace; or the same with brackets; the whole is group 1. *)
Definition JSON_LITERAL_RE : Re.regex :=
  Re.Group
    (Re.Alt
       (Re.Seq (Re.chr "{") (Re.Seq (Re.Star Re.any) (Re.chr "}")))
       (Re.Seq (Re.chr "[") (Re.Seq (Re.Star Re.any) (Re.chr "]")))).

Definition parse_json_safe (text : string) (default : json) : json :=
  if negb (truthy text) then default
  else
    match loads text with
    | Some v => v
    | None =>
        match Re.search JSON_LITERAL_RE text with
        | Some m =>
            match Re.m_group1 m with
            | Some candidate =>
                match loads candidate with
                | Some v => v
                | None => default
                end
            | None => default
            end
        | None => default
        end
    end.

(** [with_retries(fn, retries)]: the loop runs [n] more times, [last_exc] is
    the exception of the call before.  A call that returns ends the loop with
    its result; after the last turn the exception kept is raised again ([fn]
    is called once more only if none was kept). *)
Fixpoint with_retries_loop {A : Type} (fn : M A) (n : nat) (last_exc : option exn)
  : M A :=
  match n with
  | O =>
      match last_exc with
      | None => fn
      | Some e => throw e
      end
  | S n' =>
      fun tr =>
        match fn tr with
        | (Ok a, tr') => (Ok a, tr')
        | (Raise e, tr') => with_retries_loop fn n' (Some e) tr'
        end
  end.

Definition with_retries {A : Type} (fn : M A) (retries : Z) : M A :=
  with_retries_loop fn (Z.to_nat (Z.max 1 (retries + 1))) None.

(** [https?://([^/]+)] *)
Definition DOMAIN_RE : Re.regex :=
  Re.Seq (Re.lit "http")
    (Re.Seq (Re.Opt (Re.chr "s"))
       (Re.Seq (Re.lit "://")
          (Re.Group (Re.Plus (Re.Chr (fun c => negb (Ascii.eqb c "/"))))))).

Definition _domain (url : string) : string :=
  match Re.search DOMAIN_RE url with
  | Some m => match Re.m_group1 m with Some d => d | None => url end
  | None => url
  end.

Definition _brand_from_domain (domain : string) : string :=
  let parts := split "." domain in
  let parts :=
    filter (fun p => truthy p && negb (String.eqb (lower p) "www")) parts in
  if 2 <=? length parts then capitalize (nth (length parts - 2) parts EmptyString)
  else match parts with
       | p :: _ => capitalize p
       | [] => domain
       end.

(** [\s*[-|•].*$], the bullet in its UTF-8 form *)
Definition TITLE_TAIL_RE : Re.regex :=
  Re.Seq (Re.Star Re.ws)
    (Re.Seq (Re.alts [Re.chr "-"; Re.chr "|"; Re.lit "•"])
       (Re.Seq (Re.Star Re.dot) Re.EndAnchor)).

(** [cookie|privacy|terms|login] under [re.I] *)
Definition LEGAL_RE : Re.regex :=
  Re.alts (map Re.lit_i ["cookie"; "privacy"; "terms"; "login"]).

Definition _infer_company_name (title url : string) : string :=
  let by_domain := _brand_from_domain (_domain url) in
  if truthy title then
    let clean := strip (Re.sub_empty TITLE_TAIL_RE title) in
    if truthy clean && negb (mem (lower clean) ["home"; "welcome"])
       && negb (Re.found LEGAL_RE clean)
    then clean else by_domain
  else by_domain.

Definition _BAD_SNIPPET_RE : Re.regex :=
  Re.alts (map Re.lit_i ["cookie"; "privacy"; "terms"; "javascript"; "enable";
                         "old browser"; "support"; "consent"]).

Definition _clean_why_fit (text fallback : string) : string :=
  if negb (truthy text) || Re.found _BAD_SNIPPET_RE text then fallback
  else slice_to 160 (strip text).

Definition _FASHION_WORDS : Re.regex :=
  Re.alts
    [Re.lit_i "trend"; Re.lit_i "collection"; Re.lit_i "assort";
     Re.lit_i "buying"; Re.lit_i "merchand"; Re.lit_i "retail";
     Re.lit_i "fashion"; Re.lit_i "brand";
     Re.Seq (Re.chr_i "e") (Re.Seq (Re.Opt (Re.chr_i "-")) (Re.lit_i "commerce"));
     Re.lit_i "pricing"; Re.lit_i "sell"; Re.lit_i "SKU";
     Re.lit_i "inventory"; Re.lit_i "season"].

(** [(?<=[.!?])\s+] *)
Definition SENTENCE_END_RE : Re.regex :=
  Re.Seq
    (Re.LookBehind
       (fun c => Ascii.eqb c "." || Ascii.eqb c "!" || Ascii.eqb c "?"))
    (Re.Plus Re.ws).

Definition _extract_key_points (text : string) (brand : option string)
  : list string :=
  let sentences := Re.split SENTENCE_END_RE text in
  let keep (s : string) : bool :=
    let ls := lower s in
    let off_topic :=
      match brand with
      | Some b =>
          truthy b && negb (contains (lower b) ls)
          && negb (Re.found _FASHION_WORDS ls)
      | None => false
      end in
    negb off_topic && (40 <=? len s) && (len s <=? 200) in
  firstn 4 (map strip (filter keep sentences)).

Definition _excluded (domain : string) (exclude_domains : list string) : bool :=
  let domain := lower domain in
  if existsb (fun ex => endswith domain (lower ex)) exclude_domains then true
  else contains "livetrend" domain.

(** [a or b] on strings *)
Definition str_or (a b : string) : string := if truthy a then a else b.

(** Sequencing of pure steps that may raise. *)
Definition rbind {A B : Type} (r : result A) (k : A -> result B) : result B :=
  match r with Ok a => k a | Raise e => Raise e end.

Definition GENERIC_WHY_FIT : string :=
  "Retailer/brand with ecommerce; matches targeting.".

(** The [for r in items] loop of [discover_companies_via_exa].  It runs
    outside any [try]: a result without a usable field ends the call with the
    exception. *)
Fixpoint discover_loop (items : list SearchItem) (limit : Z)
         (exclude_domains : list string) (companies : list Company.t)
         (seen : list string) : result (list Company.t) :=
  match items with
  | [] => Ok companies
  | r :: items' =>
      rbind (item_field r FUrl) (fun url =>
      rbind (item_field r FTitle) (fun title =>
      rbind (item_field r FText) (fun text =>
        let domain := _domain url in
        if _excluded domain exclude_domains || mem domain seen then
          discover_loop items' limit exclude_domains companies seen
        else
          let seen := domain :: seen in
          let name := _infer_company_name title url in
          let why := _clean_why_fit (str_or text title) GENERIC_WHY_FIT in
          if negb (Re.found _FASHION_WORDS (str_or text title)) then
            discover_loop items' limit exclude_domains companies seen
          else
            let companies := (companies ++ [Company.mk name url why])%list in
            if (Z.of_nat (length companies) >=? limit)%Z then Ok companies
            else discover_loop items' limit exclude_domains companies seen)))
  end.

Definition discover_companies_via_exa (target_desc offering_desc : string)
           (limit : Z) (exclude_domains : option (list string)) (debug : bool)
  : M CompaniesPayload.t :=
  let exclude_domains :=
    match exclude_domains with Some l => l | None => [] end in
  match _get_exa with
  | None => ret (CompaniesPayload.mk [])
  | Some exa =>
      let query :=
        "(fashion retailer OR apparel brand) site:*.com (buying OR merchandising OR ecommerce) -site:livetrend.co -cookie -privacy -terms -login -support — "
        ++ target_desc in
      (if debug
       then log_info ("[EXA] search companies query: " ++ slice_to 140 query ++ "…")
       else ret tt) ;;;
      found <- try_except
                 (items <- exa_search_and_contents exa query (limit * 2) ;;
                  ret (Some items))
                 (try_except
                    (items <- exa_search exa query (limit * 2) ;;
                     ret (Some items))
                    (ret None)) ;;
      match found with
      | None => ret (CompaniesPayload.mk [])
      | Some items =>
          companies <- lift (discover_loop items limit exclude_domains [] []) ;;
          ret (CompaniesPayload.mk companies)
      end
  end.

(** [utils.py] calls [_infer_person_from_title] and [_infer_email] but neither
    defines nor imports them (they live in another script): in this module the
    call raises [NameError]. *)
Definition _infer_person_from_title (title : string) : result (option string) :=
  Raise NameError.

Definition _infer_email (person_name domain : string) : result (option string) :=
  Raise NameError.

Definition ROLES : list string :=
  ["Head of Buying"; "Merchandising Director"; "VP Merchandising"; "GTM Lead";
   "Partnerships Manager"; "Product Marketing"; "Founder"].

(** The [for r in items] loop of [find_contacts_via_exa]: the contacts
    appended so far, and whether an exception ended the loop. *)
Fixpoint contact_items (items : list SearchItem) (role domain : string)
         (contacts : list Contact.t) : list Contact.t * bool :=
  match items with
  | [] => (contacts, false)
  | r :: items' =>
      let step : result (option Contact.t) :=
        rbind (item_field r FTitle) (fun title =>
        rbind (item_field r FUrl) (fun url =>
        rbind (_infer_person_from_title title) (fun person =>
          match person with
          | Some (String c p) =>
              rbind (_infer_email (String c p) domain) (fun email =>
                Ok (Some (Contact.mk (String c p) role email (Some true)
                            (Some url))))
          | _ => Ok None
          end))) in
      match step with
      | Ok (Some ct) => contact_items items' role domain (contacts ++ [ct])%list
      | Ok None => contact_items items' role domain contacts
      | Raise _ => (contacts, true)
      end
  end.

(** The [for role in roles] loop: an exception (of the search or of the items
    loop) goes on with the next role; two contacts or more end the loop. *)
Fixpoint contact_roles (exa : ExaClient) (roles : list string)
         (company_brand domain : string) (debug : bool)
         (contacts : list Contact.t) : M (list Contact.t) :=
  match roles with
  | [] => ret contacts
  | role :: roles' =>
      let q := role ++ " " ++ company_brand ++ " email OR contact" in
      (if debug then log_info ("[EXA] search contact query: " ++ q)
       else ret tt) ;;;
      searched <- try_except
                    (items <- exa_search exa q 2 ;; ret (Some items))
                    (ret None) ;;
      match searched with
      | None => contact_roles exa roles' company_brand domain debug contacts
      | Some items =>
          let (contacts, raised) := contact_items items role domain contacts in
          if raised then
            contact_roles exa roles' company_brand domain debug contacts
          else if 2 <=? length contacts then ret contacts
          else contact_roles exa roles' company_brand domain debug contacts
      end
  end.

Fixpoint contact_companies (exa : ExaClient) (cs : list Company.t)
         (debug : bool) (out : list ContactsPerCompany.t)
  : M (list ContactsPerCompany.t) :=
  match cs with
  | [] => ret out
  | c :: cs' =>
      let domain := _domain (Company.website c) in
      let company_brand := _brand_from_domain domain in
      contacts <- contact_roles exa ROLES company_brand domain debug [] ;;
      contact_companies exa cs' debug
        (out ++ [ContactsPerCompany.mk (Company.name c) (firstn 2 contacts)])%list
  end.

Definition find_contacts_via_exa (companies : CompaniesPayload.t) (debug : bool)
  : M ContactsPayload.t :=
  match _get_exa with
  | None => ret (ContactsPayload.mk [])
  | Some exa =>
      out <- contact_companies exa (CompaniesPayload.companies companies)
               debug [] ;;
      ret (ContactsPayload.mk out)
  end.

(** [for pt in points: if pt not in insights: insights.append(pt)] *)
Fixpoint add_new (points : list string) (insights : list string) : list string :=
  match points with
  | [] => insights
  | pt :: points' =>
      add_new points' (if mem pt insights then insights
                       else (insights ++ [pt])%list)
  end.

(** The [for r in items] loop of [collect_research_via_exa]; a result without
    usable text raises, which ends the loop with what was gathered. *)
Fixpoint research_items (items : list SearchItem) (brand : string)
         (insights : list string) : list string :=
  match items with
  | [] => insights
  | r :: items' =>
      match item_field r FText with
      | Ok text =>
          research_items items' brand
            (add_new (_extract_key_points text (Some brand)) insights)
      | Raise _ => insights
      end
  end.

Fixpoint research_queries (exa : ExaClient) (queries : list string)
         (brand : string) (debug : bool) (insights : list string)
  : M (list string) :=
  match queries with
  | [] => ret insights
  | q :: queries' =>
      (if debug then log_info ("[EXA] search research query: " ++ q)
       else ret tt) ;;;
      searched <- try_except
                    (items <- exa_search_and_contents exa q 3 ;;
                     ret (Some items))
                    (ret None) ;;
      match searched with
      | None => research_queries exa queries' brand debug insights
      | Some items =>
          research_queries exa queries' brand debug
            (research_items items brand insights)
      end
  end.

Fixpoint research_companies (exa : ExaClient) (cs : list Company.t)
         (debug : bool) (out : list ResearchPerCompany.t)
  : M (list ResearchPerCompany.t) :=
  match cs with
  | [] => ret out
  | c :: cs' =>
      let domain := _domain (Company.website c) in
      let brand := _brand_from_domain domain in
      let queries := ["site:" ++ domain ++ " (about OR team OR blog)";
                      "site:reddit.com " ++ brand] in
      insights <- research_queries exa queries brand debug [] ;;
      research_companies exa cs' debug
        (out ++ [ResearchPerCompany.mk (Company.name c) (firstn 4 insights)])%list
  end.

Definition collect_research_via_exa (companies : CompaniesPayload.t)
           (debug : bool) : M ResearchPayload.t :=
  match _get_exa with
  | None => ret (ResearchPayload.mk [])
  | Some exa =>
      out <- research_companies exa (CompaniesPayload.companies companies)
               debug [] ;;
      ret (ResearchPayload.mk out)
  end.

(** The loop of [normalize_companies]. *)
Fixpoint normalize_loop (cs : list Company.t) (exclude_domains : list string)
         (clean : list Company.t) (seen : list string) : list Company.t :=
  match cs with
  | [] => clean
  | c :: cs' =>
      let d := _domain (Company.website c) in
      if _excluded d exclude_domains || mem d seen then
        normalize_loop cs' exclude_domains clean seen
      else
        let seen := d :: seen in
        let name := _infer_company_name (Company.name c) (Company.website c) in
        let why := _clean_why_fit (Company.why_fit c) GENERIC_WHY_FIT in
        if negb (Re.found _FASHION_WORDS (Company.why_fit c ++ " " ++ name)) then
          normalize_loop cs' exclude_domains clean seen
        else
          normalize_loop cs' exclude_domains
            (clean ++ [Company.mk name (Company.website c) why])%list seen
  end.

Definition normalize_companies (payload : CompaniesPayload.t)
           (exclude_domains : option (list string)) : CompaniesPayload.t :=
  let exclude_domains :=
    match exclude_domains with Some l => l | None => [] end in
  CompaniesPayload.mk
    (normalize_loop (CompaniesPayload.companies payload) exclude_domains [] []).

(** The deduplication loop of [clean_research]. *)
Fixpoint unique_loop (filtered : list string) (unique : list string)
         (seen : list string) : list string :=
  match filtered with
  | [] => unique
  | p :: filtered' =>
      let k := lower (strip p) in
      if mem k seen then unique_loop filtered' unique seen
      else unique_loop filtered' (unique ++ [p])%list (k :: seen)
  end.

Definition clean_research (payload : ResearchPayload.t) : ResearchPayload.t :=
  ResearchPayload.mk
    (map (fun rc =>
            let filtered :=
              filter (fun p => negb (Re.found _BAD_SNIPPET_RE p)
                               && Re.found _FASHION_WORDS p)
                     (ResearchPerCompany.insights rc) in
            ResearchPerCompany.mk (ResearchPerCompany.company rc)
              (firstn 4 (unique_loop filtered [] [])))
         (ResearchPayload.companies payload)).

(** A [dict] with string keys: its items in insertion order. *)
Fixpoint pydict_get {V : Type} (k : string) (d : list (string * V)) : option V :=
  match d with
  | [] => None
  | (k', v) :: d' => if String.eqb k k' then Some v else pydict_get k d'
  end.

Fixpoint pydict_set {V : Type} (k : string) (v : V) (d : list (string * V))
  : list (string * V) :=
  match d with
  | [] => [(k, v)]
  | (k', v') :: d' =>
      if String.eqb k k' then (k', v) :: d' else (k', v') :: pydict_set k v d'
  end.

(** [{key(x): val(x) for x in l}] *)
Definition pydict_of {A V : Type} (key : A -> string) (val : A -> V)
           (l : list A) : list (string * V) :=
  fold_left (fun d x => pydict_set (key x) (val x) d) l [].

Definition STYLE_HINTS : list (string * string) :=
  [("Professional", "ton professionnel, clair et concis");
   ("Casual", "ton amical et conversationnel");
   ("Cold", "ton direct et orienté ROI");
   ("Consultative", "ton consultatif et orienté diagnostic")].

(** [Contact(name='Équipe', role='Team')] *)
Definition PLACEHOLDER_CONTACT : Contact.t :=
  Contact.mk "Équipe" "Team" None (Some false) None.

(** [sender.get(key, default)] *)
Definition sender_get (sender : list (string * string)) (key default : string)
  : string :=
  match pydict_get key sender with Some v => v | None => default end.

(** The contacts an email is written to for a company: those recorded under
    its name, or the placeholder when there is none. *)
Definition targets_of (contacts : ContactsPayload.t) (comp : Company.t)
  : list Contact.t :=
  let company_to_contacts :=
    pydict_of ContactsPerCompany.company ContactsPerCompany.contacts
      (ContactsPayload.companies contacts) in
  match pydict_get (Company.name comp) company_to_contacts with
  | Some (ct :: cts) => ct :: cts
  | _ => [PLACEHOLDER_CONTACT]
  end.

Definition template_email (research : ResearchPayload.t)
           (sender : list (string * string)) (style : string)
           (comp : Company.t) (ct : Contact.t) : EmailItem.t :=
  let style_hint :=
    match pydict_get style STYLE_HINTS with
    | Some h => h
    | None => "ton professionnel"
    end in
  let research_map :=
    pydict_of ResearchPerCompany.company ResearchPerCompany.insights
      (ResearchPayload.companies research) in
  let brand := _brand_from_domain (_domain (Company.website comp)) in
  let subject := brand ++ " — booster vos décisions d'achat avec la data" in
  let ins :=
    filter (fun p => negb (Re.found _BAD_SNIPPET_RE p))
      (match pydict_get (Company.name comp) research_map with
       | Some l => l
       | None => []
       end) in
  let ins_text :=
    match ins with
    | [] => nl ++ "- Observation marché pertinente"
    | _ => nl ++ "- " ++ join (nl ++ "- ") (firstn 2 ins)
    end in
  let body :=
    "Bonjour " ++ Contact.name ct ++ "," ++ nl ++ nl
    ++ "Je me permets de vous contacter (– " ++ style_hint ++ ") au nom de "
    ++ sender_get sender "company" "Livetrend" ++ ". "
    ++ "Nous aidons les équipes buying/merchandising à construire des collections best-sellers grâce à :"
    ++ nl
    ++ "- analyses de tendances data-driven" ++ nl
    ++ "- veille concurrentielle en temps réel" ++ nl
    ++ "- planification d'assortiment et pricing" ++ nl ++ nl
    ++ "Ce qui a retenu notre attention pour " ++ brand ++ " :" ++ ins_text
    ++ nl ++ nl
    ++ "Ouvert à 15 min pour voir comment ces données peuvent sécuriser vos décisions ?"
    ++ nl ++ nl
    ++ "Bien à vous," ++ nl ++ sender_get sender "name" EmptyString ++ " — "
    ++ sender_get sender "company" "Livetrend" in
  EmailItem.mk (Company.name comp) (Contact.name ct) subject body.

Definition generate_template_emails (companies : CompaniesPayload.t)
           (contacts : ContactsPayload.t) (research : ResearchPayload.t)
           (sender : list (string * string)) (style : string)
  : EmailsPayload.t :=
  EmailsPayload.mk
    (flat_map (fun comp =>
                 map (template_email research sender style comp)
                     (targets_of contacts comp))
              (CompaniesPayload.companies companies)).

(* ================================================================== *)
(** * pipeline.py *)
(* ================================================================== *)

(** [str(v)] for a parsed value that is no string (a number, a boolean,
    [None], a list, a mapping): the interpreter's rendering, left open. *)
Variable py_str : json -> string.

(** [except ValidationError: payload = empty] *)
Definition on_validation_error {P : Type} (r : result P) (empty : P) : result P :=
  match r with
  | Raise ValidationError => Ok empty
  | _ => r
  end.

(** The [while attempt <= max(1, retries)] loop every stage runs; [parse] is
    what the stage does with a response, up to its payload.  The loop runs at
    most [max(1, retries) + 1 - attempt] times, which is the fuel its callers
    give it. *)
Fixpoint attempts {P : Type} (fuel : nat) (label : string) (agent : Agent)
         (prompt : string) (parse : Response -> result P)
         (nonempty : P -> bool) (retries attempt : Z) (payload : P) : M P :=
  if (attempt <=? Z.max 1 retries)%Z then
    match fuel with
    | O => ret payload
    | S fuel' =>
        log_info ("[OPENAI] " ++ label ++ ": prompt sent (attempt "
                  ++ of_Z (attempt + 1) ++ ")") ;;;
        res <- agent_run agent prompt ;;
        payload <- lift (parse res) ;;
        if nonempty payload then ret payload
        else attempts fuel' label agent prompt parse nonempty retries
               (attempt + 1) payload
    end
  else ret payload.

Definition loop_fuel (retries : Z) : nat := Z.to_nat (Z.max 1 retries + 1).

Definition has_companies (p : CompaniesPayload.t) : bool :=
  match CompaniesPayload.companies p with [] => false | _ => true end.

Definition company_attempt (res : Response) : result CompaniesPayload.t :=
  let text := response_text res in
  let data := parse_json_safe text (JObj [("companies", JArr [])]) in
  on_validation_error (Validate.companies_payload data) (CompaniesPayload.mk []).

Definition run_company_finder (agent : Agent) (target_desc offering_desc : string)
           (num_companies retries : Z) (allow_fallbacks : bool)
  : M CompaniesPayload.t :=
  let prompt :=
    "Trouve des entreprises correspondant au ciblage. "
    ++ "Réponds UNIQUEMENT en JSON: {companies: [{name, website, why_fit}]}. Respecte 'limit'."
    ++ nl ++ nl
    ++ "target_companies: " ++ target_desc ++ nl
    ++ "offering: " ++ offering_desc ++ nl
    ++ "limit: " ++ of_Z num_companies ++ nl in
  payload <- attempts (loop_fuel retries) "CompanyFinder" agent prompt
               company_attempt has_companies retries 0 (CompaniesPayload.mk []) ;;
  payload <-
    (if negb (has_companies payload) && allow_fallbacks then
       log_info "[EXA] Fallback: discover companies via Exa" ;;;
       discover_companies_via_exa target_desc offering_desc num_companies
         (Some ["livetrend.co"]) true
     else ret payload) ;;
  ret (if has_companies payload
       then normalize_companies payload (Some ["livetrend.co"])
       else payload).

Definition has_contacts (p : ContactsPayload.t) : bool :=
  match ContactsPayload.companies p with [] => false | _ => true end.

Definition contact_attempt (res : Response) : result ContactsPayload.t :=
  let text := response_text res in
  let data := parse_json_safe text (JObj [("companies", JArr [])]) in
  on_validation_error (Validate.contacts_payload data) (ContactsPayload.mk []).

Definition run_contact_finder (agent : Agent) (companies : CompaniesPayload.t)
           (target_desc offering_desc : string) (retries : Z)
           (allow_fallbacks : bool) : M ContactsPayload.t :=
  let companies_json :=
    Dumps.list_of Dumps.company (CompaniesPayload.companies companies) in
  let prompt :=
    "Pour chaque entreprise, trouve 1-2 décideurs pertinents (Founder's Office, GTM, Sales, Partnerships, Product Marketing). "
    ++ "Si email non trouvé, infère et mets inferred=true. Réponds en JSON: {companies: [{company, contacts: [{name, role, email, inferred, source}]}]}."
    ++ nl ++ nl
    ++ "companies: " ++ companies_json ++ nl
    ++ "target_companies: " ++ target_desc ++ nl
    ++ "offering: " ++ offering_desc ++ nl in
  payload <- attempts (loop_fuel retries) "ContactFinder" agent prompt
               contact_attempt has_contacts retries 0 (ContactsPayload.mk []) ;;
  if negb (has_contacts payload) && allow_fallbacks then
    log_info "[EXA] Fallback: find contacts via Exa" ;;;
    find_contacts_via_exa companies true
  else ret payload.

Definition has_research (p : ResearchPayload.t) : bool :=
  match ResearchPayload.companies p with [] => false | _ => true end.

Definition research_attempt (res : Response) : result ResearchPayload.t :=
  let text := response_text res in
  let data := parse_json_safe text (JObj [("companies", JArr [])]) in
  on_validation_error (Validate.research_payload data) (ResearchPayload.mk []).

Definition run_research (agent : Agent) (companies : CompaniesPayload.t)
           (retries : Z) (allow_fallbacks : bool) : M ResearchPayload.t :=
  let companies_json :=
    Dumps.list_of Dumps.company (CompaniesPayload.companies companies) in
  let prompt :=
    "Collecte 2-4 insights par entreprise depuis leur site (about/blog/produit) et Reddit. "
    ++ "Réponds en JSON: {companies: [{company, insights: [..]}]}."
    ++ nl ++ nl
    ++ "companies: " ++ companies_json ++ nl in
  payload <- attempts (loop_fuel retries) "Research" agent prompt
               research_attempt has_research retries 0 (ResearchPayload.mk []) ;;
  payload <-
    (if negb (has_research payload) && allow_fallbacks then
       log_info "[EXA] Fallback: collect research via Exa" ;;;
       collect_research_via_exa companies true
     else ret payload) ;;
  ret (if has_research payload then clean_research payload else payload).

(** Truth value of a parsed value. *)
Definition py_truthy (v : json) : bool :=
  match v with
  | JNull => false
  | JBool b => b
  | JInt n => negb (n =? 0)%Z
  | JFloat m _ => negb (m =? 0)%Z
  | JConst _ => true
  | JStr s => truthy s
  | JArr l => match l with [] => false | _ => true end
  | JObj d => match d with [] => false | _ => true end
  end.

(** [f'{t}'] *)
Definition format_value (t : json) : string :=
  match t with JStr s => s | _ => py_str t end.

Definition FOLLOWUPS_HEADER : string :=
  nl ++ nl ++ "---" ++ nl ++ "Follow-ups:" ++ nl.

(** The labeled block: the header, then one dashed line per follow-up. *)
Definition followups_block (fus : list json) : string :=
  FOLLOWUPS_HEADER ++ join nl (map (fun t => "- " ++ format_value t) fus).

(** The body of the first [for e in data['emails']] loop: a record with a
    non-empty [followups] list gets the block appended to its body; adding a
    string to a body that is no string is a [TypeError]. *)
Definition merge_followups (e : json) : result json :=
  match e with
  | JObj d =>
      match dict_get "followups" d with
      | Some fus =>
          if py_truthy fus then
            match fus with
            | JArr (t :: ts) =>
                match dict_get "body" d with
                | None =>
                    Ok (JObj (dict_set "body"
                                (JStr (EmptyString ++ followups_block (t :: ts))) d))
                | Some (JStr b) =>
                    Ok (JObj (dict_set "body"
                                (JStr (b ++ followups_block (t :: ts))) d))
                | Some _ => Raise TypeError
                end
            | _ => Ok e
            end
          else Ok e
      | None => Ok e
      end
  | _ => Ok e
  end.

(** A loop body applied to the elements in order; the first exception ends
    it. *)
Fixpoint for_each {A B : Type} (f : A -> result B) (l : list A)
  : result (list B) :=
  match l with
  | [] => Ok []
  | x :: l' => rbind (f x) (fun y => rbind (for_each f l') (fun ys => Ok (y :: ys)))
  end.

(** [if isinstance(data, dict) and 'emails' in data: for e in data['emails']].
    Iterating a string or a mapping yields strings, which the loop skips;
    a number, a boolean or [None] is not iterable. *)
Definition merge_all_followups (data : json) : result json :=
  match data with
  | JObj d =>
      match dict_get "emails" d with
      | None => Ok data
      | Some (JArr l) =>
          rbind (for_each merge_followups l)
                (fun l' => Ok (JObj (dict_set "emails" (JArr l') d)))
      | Some (JStr _) => Ok data
      | Some (JObj _) => Ok data
      | Some _ => Raise TypeError
      end
  | _ => Ok data
  end.

(** [e.setdefault(k, e.get(k, ''))] *)
Definition setdefault_empty (k : string) (d : list (string * json))
  : list (string * json) :=
  if dict_has k d then d else dict_set k (JStr EmptyString) d.

Definition set_defaults (e : json) : result json :=
  match e with
  | JObj d => Ok (JObj (setdefault_empty "contact" (setdefault_empty "company" d)))
  | _ => Raise AttributeError
  end.

(** [for e in data.get('emails', [])] with the two [setdefault] calls: only a
    mapping has [get] and [setdefault]. *)
Definition set_all_defaults (data : json) : result json :=
  match data with
  | JObj d =>
      match dict_get "emails" d with
      | None => Ok data
      | Some (JArr l) =>
          rbind (for_each set_defaults l)
                (fun l' => Ok (JObj (dict_set "emails" (JArr l') d)))
      | Some (JStr EmptyString) => Ok data
      | Some (JStr _) => Raise AttributeError
      | Some (JObj []) => Ok data
      | Some (JObj _) => Raise AttributeError
      | Some _ => Raise TypeError
      end
  | _ => Raise AttributeError
  end.

Definition email_attempt (res : Response) : result EmailsPayload.t :=
  let text := response_text res in
  let data := parse_json_safe text (JObj [("emails", JArr [])]) in
  rbind (merge_all_followups data) (fun data =>
  rbind (set_all_defaults data) (fun data =>
    on_validation_error (Validate.emails_payload data) (EmailsPayload.mk []))).

Definition has_emails (p : EmailsPayload.t) : bool :=
  match EmailsPayload.emails p with [] => false | _ => true end.

Definition run_email_writer (agent : Agent) (companies : CompaniesPayload.t)
           (contacts : ContactsPayload.t) (research : ResearchPayload.t)
           (sender : list (string * string)) (style : string) (retries : Z)
           (allow_fallbacks : bool) : M EmailsPayload.t :=
  let companies_json :=
    Dumps.list_of Dumps.company (CompaniesPayload.companies companies) in
  let contacts_json := Dumps.contacts_payload contacts in
  let research_json := Dumps.research_payload research in
  let sender_json := Dumps.str_dict sender in
  let prompt :=
    "Rédige des emails B2B personnalisés (120-160 mots), en intégrant 1-2 lignes de personnalisation depuis les insights. "
    ++ "Utilise sender.name et sender.company pour la signature. Réponds en JSON: {emails: [{company, contact, subject, body, optional followups}]}."
    ++ nl ++ nl
    ++ "companies: " ++ companies_json ++ nl
    ++ "contacts: " ++ contacts_json ++ nl
    ++ "research: " ++ research_json ++ nl
    ++ "sender: " ++ sender_json ++ nl in
  payload <- attempts (loop_fuel retries) "EmailWriter" agent prompt
               email_attempt has_emails retries 0 (EmailsPayload.mk []) ;;
  if negb (has_emails payload) && allow_fallbacks then
    log_info "[TEMPLATE] Fallback: generate simple template emails" ;;;
    ret (generate_template_emails companies contacts research sender style)
  else ret payload.

Definition run_quality_check (agent : Agent) (emails : EmailsPayload.t)
  : M (list json) :=
  match EmailsPayload.emails emails with
  | [] => ret []
  | _ =>
      let emails_json :=
        Dumps.list_of Dumps.email_item (EmailsPayload.emails emails) in
      let prompt :=
        "Vérifie que chaque email est spécifique et non générique, cite un insight, et évite le spam. "
        ++ "Réponds en JSON: {qc: [{ok: bool, notes: string}]}, ordre identique aux emails."
        ++ nl ++ nl
        ++ "emails: " ++ emails_json ++ nl in
      res <- agent_run agent prompt ;;
      text <- lift (to_str res) ;;
      match parse_json_safe text (JObj [("qc", JArr [])]) with
      | JObj d =>
          match dict_get "qc" d with
          | Some (JArr items) => ret items
          | _ => ret []
          end
      | _ => throw AttributeError
      end
  end.

End Outreach.

(* ================================================================== *)
(** * Sample inputs *)
(* ================================================================== *)

Module Samples.
Import PyStr Json.

(** JSON text is written with apostrophes, which [dq] turns into double
    quotes. *)
Fixpoint dq (s : string) : string :=
  match s with
  | EmptyString => EmptyString
  | String c s' =>
      String (if Ascii.eqb c "'"%char then "034"%char else c) (dq s')
  end.

(** A response object whose [content] attribute, and whose [str], is [s]. *)
Definition text_response (s : string) : Response :=
  {| getattr := fun a => if String.eqb a "content" then Some (AStr s) else None;
     mapping := None;
     to_str := Ok s |}.

(** An agent that gives the same answer to every prompt. *)
Definition const_agent (s : string) : Agent :=
  fun _ _ => Ok (text_response s).

(** A rendering of non-string values, for the samples. *)
Definition sample_py_str (v : json) : string :=
  match v with
  | JNull => "None"
  | JBool true => "True"
  | JBool false => "False"
  | JInt n => of_Z n
  | _ => "<value>"
  end.

(** A search client that finds nothing. *)
Definition empty_exa : ExaClient :=
  {| search_and_contents := fun _ _ _ => Ok [];
     search := fun _ _ _ => Ok [] |}.

Definition zara : Company.t :=
  Company.mk "Zara" "https://www.zara.com/fr" "fashion retailer".

Definition sample_sender : list (string * string) :=
  [("name", "Bob"); ("company", "Livetrend")].

(** A search client that always finds the same two pages. *)
Definition shop_exa : ExaClient :=
  let found :=
    [ItemObj (Some "https://www.livetrend.co/about") (Some "Livetrend - trends")
       (Some "Fashion trend data for retail.");
     ItemObj (Some "https://www.zara.com/fr") (Some "Zara - Official")
       (Some "Zara is a fashion retailer with a new collection every season.")] in
  {| search_and_contents := fun _ _ _ => Ok found;
     search := fun _ _ _ => Ok found |}.

(** A model answer with three companies: one kept, one of the excluded
    domain, one repeating the domain of the first. *)
Definition three_companies_answer : string :=
  dq "Here: {'companies': [{'name': 'Zara - Official', 'website': 'https://www.zara.com/fr', 'why_fit': 'fashion retailer'}, {'name': 'Livetrend', 'website': 'https://livetrend.co', 'why_fit': 'fashion trends'}, {'name': 'Zara again', 'website': 'https://www.zara.com/en', 'why_fit': 'fashion'}]} ok".

(** A candidate whose domain holds the word but is on no exclusion list. *)
Definition livetrend_io : Company.t :=
  Company.mk "Livetrend" "https://www.livetrend.io/x" "fashion trends".

(** What the fallback keeps of the pages of [shop_exa]. *)
Definition zara_found : Company.t :=
  Company.mk "Zara" "https://www.zara.com/fr"
    "Zara is a fashion retailer with a new collection every season.".

(** A model answer with three contacts for one company. *)
Definition three_contacts_answer : string :=
  dq "{'companies': [{'company': 'Zara', 'contacts': [{'name': 'Ann Lee', 'role': 'Founder'}, {'name': 'Bo Chan', 'role': 'GTM Lead'}, {'name': 'Cy Doe', 'role': 'Sales'}]}]}".

(** A model answer with one short insight. *)
Definition short_insight_answer : string :=
  dq "{'companies': [{'company': 'Zara', 'insights': ['retail']}]}".

(** A model answer with one email that carries a follow-up. *)
Definition followup_answer : string :=
  dq "{'emails': [{'company': 'Zara', 'contact': 'Ann', 'subject': 'Hi', 'body': 'Hello.', 'followups': ['Quick follow-up?']}]}".

(** The typed item the email stage stores for [followup_answer]. *)
Definition followup_item : EmailItem.t :=
  EmailItem.mk "Zara" "Ann" "Hi"
    ("Hello." ++ nl ++ nl ++ "---" ++ nl ++ "Follow-ups:" ++ nl
     ++ "- Quick follow-up?").

(** A model answer with one company, of the excluded domain. *)
Definition excluded_company_answer : string :=
  dq "{'companies': [{'name': 'Livetrend', 'website': 'https://livetrend.co', 'why_fit': 'fashion trends'}]}".

(** An agent whose every call raises. *)
Definition failing_agent : Agent := fun _ _ => Raise CapabilityError.

(** A model answer whose insights repeat, case and spaces aside. *)
Definition repeated_insights_answer : string :=
  dq "{'companies': [{'company': 'Zara', 'insights': ['New collection', ' new COLLECTION ', 'Retail trend', 'Accept our cookie policy for retail']}]}".

(** A model answer whose email names neither a company nor a contact. *)
Definition bare_email_answer : string :=
  dq "{'emails': [{'subject': 'Hi', 'body': 'Hello.'}]}".

(** A record of the domain of [zara] that names no fashion keyword. *)
Definition zara_plain : Company.t :=
  Company.mk "Zara" "https://www.zara.com/en" "clothes".

(** A model answer with one complete company record and one without a
    website. *)
Definition half_valid_answer : string :=
  dq "{'companies': [{'name': 'Zara', 'website': 'https://www.zara.com/fr', 'why_fit': 'fashion retailer'}, {'name': 'Mango'}]}".

(** A model answer with two pages of one site, written without scheme. *)
Definition same_site_answer : string :=
  dq "{'companies': [{'name': 'Zara France', 'website': 'www.zara.com/fr', 'why_fit': 'fashion retailer'}, {'name': 'Zara UK', 'website': 'www.zara.com/en', 'why_fit': 'fashion retailer'}]}".

(** A sentence of 198 characters, written on 217 bytes. *)
Definition french_sentence : string :=
  "Zara présente une collection d'été très colorée, pensée pour les clientes pressées, avec des pièces légères, des matières recyclées, des prix étudiés, une sélection renouvelée et variée à l'arrivée.".

(** A search client that always finds one page, whose text is that
    sentence. *)
Definition french_exa : ExaClient :=
  let found :=
    [ItemObj (Some "https://www.zara.com/fr") (Some "Zara - Officiel")
       (Some french_sentence)] in
  {| search_and_contents := fun _ _ _ => Ok found;
     search := fun _ _ _ => Ok found |}.

End Samples.

(* ================================================================== *)
(** * Vocabulary of the properties *)
(* ================================================================== *)

(** [emits P c]: whatever the trace, [c] only appends events that satisfy
    [P]. *)
Definition emits {A : Type} (P : event -> bool) (c : M A) : Prop :=
  forall tr, exists evs, snd (c tr) = (tr ++ evs)%list /\ forallb P evs = true.

Definition not_agent_run (e : event) : bool := negb (is_agent_run e).

Definition not_search (e : event) : bool := negb (is_search e).

(** Number of [agent.run] calls a computation adds to a trace. *)
Definition runs_added {A : Type} (c : M A) (tr : trace) : nat :=
  agent_runs (snd (c tr)) - agent_runs tr.

(** Number of search calls a computation adds to a trace. *)
Definition searches_added {A : Type} (c : M A) (tr : trace) : nat :=
  searches (snd (c tr)) - searches tr.

(** The step of [Star any] spelled out: the continuation is tried at the end
    of the subject first, then one character earlier, and so on. *)
Fixpoint longest_first {R : Type} (k : @Re.cont R) (prev : option ascii)
         (s : string) (cap : option string) : option R :=
  match s with
  | EmptyString => k prev s cap
  | String c s' =>
      match longest_first k (Some c) s' cap with
      | Some x => Some x
      | None => k prev s cap
      end
  end.

(** [occurs c s]: the character [c] occurs in [s]. *)
Fixpoint occurs (c : ascii) (s : string) : bool :=
  match s with
  | EmptyString => false
  | String d s' => Ascii.eqb c d || occurs c s'
  end.

(** What follows the last occurrence of [c] in [s]. *)
Fixpoint after_last (c : ascii) (s : string) : option string :=
  match s with
  | EmptyString => None
  | String d s' =>
      match after_last c s' with
      | Some r => Some r
      | None => if Ascii.eqb c d then Some s' else None
      end
  end.

(** The closing character of an opening brace or bracket. *)
Definition closer_of (o : ascii) : option ascii :=
  if Ascii.eqb o "{"%char then Some "}"%char
  else if Ascii.eqb o "["%char then Some "]"%char
  else None.

(** The candidate of [parse_json_safe], computed directly: from the first
    opening brace or bracket that has its closing character somewhere after
    it, through the last occurrence of that closing character. *)
Fixpoint greedy_span (s : string) : option string :=
  match s with
  | EmptyString => None
  | String o s' =>
      match closer_of o with
      | Some c =>
          match after_last c s' with
          | Some r => Some (PyStr.take (String.length s - String.length r) s)
          | None => greedy_span s'
          end
      | None => greedy_span s'
      end
  end.

(** No opening character of [pre] has its closing character after it in
    [pre ++ tail]. *)
Definition no_span_start (pre tail : string) : Prop :=
  forall p1 o p2 c,
    pre = (p1 ++ String o p2)%string -> closer_of o = Some c ->
    occurs c (p2 ++ tail) = false.

(** Step (b) of the parser as the specification words it: the first
    substring that is a complete literal with balanced braces and brackets.
    [balanced_rest s depth] is what follows the point where the nesting depth
    returns to zero. *)
Fixpoint balanced_rest (s : string) (depth : nat) : option string :=
  match s with
  | EmptyString => None
  | String c s' =>
      if Ascii.eqb c "{"%char || Ascii.eqb c "["%char
      then balanced_rest s' (S depth)
      else if Ascii.eqb c "}"%char || Ascii.eqb c "]"%char then
        match depth with
        | O => None
        | S O => Some s'
        | S d => balanced_rest s' d
        end
      else balanced_rest s' depth
  end.

Fixpoint first_balanced_literal (s : string) : option string :=
  match s with
  | EmptyString => None
  | String c s' =>
      if Ascii.eqb c "{"%char || Ascii.eqb c "["%char then
        match balanced_rest s 0 with
        | Some r => Some (PyStr.take (String.length s - String.length r) s)
        | None => first_balanced_literal s'
        end
      else first_balanced_literal s'
  end.

(** The parser as the specification words it. *)
Definition parse_json_safe_as_specified (text : string) (default : Json.json)
  : Json.json :=
  match Json.loads text with
  | Some v => v
  | None =>
      match first_balanced_literal text with
      | Some candidate =>
          match Json.loads candidate with
          | Some v => v
          | None => default
          end
      | None => default
      end
  end.

(** The match object of a span of [s] that ends before [r], closed by [c]. *)
Definition span_match (s r : string) (c : ascii) : Re.rmatch :=
  {| Re.m_text := PyStr.take (String.length s - String.length r) s;
     Re.m_group1 := Some (PyStr.take (String.length s - String.length r) s);
     Re.m_rest := r;
     Re.m_last := Some c |}.

(** The website domain of a company record. *)
Definition domain_of (c : Company.t) : string := _domain (Company.website c).

(** [matches_exclusion d ex]: the domain [d] ends, case aside, with an
    entry of the exclusion list [ex]. *)
Definition matches_exclusion (d : string) (ex : list string) : bool :=
  existsb (fun x => PyStr.endswith (PyStr.lower d) (PyStr.lower x)) ex.

(** What the loops of [normalize_companies] and [discover_companies_via_exa]
    maintain: the kept domains are pairwise distinct, all recorded in [seen],
    and none is excluded. *)
Definition kept_ok (ex : list string) (kept : list Company.t)
           (seen : list string) : Prop :=
  NoDup (map domain_of kept)
  /\ (forall c, In c kept -> In (domain_of c) seen)
  /\ Forall (fun c => _excluded (domain_of c) ex = false) kept.

(** The events of the retry loop: agent calls and its own log lines. *)
Definition is_attempt_event (e : event) : bool :=
  match e with
  | EvAgentRun _ => true
  | EvLog m => PyStr.startswith m "[OPENAI] "
  | _ => false
  end.

(** The log lines that announce a fallback: a run whose trace holds one took
    the fallback path of that stage. *)
Definition CONTACT_FALLBACK_LOG : event :=
  EvLog "[EXA] Fallback: find contacts via Exa".

Definition RESEARCH_FALLBACK_LOG : event :=
  EvLog "[EXA] Fallback: collect research via Exa".

(** [always_yields agent parse p]: every call of the agent succeeds with a
    response from which the stage reads the payload [p]. *)
Definition always_yields {P : Type} (agent : Agent)
           (parse : Response -> result P) (p : P) : Prop :=
  forall n prompt, exists res, agent n prompt = Ok res /\ parse res = Ok p.

Definition any_event (e : event) : bool := true.

(** The contacts recorded for a company in a contacts payload: the last
    entry under its name, or none. *)
Definition recorded_contacts (contacts : ContactsPayload.t) (comp : Company.t)
  : list Contact.t :=
  match pydict_get (Company.name comp)
          (pydict_of ContactsPerCompany.company ContactsPerCompany.contacts
             (ContactsPayload.companies contacts)) with
  | Some l => l
  | None => []
  end.

(** The (company, contact) pairs of the emails to write: one per recorded
    contact, or one with [placeholder] for a company without contacts. *)
Definition email_pairs (placeholder : string) (contacts : ContactsPayload.t)
           (companies : list Company.t) : list (string * string) :=
  flat_map (fun comp =>
              match recorded_contacts contacts comp with
              | [] => [(Company.name comp, placeholder)]
              | cts => map (fun ct => (Company.name comp, Contact.name ct)) cts
              end)
           companies.

Definition pair_of_email (e : EmailItem.t) : string * string :=
  (EmailItem.company e, EmailItem.contact e).

Definition TEMPLATE_FALLBACK_LOG : event :=
  EvLog "[TEMPLATE] Fallback: generate simple template emails".

(** The prompts of the agent calls of a trace, in order. *)
Fixpoint prompts_of (tr : trace) : list string :=
  match tr with
  | [] => []
  | EvAgentRun p :: tr' => p :: prompts_of tr'
  | _ :: tr' => prompts_of tr'
  end.

(** An event that is no agent call, or an agent call with [prompt]. *)
Definition run_with (prompt : string) (e : event) : bool :=
  match e with
  | EvAgentRun p => String.eqb p prompt
  | _ => true
  end.

(** The key under which [clean_research] recognises an insight it has
    already kept: the insight stripped and in lower case. *)
Definition insight_key (p : string) : string := PyStr.lower (PyStr.strip p).

(** What [clean_research] keeps of the insights of one company. *)
Definition cleaned_insights (insights : list string) : list string :=
  firstn 4
    (unique_loop
       (filter (fun p => negb (Re.found _BAD_SNIPPET_RE p)
                         && Re.found _FASHION_WORDS p) insights) [] []).

(** The trace after [j] successive calls of [fn], from [tr] on. *)
Fixpoint after_calls {A : Type} (fn : M A) (j : nat) (tr : trace) : trace :=
  match j with
  | O => tr
  | S j' => after_calls fn j' (snd (fn tr))
  end.

(** [retrieved_by exa tr text]: one of the searches recorded in [tr], the
    [n]-th, asked for three results with their contents, and the client
    answered it with an item whose text is [text]. *)
Definition retrieved_by (exa : ExaClient) (tr : trace) (text : string) : Prop :=
  exists n q items r,
    nth_error (filter is_search tr) n = Some (EvSearchAndContents q 3)
    /\ search_and_contents exa n q 3 = Ok items
    /\ In r items
    /\ item_field r FText = Ok text.

(** [sentence_of text s0]: [s0] is one of the pieces into which [text] falls
    at its sentence ends, and it stands in [text]. *)
Definition sentence_of (text s0 : string) : Prop :=
  In s0 (Re.split SENTENCE_END_RE text)
  /\ exists pre post, text = (pre ++ s0 ++ post)%string.

(** [fallback_insight exa tr s]: [s] is the stripped form of a sentence of 40
    to 200 characters of a text retrieved in [tr]. *)
Definition fallback_insight (exa : ExaClient) (tr : trace) (s : string)
  : Prop :=
  exists text s0,
    retrieved_by exa tr text
    /\ sentence_of text s0
    /\ 40 <= PyStr.len s0 /\ PyStr.len s0 <= 200
    /\ s = PyStr.strip s0.

(** [written_domain url d]: [d] is the domain as the website text [url]
    writes it: what stands between [http://] or [https://] at its head and
    the next slash, or the whole text when it holds no [http]. *)
Definition written_domain (url d : string) : Prop :=
  (exists scheme rest,
      In scheme ["http://"; "https://"]
      /\ d <> EmptyString
      /\ occurs "/" d = false
      /\ (rest = EmptyString \/ exists r, rest = String "/" r)
      /\ url = (scheme ++ d ++ rest)%string)
  \/ (PyStr.contains "http" url = false /\ d = url).

(** The website domain as the specification means it: the host name of the
    site, without the scheme and without the path. *)
Definition website_domain_as_specified (url : string) : string :=
  let s := if PyStr.startswith url "https://" then PyStr.drop 8 url
           else if PyStr.startswith url "http://" then PyStr.drop 7 url
           else url in
  hd EmptyString (PyStr.split "/" s).

(* ================================================================== *)
(** * Properties *)
(* ================================================================== *)

(** ** Lists and strings *)

Lemma mem_true_iff (x : string) (l : list string) :
  PyStr.mem x l = true <-> In x l.
Proof.
  unfold PyStr.mem. rewrite existsb_exists. split.
  - intros [y [Hin Heq]]. apply String.eqb_eq in Heq. now subst.
  - intros Hin. exists x. split; [assumption | apply String.eqb_refl].
Qed.

Lemma mem_false_iff (x : string) (l : list string) :
  PyStr.mem x l = false <-> ~ In x l.
Proof.
  rewrite <- mem_true_iff. destruct (PyStr.mem x l); split; intros H;
    try reflexivity; try discriminate; try (intros H'; discriminate).
  exfalso. now apply H.
Qed.

Lemma append_nil_r (s : string) : (s ++ EmptyString)%string = s.
Proof. induction s as [|c s IH]; simpl; [reflexivity | now rewrite IH]. Qed.

Lemma append_assoc (a b c : string) :
  ((a ++ b) ++ c)%string = (a ++ (b ++ c))%string.
Proof. induction a as [|x a IH]; simpl; [reflexivity | now rewrite IH]. Qed.

Lemma length_append (a b : string) :
  String.length (a ++ b) = String.length a + String.length b.
Proof. induction a as [|x a IH]; simpl; [reflexivity | now rewrite IH]. Qed.

Lemma startswith_empty (s : string) : PyStr.startswith s EmptyString = true.
Proof. destruct s; reflexivity. Qed.

Lemma startswith_append (p s : string) : PyStr.startswith (p ++ s) p = true.
Proof.
  induction p as [|c p IH]; simpl; [apply startswith_empty |].
  now rewrite Ascii.eqb_refl, IH.
Qed.

Lemma contains_startswith (p s : string) :
  PyStr.startswith s p = true -> PyStr.contains p s = true.
Proof. intros H. destruct s; cbn [PyStr.contains]; rewrite H; reflexivity. Qed.

Lemma contains_here (p s : string) : PyStr.contains p (p ++ s) = true.
Proof. apply contains_startswith, startswith_append. Qed.

Lemma contains_skip (p a s : string) :
  PyStr.contains p s = true -> PyStr.contains p (a ++ s) = true.
Proof.
  intros H. induction a as [|c a IH]; simpl; [assumption |].
  rewrite IH. apply orb_true_r.
Qed.

Lemma startswith_lower (s p : string) :
  PyStr.startswith s p = true ->
  PyStr.startswith (PyStr.lower s) (PyStr.lower p) = true.
Proof.
  revert s. induction p as [|a p IH]; intros s H; simpl;
    [apply startswith_empty |].
  destruct s as [|b s]; simpl in *; [discriminate |].
  apply andb_true_iff in H. destruct H as [Hab Hrest].
  apply Ascii.eqb_eq in Hab. subst b.
  now rewrite Ascii.eqb_refl, IH.
Qed.

Lemma contains_lower (p s : string) :
  PyStr.contains p s = true ->
  PyStr.contains (PyStr.lower p) (PyStr.lower s) = true.
Proof.
  induction s as [|c s IH]; simpl; intros H.
  - apply orb_true_iff in H. destruct H as [H | H]; [| discriminate].
    destruct p; [reflexivity | discriminate].
  - apply orb_true_iff in H. destruct H as [H | H].
    + apply (startswith_lower (String c s)) in H. simpl in H.
      rewrite H. reflexivity.
    + rewrite (IH H). apply orb_true_r.
Qed.

Lemma len_app (a b : string) :
  PyStr.len (a ++ b) = PyStr.len a + PyStr.len b.
Proof.
  induction a as [|c a IH]; cbn [append PyStr.len]; [reflexivity |].
  destruct (PyStr.is_cont c); rewrite IH; reflexivity.
Qed.

Lemma drop_blanks_suffix : forall s skip,
  exists pre, s = pre ++ PyStr.drop_blanks skip s.
Proof.
  induction s as [|c s IH]; intros skip; cbn [PyStr.drop_blanks].
  - now exists EmptyString.
  - destruct skip as [|k].
    + destruct (PyStr.blank_width (String c s)) as [|k].
      * now exists EmptyString.
      * destruct (IH k) as [pre E]. exists (String c pre).
        cbn [append]. now rewrite <- E.
    + destruct (IH k) as [pre E]. exists (String c pre).
      cbn [append]. now rewrite <- E.
Qed.

Lemma rstrip_prefix : forall s, exists post, s = PyStr.rstrip s ++ post.
Proof.
  induction s as [|c s IH]; cbn [PyStr.rstrip].
  - now exists EmptyString.
  - destruct (PyStr.all_blank (String c s)).
    + now exists (String c s).
    + destruct IH as [post E]. exists post. cbn [append]. now rewrite <- E.
Qed.

(** Stripping removes whole code points at both ends. *)
Lemma strip_inside (s : string) :
  exists pre post, s = pre ++ PyStr.strip s ++ post.
Proof.
  unfold PyStr.strip, PyStr.lstrip.
  destruct (drop_blanks_suffix s 0) as [pre E].
  destruct (rstrip_prefix (PyStr.drop_blanks 0 s)) as [post E'].
  exists pre, post. now rewrite <- E', <- E.
Qed.

Lemma strip_len (s : string) : PyStr.len (PyStr.strip s) <= PyStr.len s.
Proof.
  destruct (strip_inside s) as [pre [post E]].
  rewrite E at 2. rewrite !len_app. lia.
Qed.

(** ** Traces *)

Lemma agent_runs_app (a b : trace) :
  agent_runs (a ++ b)%list = agent_runs a + agent_runs b.
Proof. unfold agent_runs. now rewrite filter_app, length_app. Qed.

Lemma searches_app (a b : trace) :
  searches (a ++ b)%list = searches a + searches b.
Proof. unfold searches. now rewrite filter_app, length_app. Qed.

Lemma emits_ret {A : Type} (P : event -> bool) (a : A) : emits P (ret a).
Proof. intros tr. exists []. simpl. now rewrite app_nil_r. Qed.

Lemma emits_throw {A : Type} (P : event -> bool) (e : exn) :
  emits P (@throw A e).
Proof. intros tr. exists []. simpl. now rewrite app_nil_r. Qed.

Lemma emits_lift {A : Type} (P : event -> bool) (r : result A) :
  emits P (lift r).
Proof. intros tr. exists []. simpl. now rewrite app_nil_r. Qed.

Lemma emits_emit (P : event -> bool) (e : event) :
  P e = true -> emits P (emit e).
Proof. intros H tr. exists [e]. simpl. now rewrite H. Qed.

Lemma emits_bind {A B : Type} (P : event -> bool) (c : M A) (k : A -> M B) :
  emits P c -> (forall a, emits P (k a)) -> emits P (bind c k).
Proof.
  intros Hc Hk tr. unfold bind. destruct (Hc tr) as [e1 [E1 F1]].
  destruct (c tr) as [[a | e] tr1]; simpl in E1; subst tr1.
  - destruct (Hk a (tr ++ e1)%list) as [e2 [E2 F2]].
    exists (e1 ++ e2)%list. rewrite E2, app_assoc. split; [reflexivity |].
    rewrite forallb_app, F1, F2. reflexivity.
  - exists e1. now split.
Qed.

Lemma emits_try {A : Type} (P : event -> bool) (c h : M A) :
  emits P c -> emits P h -> emits P (try_except c h).
Proof.
  intros Hc Hh tr. unfold try_except. destruct (Hc tr) as [e1 [E1 F1]].
  destruct (c tr) as [[a | e] tr1]; simpl in E1; subst tr1.
  - exists e1. now split.
  - destruct (Hh (tr ++ e1)%list) as [e2 [E2 F2]].
    exists (e1 ++ e2)%list. rewrite E2, app_assoc. split; [reflexivity |].
    rewrite forallb_app, F1, F2. reflexivity.
Qed.

Lemma emits_agent_run (P : event -> bool) (agent : Agent) (prompt : string) :
  P (EvAgentRun prompt) = true -> emits P (agent_run agent prompt).
Proof. intros H tr. exists [EvAgentRun prompt]. simpl. now rewrite H. Qed.

Lemma emits_search_and_contents (P : event -> bool) (exa : ExaClient)
      (q : string) (n : Z) :
  P (EvSearchAndContents q n) = true -> emits P (exa_search_and_contents exa q n).
Proof. intros H tr. exists [EvSearchAndContents q n]. simpl. now rewrite H. Qed.

Lemma emits_search (P : event -> bool) (exa : ExaClient) (q : string) (n : Z) :
  P (EvSearch q n) = true -> emits P (exa_search exa q n).
Proof. intros H tr. exists [EvSearch q n]. simpl. now rewrite H. Qed.

Lemma emits_weaken {A : Type} (P Q : event -> bool) (c : M A) :
  (forall e, P e = true -> Q e = true) -> emits P c -> emits Q c.
Proof.
  intros HPQ Hc tr. destruct (Hc tr) as [evs [E F]]. exists evs.
  split; [assumption |]. rewrite forallb_forall in *. auto.
Qed.

Lemma filter_none {A : Type} (f : A -> bool) (l : list A) :
  forallb (fun x => negb (f x)) l = true -> filter f l = [].
Proof.
  induction l as [|x l IH]; simpl; [reflexivity |].
  intros H. apply andb_true_iff in H. destruct H as [H1 H2].
  destruct (f x); [discriminate | auto].
Qed.

Lemma emits_agent_runs {A : Type} (c : M A) (tr : trace) :
  emits not_agent_run c -> agent_runs (snd (c tr)) = agent_runs tr.
Proof.
  intros H. destruct (H tr) as [evs [E F]]. rewrite E, agent_runs_app.
  unfold agent_runs at 2. rewrite (filter_none _ _ F). simpl. lia.
Qed.

Lemma emits_searches {A : Type} (c : M A) (tr : trace) :
  emits not_search c -> searches (snd (c tr)) = searches tr.
Proof.
  intros H. destruct (H tr) as [evs [E F]]. rewrite E, searches_app.
  unfold searches at 2. rewrite (filter_none _ _ F). simpl. lia.
Qed.

Lemma bind_agent_runs {A B : Type} (c : M A) (k : A -> M B) (tr : trace) :
  (forall a, emits not_agent_run (k a)) ->
  agent_runs (snd (bind c k tr)) = agent_runs (snd (c tr)).
Proof.
  intros Hk. unfold bind. destruct (c tr) as [[a | e] tr1]; simpl.
  - now apply emits_agent_runs.
  - reflexivity.
Qed.

Lemma bind_searches {A B : Type} (c : M A) (k : A -> M B) (tr : trace) :
  (forall a, emits not_search (k a)) ->
  searches (snd (bind c k tr)) = searches (snd (c tr)).
Proof.
  intros Hk. unfold bind. destruct (c tr) as [[a | e] tr1]; simpl.
  - now apply emits_searches.
  - reflexivity.
Qed.

(** ** The fallback strategies only log and search *)

Section FallbackEvents.
Variable P : event -> bool.
Hypothesis P_log : forall m, P (EvLog m) = true.
Hypothesis P_search : forall q n, P (EvSearch q n) = true.
Hypothesis P_contents : forall q n, P (EvSearchAndContents q n) = true.

Lemma emits_log : forall m, emits P (log_info m).
Proof. intros m. apply emits_emit, P_log. Qed.

Lemma emits_debug_log : forall (debug : bool) m,
  emits P (if debug then log_info m else ret tt).
Proof. intros [] m; [apply emits_log | apply emits_ret]. Qed.

Lemma discover_emits : forall exa td od limit ex debug,
  emits P (discover_companies_via_exa exa td od limit ex debug).
Proof.
  intros exa td od limit ex debug. unfold discover_companies_via_exa.
  destruct exa as [exa |]; [| apply emits_ret].
  apply emits_bind; [apply emits_debug_log | intros _].
  apply emits_bind.
  - apply emits_try.
    + apply emits_bind; [apply emits_search_and_contents, P_contents |].
      intros a. apply emits_ret.
    + apply emits_try; [| apply emits_ret].
      apply emits_bind; [apply emits_search, P_search |].
      intros a. apply emits_ret.
  - intros [items |]; [| apply emits_ret].
    apply emits_bind; [apply emits_lift | intros a; apply emits_ret].
Qed.

Lemma contact_roles_emits : forall exa roles brand domain debug contacts,
  emits P (contact_roles exa roles brand domain debug contacts).
Proof.
  intros exa roles brand domain debug.
  induction roles as [|role roles IH]; intros contacts; cbn [contact_roles].
  - apply emits_ret.
  - apply emits_bind; [apply emits_debug_log | intros _].
    apply emits_bind.
    + apply emits_try; [| apply emits_ret].
      apply emits_bind; [apply emits_search, P_search |].
      intros a. apply emits_ret.
    + intros [items |]; [| apply IH].
      destruct (contact_items items role domain contacts) as [cts raised].
      destruct raised; [apply IH |].
      destruct (2 <=? length cts); [apply emits_ret | apply IH].
Qed.

Lemma contact_companies_emits : forall exa cs debug out,
  emits P (contact_companies exa cs debug out).
Proof.
  intros exa cs debug. induction cs as [|c cs IH]; intros out;
    cbn [contact_companies].
  - apply emits_ret.
  - apply emits_bind; [apply contact_roles_emits | intros a; apply IH].
Qed.

Lemma find_contacts_emits : forall exa companies debug,
  emits P (find_contacts_via_exa exa companies debug).
Proof.
  intros [exa |] companies debug; unfold find_contacts_via_exa;
    [| apply emits_ret].
  apply emits_bind; [apply contact_companies_emits |].
  intros a. apply emits_ret.
Qed.

Lemma research_queries_emits : forall exa queries brand debug insights,
  emits P (research_queries exa queries brand debug insights).
Proof.
  intros exa queries brand debug.
  induction queries as [|q queries IH]; intros insights;
    cbn [research_queries].
  - apply emits_ret.
  - apply emits_bind; [apply emits_debug_log | intros _].
    apply emits_bind.
    + apply emits_try; [| apply emits_ret].
      apply emits_bind; [apply emits_search_and_contents, P_contents |].
      intros a. apply emits_ret.
    + intros [items |]; apply IH.
Qed.

Lemma research_companies_emits : forall exa cs debug out,
  emits P (research_companies exa cs debug out).
Proof.
  intros exa cs debug. induction cs as [|c cs IH]; intros out;
    cbn [research_companies].
  - apply emits_ret.
  - apply emits_bind; [apply research_queries_emits | intros a; apply IH].
Qed.

Lemma collect_research_emits : forall exa companies debug,
  emits P (collect_research_via_exa exa companies debug).
Proof.
  intros [exa |] companies debug; unfold collect_research_via_exa;
    [| apply emits_ret].
  apply emits_bind; [apply research_companies_emits |].
  intros a. apply emits_ret.
Qed.

End FallbackEvents.

(** ** The retry loop *)

Section RetryLoop.
Context {P : Type}.
Variables (label : string) (agent : Agent) (prompt : string).
Variables (parse : Response -> result P) (nonempty : P -> bool).
Variable retries : Z.

(** One more unit of fuel changes nothing once the fuel covers the
    iterations the guard allows. *)
Lemma attempts_fuel_enough : forall fuel attempt payload tr,
  (Z.to_nat (Z.max 1 retries + 1 - attempt) <= fuel)%nat ->
  attempts fuel label agent prompt parse nonempty retries attempt payload tr
  = attempts (S fuel) label agent prompt parse nonempty retries attempt
      payload tr.
Proof.
  induction fuel as [|fuel IH]; intros attempt payload tr Hfuel.
  - cbn [attempts].
    destruct (attempt <=? Z.max 1 retries)%Z eqn:G; [| reflexivity].
    apply Z.leb_le in G. lia.
  - cbn [attempts].
    destruct (attempt <=? Z.max 1 retries)%Z eqn:G; [| reflexivity].
    apply Z.leb_le in G.
    unfold bind, log_info, emit, agent_run, lift, ret.
    destruct (agent _ prompt) as [res | e]; [| reflexivity].
    destruct (parse res) as [p | e]; [| reflexivity].
    destruct (nonempty p); [reflexivity |].
    apply IH. lia.
Qed.

(** The guard bounds the number of agent calls, whatever the fuel. *)
Lemma attempts_runs_bound : forall fuel attempt payload tr,
  agent_runs
    (snd (attempts fuel label agent prompt parse nonempty retries attempt
            payload tr))
  <= agent_runs tr + Z.to_nat (Z.max 1 retries + 1 - attempt).
Proof.
  induction fuel as [|fuel IH]; intros attempt payload tr; cbn [attempts];
    destruct (attempt <=? Z.max 1 retries)%Z eqn:G;
    try (unfold ret; simpl; lia).
  apply Z.leb_le in G.
  unfold bind, log_info, emit, agent_run, lift, ret.
  assert (Hone : agent_runs ((tr ++ [EvLog ("[OPENAI] " ++ label
                   ++ ": prompt sent (attempt " ++ PyStr.of_Z (attempt + 1)
                   ++ ")")]) ++ [EvAgentRun prompt])%list = S (agent_runs tr)).
  { rewrite !agent_runs_app. unfold agent_runs at 2 3. simpl. lia. }
  destruct (agent _ prompt) as [res | e]; [| cbn [snd]; rewrite Hone; lia].
  destruct (parse res) as [p | e]; [| cbn [snd]; rewrite Hone; lia].
  destruct (nonempty p); [cbn [snd]; rewrite Hone; lia |].
  specialize (IH (attempt + 1)%Z p
    ((tr ++ [EvLog ("[OPENAI] " ++ label ++ ": prompt sent (attempt "
                    ++ PyStr.of_Z (attempt + 1) ++ ")")])
        ++ [EvAgentRun prompt])%list).
  rewrite Hone in IH. lia.
Qed.

(** The loop never contacts the search client. *)
Lemma attempts_no_search : forall fuel attempt payload,
  emits not_search
    (attempts fuel label agent prompt parse nonempty retries attempt payload).
Proof.
  induction fuel as [|fuel IH]; intros attempt payload; cbn [attempts];
    destruct (attempt <=? Z.max 1 retries)%Z; try apply emits_ret.
  apply emits_bind; [apply emits_emit; reflexivity | intros _].
  apply emits_bind; [apply emits_agent_run; reflexivity | intros res].
  apply emits_bind; [apply emits_lift | intros p].
  destruct (nonempty p); [apply emits_ret | apply IH].
Qed.

End RetryLoop.

Lemma loop_fuel_bound (retries : Z) :
  Z.of_nat (Z.to_nat (Z.max 1 retries + 1 - 0)) = (Z.max 1 retries + 1)%Z.
Proof. lia. Qed.

(** ** Agent calls of the four stages *)

Lemma not_agent_run_log : forall m, not_agent_run (EvLog m) = true.
Proof. reflexivity. Qed.

Lemma not_agent_run_search : forall q n, not_agent_run (EvSearch q n) = true.
Proof. reflexivity. Qed.

Lemma not_agent_run_contents :
  forall q n, not_agent_run (EvSearchAndContents q n) = true.
Proof. reflexivity. Qed.

Lemma company_finder_runs exa agent td od n retries fb tr :
  agent_runs (snd (run_company_finder exa agent td od n retries fb tr))
  <= agent_runs tr + Z.to_nat (Z.max 1 retries + 1).
Proof.
  unfold run_company_finder. rewrite bind_agent_runs.
  - etransitivity; [apply attempts_runs_bound |].
    rewrite Z.sub_0_r. lia.
  - intros p. apply emits_bind; [| intros a; apply emits_ret].
    destruct (negb (has_companies p) && fb); [| apply emits_ret].
    apply emits_bind; [apply emits_emit; reflexivity | intros _].
    apply discover_emits; reflexivity.
Qed.

Lemma contact_finder_runs exa agent companies td od retries fb tr :
  agent_runs (snd (run_contact_finder exa agent companies td od retries fb tr))
  <= agent_runs tr + Z.to_nat (Z.max 1 retries + 1).
Proof.
  unfold run_contact_finder. rewrite bind_agent_runs.
  - etransitivity; [apply attempts_runs_bound |].
    rewrite Z.sub_0_r. lia.
  - intros p. destruct (negb (has_contacts p) && fb); [| apply emits_ret].
    apply emits_bind; [apply emits_emit; reflexivity | intros _].
    apply find_contacts_emits; reflexivity.
Qed.

Lemma research_runs exa agent companies retries fb tr :
  agent_runs (snd (run_research exa agent companies retries fb tr))
  <= agent_runs tr + Z.to_nat (Z.max 1 retries + 1).
Proof.
  unfold run_research. rewrite bind_agent_runs.
  - etransitivity; [apply attempts_runs_bound |].
    rewrite Z.sub_0_r. lia.
  - intros p. apply emits_bind; [| intros a; apply emits_ret].
    destruct (negb (has_research p) && fb); [| apply emits_ret].
    apply emits_bind; [apply emits_emit; reflexivity | intros _].
    apply collect_research_emits; reflexivity.
Qed.

Lemma email_writer_runs py_str agent companies contacts research sender style
      retries fb tr :
  agent_runs
    (snd (run_email_writer py_str agent companies contacts research sender
            style retries fb tr))
  <= agent_runs tr + Z.to_nat (Z.max 1 retries + 1).
Proof.
  unfold run_email_writer. rewrite bind_agent_runs.
  - etransitivity; [apply attempts_runs_bound |].
    rewrite Z.sub_0_r. lia.
  - intros p. destruct (negb (has_emails p) && fb); [| apply emits_ret].
    apply emits_bind; [apply emits_emit; reflexivity | intros _].
    apply emits_ret.
Qed.

(** C1 (as the code has it): in each of the four stages the number of agent
    invocations is at most [max(1, retries) + 1], whatever the agent answers:
    this is [retries + 1] for every [retries >= 1], and 2 for [retries <= 0],
    because the loop guard is [attempt <= max(1, retries)]. *)
Theorem stage_invocations_bounded :
  forall (exa : option ExaClient) (py_str : Json.json -> string)
         (agent : Agent) (companies : CompaniesPayload.t)
         (contacts : ContactsPayload.t) (research : ResearchPayload.t)
         (sender : list (string * string)) (style td od : string)
         (n retries : Z) (fb : bool) (tr : trace),
    (Z.of_nat (runs_added (run_company_finder exa agent td od n retries fb) tr)
     <= Z.max 1 retries + 1)%Z
    /\ (Z.of_nat
          (runs_added (run_contact_finder exa agent companies td od retries fb) tr)
        <= Z.max 1 retries + 1)%Z
    /\ (Z.of_nat (runs_added (run_research exa agent companies retries fb) tr)
        <= Z.max 1 retries + 1)%Z
    /\ (Z.of_nat
          (runs_added
             (run_email_writer py_str agent companies contacts research sender
                style retries fb) tr)
        <= Z.max 1 retries + 1)%Z.
Proof.
  intros. unfold runs_added.
  pose proof (company_finder_runs exa agent td od n retries fb tr).
  pose proof (contact_finder_runs exa agent companies td od retries fb tr).
  pose proof (research_runs exa agent companies retries fb tr).
  pose proof (email_writer_runs py_str agent companies contacts research
                sender style retries fb tr).
  repeat split; lia.
Qed.

(** C1 as stated fails: with [retries = 0] and an agent that never gives a
    usable answer, company discovery calls the agent twice, not at most
    [0 + 1] times. *)
Lemma stage_invocations_exceed_retries_plus_one :
  ~ (forall (agent : Agent) (retries : Z),
        (Z.of_nat
           (runs_added
              (run_company_finder None agent "target" "offer" 5 retries true) [])
         <= retries + 1)%Z).
Proof.
  intros H. specialize (H (Samples.const_agent EmptyString) 0%Z).
  assert (E : runs_added
                (run_company_finder None (Samples.const_agent EmptyString)
                   "target" "offer" 5 0 true) [] = 2)
    by (vm_compute; reflexivity).
  rewrite E in H. lia.
Qed.

(** ** The pattern of the parser *)

Lemma star_loop_any {R : Type} (k : @Re.cont R) :
  forall n prev s cap,
    String.length s < n ->
    Re.star_loop (Re.exec Re.any) k n prev s cap = longest_first k prev s cap.
Proof.
  induction n as [|n IH]; intros prev s cap Hn; [lia |].
  destruct s as [|c s]; cbn [Re.star_loop longest_first].
  - reflexivity.
  - cbn [Re.exec Re.any String.length].
    replace (String.length s <? S (String.length s)) with true
      by (symmetry; apply Nat.ltb_lt; lia).
    rewrite IH by (simpl in Hn; lia). reflexivity.
Qed.

Lemma after_last_none (c : ascii) (s : string) :
  after_last c s = None <-> occurs c s = false.
Proof.
  induction s as [|d s IH]; simpl; [tauto |].
  destruct (after_last c s) as [r |].
  - split; [discriminate |]. intros H. apply orb_false_iff in H.
    destruct H as [_ H]. apply IH in H. discriminate.
  - destruct (Ascii.eqb c d); simpl.
    + split; discriminate.
    + split; [intros _; now apply IH | reflexivity].
Qed.

Lemma after_last_some (c : ascii) (s r : string) :
  after_last c s = Some r ->
  exists mid, s = (mid ++ String c r)%string /\ occurs c r = false.
Proof.
  revert r. induction s as [|d s IH]; simpl; intros r H; [discriminate |].
  destruct (after_last c s) as [r' |] eqn:E.
  - inversion H; subst r'. destruct (IH r eq_refl) as [mid [Hs Hr]].
    exists (String d mid). simpl. now rewrite Hs.
  - destruct (Ascii.eqb c d) eqn:Ecd; [| discriminate].
    inversion H; subst r. apply Ascii.eqb_eq in Ecd. subst d.
    exists EmptyString. split; [reflexivity | now apply after_last_none].
Qed.

(** After [Star any], a continuation that wants the character [c] and then
    cannot fail is run after the last [c]. *)
Lemma longest_first_closer {R : Type} (c : ascii)
      (K : option ascii -> string -> option string -> R) :
  forall s prev cap,
    longest_first
      (fun prev' s' cap' => Re.exec (Re.chr c) prev' s' cap'
                              (fun p x y => Some (K p x y)))
      prev s cap
    = match after_last c s with
      | Some r => Some (K (Some c) r cap)
      | None => None
      end.
Proof.
  induction s as [|d s IH]; intros prev cap; cbn [longest_first after_last].
  - reflexivity.
  - rewrite IH. destruct (after_last c s) as [r |]; [reflexivity |].
    cbn [Re.exec Re.chr]. destruct (Ascii.eqb c d) eqn:E; [| reflexivity].
    apply Ascii.eqb_eq in E. now subst d.
Qed.

Lemma bracketed_here (o c : ascii) (prev : option ascii) (s : string)
      (K : option ascii -> string -> option string -> Re.rmatch) :
  Re.exec (Re.Seq (Re.chr o) (Re.Seq (Re.Star Re.any) (Re.chr c))) prev s None
    (fun p x y => Some (K p x y))
  = match s with
    | String d s' =>
        if Ascii.eqb o d then
          match after_last c s' with
          | Some r => Some (K (Some c) r None)
          | None => None
          end
        else None
    | EmptyString => None
    end.
Proof.
  destruct s as [|d s']; [reflexivity |].
  cbn [Re.exec Re.chr]. destruct (Ascii.eqb o d); [| reflexivity].
  rewrite star_loop_any by lia.
  apply (longest_first_closer c K).
Qed.

Lemma match_here_json (prev : option ascii) (s : string) :
  Re.match_here JSON_LITERAL_RE prev s
  = match s with
    | EmptyString => None
    | String o s' =>
        match closer_of o with
        | Some c =>
            match after_last c s' with
            | Some r => Some (span_match s r c)
            | None => None
            end
        | None => None
        end
    end.
Proof.
  unfold Re.match_here, JSON_LITERAL_RE.
  set (K := fun (p : option ascii) (x : string) (_ : option string) =>
              {| Re.m_text := PyStr.take (String.length s - String.length x) s;
                 Re.m_group1 :=
                   Some (PyStr.take (String.length s - String.length x) s);
                 Re.m_rest := x; Re.m_last := p |}).
  change (match Re.exec (Re.Seq (Re.chr "{")
                           (Re.Seq (Re.Star Re.any) (Re.chr "}")))
                  prev s None (fun p x y => Some (K p x y)) with
          | Some x => Some x
          | None => Re.exec (Re.Seq (Re.chr "[")
                               (Re.Seq (Re.Star Re.any) (Re.chr "]")))
                      prev s None (fun p x y => Some (K p x y))
          end = match s with
                | EmptyString => None
                | String o s' =>
                    match closer_of o with
                    | Some c =>
                        match after_last c s' with
                        | Some r => Some (span_match s r c)
                        | None => None
                        end
                    | None => None
                    end
                end).
  rewrite !bracketed_here. subst K.
  destruct s as [|o s']; [reflexivity |].
  unfold closer_of.
  rewrite (Ascii.eqb_sym o "{"), (Ascii.eqb_sym o "[").
  destruct (Ascii.eqb "{" o) eqn:E1.
  - apply Ascii.eqb_eq in E1. subst o.
    destruct (after_last "}" s'); reflexivity.
  - destruct (Ascii.eqb "[" o); [| reflexivity].
    destruct (after_last "]" s'); reflexivity.
Qed.

Lemma search_from_json : forall s prev,
  match Re.search_from JSON_LITERAL_RE prev s with
  | Some m => Re.m_group1 m
  | None => None
  end = greedy_span s.
Proof.
  induction s as [|o s' IH]; intros prev.
  - reflexivity.
  - cbn [Re.search_from greedy_span]. rewrite match_here_json.
    destruct (closer_of o) as [c |]; [| apply IH].
    destruct (after_last c s') as [r |]; [reflexivity | apply IH].
Qed.

Lemma parse_json_safe_eq (text : string) (default : Json.json) :
  parse_json_safe text default
  = match Json.loads text with
    | Some v => v
    | None =>
        match greedy_span text with
        | Some candidate =>
            match Json.loads candidate with
            | Some v => v
            | None => default
            end
        | None => default
        end
    end.
Proof.
  unfold parse_json_safe. destruct text as [|c text]; [reflexivity |].
  cbn [PyStr.truthy negb].
  destruct (Json.loads (String c text)); [reflexivity |].
  rewrite <- search_from_json with (prev := None). unfold Re.search.
  destruct (Re.search_from JSON_LITERAL_RE None (String c text)) as [m |];
    [| reflexivity].
  destruct (Re.m_group1 m); reflexivity.
Qed.

Lemma take_length_app (a b : string) :
  PyStr.take (String.length a) (a ++ b) = a.
Proof. induction a as [|c a IH]; simpl; [now destruct b | now rewrite IH]. Qed.

Lemma no_span_start_nil (tail : string) : no_span_start EmptyString tail.
Proof. intros [|x p1] o p2 c H; discriminate. Qed.

Lemma no_span_start_cons (o : ascii) (pre tail : string) :
  (forall c, closer_of o = Some c -> occurs c (pre ++ tail) = false) ->
  no_span_start pre tail -> no_span_start (String o pre) tail.
Proof.
  intros Ho Hpre [|x p1] o' p2 c H Hc; simpl in H; inversion H; subst.
  - now apply Ho.
  - now apply (Hpre p1 o' p2 c).
Qed.

Lemma greedy_span_some : forall s cand,
  greedy_span s = Some cand ->
  exists pre mid post o c,
    s = (pre ++ cand ++ post)%string
    /\ cand = String o (mid ++ String c EmptyString)
    /\ closer_of o = Some c
    /\ occurs c post = false
    /\ no_span_start pre (cand ++ post).
Proof.
  induction s as [|o s' IH]; intros cand H; [discriminate |].
  cbn [greedy_span] in H.
  destruct (closer_of o) as [c |] eqn:Ec.
  - destruct (after_last c s') as [r |] eqn:Er.
    + destruct (after_last_some c s' r Er) as [mid [Hs Hr]].
      exists EmptyString, mid, r, o, c.
      assert (Hcand : PyStr.take (String.length (String o s') - String.length r)
                        (String o s')
                      = String o (mid ++ String c EmptyString)).
      { subst s'.
        replace (String.length (String o (mid ++ String c r)) - String.length r)
          with (String.length (String o (mid ++ String c EmptyString)))
          by (cbn [String.length]; rewrite !length_append;
              cbn [String.length]; lia).
        replace (String o (mid ++ String c r))
          with (String o (mid ++ String c EmptyString) ++ r)%string
          by (simpl; rewrite append_assoc; reflexivity).
        apply take_length_app. }
      rewrite Hcand in H. injection H as Hc. symmetry in Hc.
      repeat split; try assumption.
      * subst cand s'. simpl. now rewrite append_assoc.
      * apply no_span_start_nil.
    + destruct (IH cand H) as [pre [mid [post [o' [c' [Hs [Hc [Hcl [Hp Hn]]]]]]]]].
      exists (String o pre), mid, post, o', c'.
      repeat split; try assumption.
      * simpl. now rewrite <- Hs.
      * apply no_span_start_cons; [| assumption].
        intros c0 Hc0. rewrite Ec in Hc0. inversion Hc0; subst c0.
        rewrite <- Hs. now apply after_last_none.
  - destruct (IH cand H) as [pre [mid [post [o' [c' [Hs [Hc [Hcl [Hp Hn]]]]]]]]].
    exists (String o pre), mid, post, o', c'.
    repeat split; try assumption.
    + simpl. now rewrite <- Hs.
    + apply no_span_start_cons; [| assumption].
      intros c0 Hc0. rewrite Ec in Hc0. discriminate.
Qed.

Lemma greedy_span_none : forall s,
  greedy_span s = None -> no_span_start s EmptyString.
Proof.
  induction s as [|o s' IH]; intros H; [apply no_span_start_nil |].
  cbn [greedy_span] in H.
  destruct (closer_of o) as [c |] eqn:Ec.
  - destruct (after_last c s') as [r |] eqn:Er; [discriminate |].
    apply no_span_start_cons; [| now apply IH].
    intros c0 Hc0. rewrite Ec in Hc0. inversion Hc0; subst c0.
    rewrite append_nil_r. now apply after_last_none.
  - apply no_span_start_cons; [| now apply IH].
    intros c0 Hc0. rewrite Ec in Hc0. discriminate.
Qed.

(** C2 (as the code has it): [parse_json_safe] is total and returns the strict
    parse of the whole text when there is one; otherwise the parse of the
    candidate that runs from the first opening brace or bracket having its
    closing character after it through the last occurrence of that closing
    character (no balancing), when that candidate parses; otherwise the
    default. *)
Theorem parse_json_safe_cases :
  forall (text : string) (default : Json.json),
    parse_json_safe text default
    = match Json.loads text with
      | Some v => v
      | None =>
          match greedy_span text with
          | Some candidate =>
              match Json.loads candidate with
              | Some v => v
              | None => default
              end
          | None => default
          end
      end
    /\ match greedy_span text with
       | Some candidate =>
           exists pre mid post o c,
             text = (pre ++ candidate ++ post)%string
             /\ candidate = String o (mid ++ String c EmptyString)
             /\ closer_of o = Some c
             /\ occurs c post = false
             /\ no_span_start pre (candidate ++ post)
       | None => no_span_start text EmptyString
       end.
Proof.
  intros text default. split; [apply parse_json_safe_eq |].
  destruct (greedy_span text) as [cand |] eqn:E.
  - now apply greedy_span_some.
  - now apply greedy_span_none.
Qed.

(** C2 as stated fails: on a text holding two objects the first balanced
    literal parses, yet the parser returns the default, because its candidate
    runs through the last closing brace. *)
Lemma parse_json_safe_is_not_balanced :
  ~ (forall (text : string) (default : Json.json),
        parse_json_safe text default
        = parse_json_safe_as_specified text default).
Proof.
  intros H.
  specialize (H (Samples.dq "{'a': 1} and {'b': 2}") Json.JNull).
  vm_compute in H. discriminate H.
Qed.

(** ** Quality check *)

Lemma agent_runs_snoc_run (tr : trace) (p : string) :
  agent_runs (tr ++ [EvAgentRun p])%list = S (agent_runs tr).
Proof. rewrite agent_runs_app. unfold agent_runs at 2. simpl. lia. Qed.

Lemma agent_runs_snoc_log (tr : trace) (m : string) :
  agent_runs (tr ++ [EvLog m])%list = agent_runs tr.
Proof. rewrite agent_runs_app. unfold agent_runs at 2. simpl. lia. Qed.

(** C3 (as the code has it): [run_quality_check] returns the empty list
    without invoking the agent when the email list is empty.  On a non-empty
    list it invokes the agent exactly once; when that call returns a response
    whose [str] is [text], the outcome is read off the parsed text: a mapping
    gives the list found under [qc] as it is, of whatever length, or the
    empty list when [qc] is absent or no list; anything but a mapping (a
    list, a string, a number, [None]) raises [AttributeError]. *)
Theorem quality_check_returns_answer_as_is :
  forall (agent : Agent) (emails : EmailsPayload.t) (tr : trace),
    (EmailsPayload.emails emails = [] ->
     run_quality_check agent emails tr = (Ok [], tr))
    /\ (EmailsPayload.emails emails <> [] ->
        runs_added (run_quality_check agent emails) tr = 1
        /\ forall res text,
            (forall p, agent (agent_runs tr) p = Ok res) ->
            to_str res = Ok text ->
            let data := parse_json_safe text (Json.JObj [("qc", Json.JArr [])]) in
            (forall d items,
                data = Json.JObj d ->
                Json.dict_get "qc" d = Some (Json.JArr items) ->
                fst (run_quality_check agent emails tr) = Ok items)
            /\ (forall d,
                   data = Json.JObj d ->
                   (forall items,
                       Json.dict_get "qc" d <> Some (Json.JArr items)) ->
                   fst (run_quality_check agent emails tr) = Ok [])
            /\ ((forall d, data <> Json.JObj d) ->
                fst (run_quality_check agent emails tr) = Raise AttributeError)).
Proof.
  intros agent emails tr. unfold run_quality_check, runs_added.
  destruct (EmailsPayload.emails emails) as [|e es].
  - split; [reflexivity | intros H; now contradiction H].
  - split; [discriminate | intros _].
    unfold bind, agent_run, lift, ret, throw.
    set (prompt := (_ ++ _)%string).
    split.
    + destruct (agent (agent_runs tr) prompt) as [res | x]; cbn [snd].
      * destruct (to_str res) as [text | x]; cbn [snd].
        -- destruct (parse_json_safe text _) as [| | | | | | |d]; cbn [snd];
             try (rewrite agent_runs_snoc_run; lia).
           destruct (Json.dict_get "qc" d) as [[| | | | | |items|] |]; cbn [snd];
             rewrite agent_runs_snoc_run; lia.
        -- rewrite agent_runs_snoc_run; lia.
      * rewrite agent_runs_snoc_run; lia.
    + intros res text Hagent Hstr. cbv zeta.
      rewrite Hagent, Hstr.
      split; [| split].
      * intros d items Hparse Hqc. now rewrite Hparse, Hqc.
      * intros d Hparse Hqc. rewrite Hparse.
        destruct (Json.dict_get "qc" d) as [[| | | | | |items|] |];
          try reflexivity.
        now contradiction (Hqc items).
      * intros Hparse.
        destruct (parse_json_safe text _) as [| | | | | | |d]; try reflexivity.
        now contradiction (Hparse d).
Qed.

Lemma quality_check_returns_answer_as_is_witness :
  fst (run_quality_check
         (Samples.const_agent (Samples.dq "{'qc': [{'ok': true, 'notes': 'a'}, {'ok': false, 'notes': 'b'}]}"))
         (EmailsPayload.mk [EmailItem.mk "Zara" "Ann" "Hi" "Hello."]) [])
  = Ok [Json.JObj [("ok", Json.JBool true); ("notes", Json.JStr "a")];
        Json.JObj [("ok", Json.JBool false); ("notes", Json.JStr "b")]]
  /\ fst (run_quality_check
            (Samples.const_agent (Samples.dq "[{'ok': true, 'notes': 'a'}]"))
            (EmailsPayload.mk [EmailItem.mk "Zara" "Ann" "Hi" "Hello."]) [])
     = Raise AttributeError.
Proof.
  split.
  - refine (proj1 (proj2 (proj2 (quality_check_returns_answer_as_is
              (Samples.const_agent (Samples.dq "{'qc': [{'ok': true, 'notes': 'a'}, {'ok': false, 'notes': 'b'}]}"))
              (EmailsPayload.mk [EmailItem.mk "Zara" "Ann" "Hi" "Hello."]) [])
              _)
            (Samples.text_response (Samples.dq "{'qc': [{'ok': true, 'notes': 'a'}, {'ok': false, 'notes': 'b'}]}"))
            (Samples.dq "{'qc': [{'ok': true, 'notes': 'a'}, {'ok': false, 'notes': 'b'}]}")
            _ _)
            [("qc", Json.JArr [Json.JObj [("ok", Json.JBool true); ("notes", Json.JStr "a")];
                               Json.JObj [("ok", Json.JBool false); ("notes", Json.JStr "b")]])]
            _ _ _).
    + discriminate.
    + reflexivity.
    + reflexivity.
    + vm_compute. reflexivity.
    + reflexivity.
  - refine (proj2 (proj2 (proj2 (proj2 (quality_check_returns_answer_as_is
              (Samples.const_agent (Samples.dq "[{'ok': true, 'notes': 'a'}]"))
              (EmailsPayload.mk [EmailItem.mk "Zara" "Ann" "Hi" "Hello."]) [])
              _)
            (Samples.text_response (Samples.dq "[{'ok': true, 'notes': 'a'}]"))
            (Samples.dq "[{'ok': true, 'notes': 'a'}]")
            _ _)) _).
    + discriminate.
    + reflexivity.
    + reflexivity.
    + vm_compute. intros d H. discriminate H.
Defined.

(** C3 as stated fails: for one email, an agent answering with an empty [qc]
    list makes the output empty, not of length one. *)
Lemma quality_check_length_not_enforced :
  ~ (forall (agent : Agent) (emails : EmailsPayload.t) (items : list Json.json),
        EmailsPayload.emails emails <> [] ->
        fst (run_quality_check agent emails []) = Ok items ->
        length items = length (EmailsPayload.emails emails)).
Proof.
  intros H.
  specialize (H (Samples.const_agent (Samples.dq "{'qc': []}"))
                (EmailsPayload.mk [EmailItem.mk "Zara" "Ann" "Hi" "Hello."])
                []).
  assert (E : length (@nil Json.json) = 1); [| discriminate E].
  apply H; [discriminate | vm_compute; reflexivity].
Qed.

(** ** Domains of the kept companies *)

Lemma kept_ok_nil (ex : list string) : kept_ok ex [] [].
Proof. repeat split; [constructor | intros c [] | constructor]. Qed.

Lemma kept_ok_seen (ex : list string) kept seen d :
  kept_ok ex kept seen -> kept_ok ex kept (d :: seen).
Proof.
  intros [H1 [H2 H3]]. repeat split; try assumption.
  intros c Hc. right. now apply H2.
Qed.

Lemma kept_ok_snoc (ex : list string) kept seen c :
  kept_ok ex kept seen ->
  ~ In (domain_of c) seen ->
  _excluded (domain_of c) ex = false ->
  kept_ok ex (kept ++ [c])%list (domain_of c :: seen).
Proof.
  intros [H1 [H2 H3]] Hnew Hex. repeat split.
  - rewrite map_app. simpl. apply NoDup_app; [assumption | | ].
    + constructor; [intros [] | constructor].
    + intros d Hd [Hd' | []]. subst d. apply Hnew.
      apply in_map_iff in Hd. destruct Hd as [c' [E Hc']].
      rewrite <- E. now apply H2.
  - intros c' Hc'. apply in_app_iff in Hc'. destruct Hc' as [Hc' | [Hc' | []]].
    + right. now apply H2.
    + left. now subst c'.
  - apply Forall_app. split; [assumption |]. now constructor.
Qed.

Lemma normalize_loop_ok (ex : list string) :
  forall cs clean seen,
    kept_ok ex clean seen ->
    exists seen', kept_ok ex (normalize_loop cs ex clean seen) seen'.
Proof.
  induction cs as [|c cs IH]; intros clean seen Hinv; cbn [normalize_loop].
  - now exists seen.
  - destruct (_excluded (_domain (Company.website c)) ex) eqn:Eex;
      cbn [orb]; [now apply IH |].
    destruct (PyStr.mem (_domain (Company.website c)) seen) eqn:Eseen;
      [now apply IH |].
    apply mem_false_iff in Eseen.
    destruct (negb (Re.found _FASHION_WORDS _)).
    + apply IH. now apply kept_ok_seen.
    + apply IH.
      apply (kept_ok_snoc ex clean seen
               (Company.mk
                  (_infer_company_name (Company.name c) (Company.website c))
                  (Company.website c)
                  (_clean_why_fit (Company.why_fit c) GENERIC_WHY_FIT)));
        assumption.
Qed.

Lemma discover_loop_ok (ex : list string) (limit : Z) :
  forall items companies seen out,
    kept_ok ex companies seen ->
    discover_loop items limit ex companies seen = Ok out ->
    exists seen', kept_ok ex out seen'.
Proof.
  induction items as [|r items IH]; intros companies seen out Hinv H;
    cbn [discover_loop] in H.
  - inversion H; subst out. now exists seen.
  - unfold rbind in H.
    destruct (item_field r FUrl) as [url |]; [| discriminate].
    destruct (item_field r FTitle) as [title |]; [| discriminate].
    destruct (item_field r FText) as [text |]; [| discriminate].
    destruct (_excluded (_domain url) ex) eqn:Eex; cbn [orb] in H;
      [now apply (IH _ _ _ Hinv H) |].
    destruct (PyStr.mem (_domain url) seen) eqn:Eseen;
      [now apply (IH _ _ _ Hinv H) |].
    apply mem_false_iff in Eseen.
    destruct (negb (Re.found _FASHION_WORDS (str_or text title))).
    + apply (IH _ _ _ (kept_ok_seen ex _ _ (_domain url) Hinv) H).
    + pose proof (kept_ok_snoc ex companies seen
                    (Company.mk (_infer_company_name title url) url
                       (_clean_why_fit (str_or text title) GENERIC_WHY_FIT))
                    Hinv Eseen Eex) as Hnext.
      destruct (Z.of_nat (length _) >=? limit)%Z.
      * inversion H; subst out. eexists. exact Hnext.
      * apply (IH _ _ _ Hnext H).
Qed.

Lemma normalize_companies_ok payload ex :
  exists seen,
    kept_ok (match ex with Some l => l | None => [] end)
      (CompaniesPayload.companies (normalize_companies payload ex)) seen.
Proof. unfold normalize_companies. apply normalize_loop_ok, kept_ok_nil. Qed.

Lemma discover_companies_ok exa td od limit ex debug tr p :
  fst (discover_companies_via_exa exa td od limit ex debug tr) = Ok p ->
  exists seen,
    kept_ok (match ex with Some l => l | None => [] end)
      (CompaniesPayload.companies p) seen.
Proof.
  unfold discover_companies_via_exa.
  destruct exa as [exa |].
  - unfold bind at 1.
    destruct ((if debug then log_info _ else ret tt) tr) as [[u | e] tr1];
      [| discriminate].
    unfold bind at 1.
    destruct (try_except _ _ tr1) as [[[items |] | e] tr2];
      cbn [fst ret]; try discriminate.
    + unfold bind, lift, ret.
      destruct (discover_loop items limit _ [] []) as [out | e] eqn:E;
        cbn [fst]; [| discriminate].
      intros H. inversion H; subst p. cbn [CompaniesPayload.companies].
      apply (discover_loop_ok _ limit items [] [] out (kept_ok_nil _) E).
    + intros H. inversion H; subst p. exists []. apply kept_ok_nil.
  - cbn [fst ret]. intros H. inversion H; subst p. exists []. apply kept_ok_nil.
Qed.

Lemma excluded_false (d : string) (ex : list string) :
  _excluded d ex = false ->
  matches_exclusion d ex = false
  /\ PyStr.contains "livetrend" (PyStr.lower d) = false.
Proof.
  unfold _excluded, matches_exclusion.
  destruct (existsb _ ex); [discriminate | auto].
Qed.

Lemma contains_livetrend_lower (d : string) :
  PyStr.contains "livetrend" (PyStr.lower d) = false ->
  PyStr.contains "livetrend" d = false.
Proof.
  intros H. destruct (PyStr.contains "livetrend" d) eqn:E; [| reflexivity].
  apply contains_lower in E. change (PyStr.lower "livetrend") with "livetrend" in E.
  congruence.
Qed.

Lemma company_finder_result exa agent td od n retries fb tr p :
  fst (run_company_finder exa agent td od n retries fb tr) = Ok p ->
  CompaniesPayload.companies p = []
  \/ exists q, p = normalize_companies q (Some ["livetrend.co"]).
Proof.
  unfold run_company_finder. unfold bind at 1.
  destruct (attempts _ _ _ _ _ _ _ _ _ tr) as [[p1 | e] tr1]; [| discriminate].
  unfold bind at 1.
  match goal with
  | |- fst (match ?x with _ => _ end) = _ -> _ =>
      destruct x as [[p2 | e] tr2]; [| discriminate]
  end.
  cbn [fst ret]. intros H. inversion H as [Hp].
  unfold has_companies.
  destruct (CompaniesPayload.companies p2) eqn:E; [left; assumption |].
  right. now exists p2.
Qed.

(** C10: whatever the exclusion list, the empty one included,
    [normalize_companies] and [discover_companies_via_exa] keep no company
    whose website domain contains [livetrend] (in any case of letters): a
    candidate with such a domain is always discarded. *)
Theorem livetrend_domains_always_discarded :
  forall (ex : option (list string)),
    (forall payload c,
        In c (CompaniesPayload.companies (normalize_companies payload ex)) ->
        PyStr.contains "livetrend" (PyStr.lower (domain_of c)) = false
        /\ PyStr.contains "livetrend" (domain_of c) = false)
    /\ (forall payload cand kept,
           In cand (CompaniesPayload.companies payload) ->
           PyStr.contains "livetrend" (domain_of cand) = true ->
           In kept (CompaniesPayload.companies (normalize_companies payload ex)) ->
           Company.website kept <> Company.website cand)
    /\ (forall exa td od limit debug tr p c,
           fst (discover_companies_via_exa exa td od limit ex debug tr) = Ok p ->
           In c (CompaniesPayload.companies p) ->
           PyStr.contains "livetrend" (PyStr.lower (domain_of c)) = false
           /\ PyStr.contains "livetrend" (domain_of c) = false).
Proof.
  intros ex.
  assert (Hnorm : forall payload c,
             In c (CompaniesPayload.companies (normalize_companies payload ex)) ->
             PyStr.contains "livetrend" (PyStr.lower (domain_of c)) = false
             /\ PyStr.contains "livetrend" (domain_of c) = false).
  { intros payload c Hc.
    destruct (normalize_companies_ok payload ex) as [seen [_ [_ H3]]].
    rewrite Forall_forall in H3. specialize (H3 c Hc).
    apply excluded_false in H3. destruct H3 as [_ H3].
    split; [assumption | now apply contains_livetrend_lower]. }
  split; [exact Hnorm | split].
  - intros payload cand kept _ Hcand Hkept Heq.
    destruct (Hnorm payload kept Hkept) as [_ Hk].
    unfold domain_of in *. rewrite Heq in Hk. congruence.
  - intros exa td od limit debug tr p c Hp Hc.
    destruct (discover_companies_ok _ _ _ _ _ _ _ _ Hp) as [seen [_ [_ H3]]].
    rewrite Forall_forall in H3. specialize (H3 c Hc).
    apply excluded_false in H3. destruct H3 as [_ H3].
    split; [assumption | now apply contains_livetrend_lower].
Qed.

Lemma livetrend_domains_always_discarded_witness :
  (PyStr.contains "livetrend" (PyStr.lower (domain_of Samples.zara)) = false
   /\ PyStr.contains "livetrend" (domain_of Samples.zara) = false)
  /\ Company.website Samples.zara <> "https://www.livetrend.io/x"
  /\ (PyStr.contains "livetrend" (PyStr.lower (domain_of Samples.zara_found))
      = false
      /\ PyStr.contains "livetrend" (domain_of Samples.zara_found) = false).
Proof.
  destruct (livetrend_domains_always_discarded (Some [])) as [H1 [H2 H3]].
  split; [| split].
  - apply (H1 (CompaniesPayload.mk [Samples.livetrend_io; Samples.zara])).
    vm_compute. left. reflexivity.
  - apply (H2 (CompaniesPayload.mk [Samples.livetrend_io; Samples.zara])
              Samples.livetrend_io Samples.zara).
    + left. reflexivity.
    + vm_compute. reflexivity.
    + vm_compute. left. reflexivity.
  - apply (H3 (Some Samples.shop_exa) "target" "offer" 5%Z true []
              (CompaniesPayload.mk [Samples.zara_found])).
    + vm_compute. reflexivity.
    + left. reflexivity.
Defined.

(** ** Which path a stage took *)

Lemma attempts_emits_attempt_events {P : Type} label agent prompt
      (parse : Response -> result P) nonempty retries :
  forall fuel attempt payload,
    emits is_attempt_event
      (attempts fuel label agent prompt parse nonempty retries attempt payload).
Proof.
  induction fuel as [|fuel IH]; intros attempt payload; cbn [attempts];
    destruct (attempt <=? Z.max 1 retries)%Z; try apply emits_ret.
  apply emits_bind.
  - apply emits_emit. cbn [is_attempt_event]. apply startswith_append.
  - intros _. apply emits_bind; [apply emits_agent_run; reflexivity | intros res].
    apply emits_bind; [apply emits_lift | intros p].
    destruct (nonempty p); [apply emits_ret | apply IH].
Qed.

Lemma attempts_no_other_event (e : event) (tr evs : trace) :
  is_attempt_event e = false ->
  ~ In e tr -> forallb is_attempt_event evs = true -> ~ In e (tr ++ evs)%list.
Proof.
  intros He Htr Hevs Hin. apply in_app_iff in Hin. destruct Hin as [Hin | Hin].
  - now apply Htr.
  - rewrite forallb_forall in Hevs. specialize (Hevs e Hin). congruence.
Qed.

(** ** Contacts of the fallback *)

Lemma contact_companies_bound exa debug :
  forall cs out tr out',
    fst (contact_companies exa cs debug out tr) = Ok out' ->
    Forall (fun pc => length (ContactsPerCompany.contacts pc) <= 2) out ->
    Forall (fun pc => length (ContactsPerCompany.contacts pc) <= 2) out'.
Proof.
  induction cs as [|c cs IH]; intros out tr out' H Hout;
    cbn [contact_companies] in H.
  - cbn in H. inversion H; now subst out'.
  - unfold bind at 1 in H.
    destruct (contact_roles exa ROLES _ _ debug [] tr) as [[cts | e] tr1];
      [| discriminate].
    apply (IH _ _ _ H). apply Forall_app. split; [assumption |].
    constructor; [| constructor].
    cbn [ContactsPerCompany.contacts]. apply firstn_le_length.
Qed.

Lemma find_contacts_bound exa companies debug tr p :
  fst (find_contacts_via_exa exa companies debug tr) = Ok p ->
  Forall (fun pc => length (ContactsPerCompany.contacts pc) <= 2)
         (ContactsPayload.companies p).
Proof.
  unfold find_contacts_via_exa. destruct exa as [exa |].
  - unfold bind.
    destruct (contact_companies exa _ debug [] tr) as [[out | e] tr1] eqn:E;
      [| discriminate].
    cbn [fst ret]. intros H. inversion H; subst p.
    cbn [ContactsPayload.companies].
    apply (contact_companies_bound exa debug
             (CompaniesPayload.companies companies) [] tr out).
    + now rewrite E.
    + constructor.
  - cbn. intros H. inversion H; subst p. constructor.
Qed.

(** C4 (as the code has it): when [run_contact_finder] takes the Exa fallback
    (its trace then holds the fallback log line), every company of the
    payload has at most 2 contacts.  On the model path the lists are kept as
    validated, of whatever length. *)
Theorem fallback_contacts_at_most_two :
  forall (exa : option ExaClient) (agent : Agent)
         (companies : CompaniesPayload.t) (td od : string) (retries : Z)
         (fb : bool) (tr : trace) (p : ContactsPayload.t),
    ~ In CONTACT_FALLBACK_LOG tr ->
    fst (run_contact_finder exa agent companies td od retries fb tr) = Ok p ->
    In CONTACT_FALLBACK_LOG
       (snd (run_contact_finder exa agent companies td od retries fb tr)) ->
    Forall (fun pc => length (ContactsPerCompany.contacts pc) <= 2)
           (ContactsPayload.companies p).
Proof.
  intros exa agent companies td od retries fb tr p Htr.
  unfold run_contact_finder. set (prompt := (_ ++ _)%string).
  unfold bind at 1 3.
  destruct (attempts_emits_attempt_events "ContactFinder" agent prompt
              contact_attempt has_contacts retries (loop_fuel retries) 0%Z
              (ContactsPayload.mk []) tr) as [evs [E F]].
  destruct (attempts _ _ _ _ _ _ _ _ _ tr) as [[p1 | e] tr1];
    cbn [snd] in E; subst tr1; [| discriminate].
  destruct (negb (has_contacts p1) && fb).
  - unfold bind, log_info, emit. intros H _.
    now apply find_contacts_bound in H.
  - cbn [ret fst snd]. intros _ Hin. exfalso.
    now apply (attempts_no_other_event CONTACT_FALLBACK_LOG tr evs eq_refl Htr F).
Qed.

Lemma fallback_contacts_at_most_two_witness :
  Forall (fun pc => length (ContactsPerCompany.contacts pc) <= 2)
         [ContactsPerCompany.mk "Zara" []].
Proof.
  apply (fallback_contacts_at_most_two (Some Samples.shop_exa)
           (Samples.const_agent EmptyString)
           (CompaniesPayload.mk [Samples.zara]) "target" "offer" 1 true []
           (ContactsPayload.mk [ContactsPerCompany.mk "Zara" []])).
  - intros [].
  - vm_compute. reflexivity.
  - vm_compute. do 4 right. left. reflexivity.
Defined.

(** C4 as stated fails on the model path: three contacts returned by the
    agent for one company are all kept. *)
Lemma model_contacts_not_capped :
  ~ (forall (agent : Agent) (p : ContactsPayload.t),
        fst (run_contact_finder None agent (CompaniesPayload.mk [Samples.zara])
               "target" "offer" 1 true []) = Ok p ->
        Forall (fun pc => length (ContactsPerCompany.contacts pc) <= 2)
               (ContactsPayload.companies p)).
Proof.
  intros H.
  specialize (H (Samples.const_agent Samples.three_contacts_answer)
                (ContactsPayload.mk
                   [ContactsPerCompany.mk "Zara"
                      [Contact.mk "Ann Lee" "Founder" None (Some false) None;
                       Contact.mk "Bo Chan" "GTM Lead" None (Some false) None;
                       Contact.mk "Cy Doe" "Sales" None (Some false) None]])).
  assert (E : Forall (fun pc => length (ContactsPerCompany.contacts pc) <= 2)
                [ContactsPerCompany.mk "Zara"
                   [Contact.mk "Ann Lee" "Founder" None (Some false) None;
                    Contact.mk "Bo Chan" "GTM Lead" None (Some false) None;
                    Contact.mk "Cy Doe" "Sales" None (Some false) None]]).
  { apply H. vm_compute. reflexivity. }
  inversion E as [| x l Hx Hl]. cbn in Hx. lia.
Qed.

(** ** Insights of the fallback *)

Lemma in_firstn {A : Type} (n : nat) (l : list A) (x : A) :
  In x (firstn n l) -> In x l.
Proof.
  intros H. rewrite <- (firstn_skipn n l). apply in_or_app. now left.
Qed.

Lemma Forall_firstn_of {A : Type} (Q : A -> Prop) (n : nat) (l : list A) :
  Forall Q l -> Forall Q (firstn n l).
Proof.
  rewrite !Forall_forall. intros H x Hx. apply H. now apply in_firstn in Hx.
Qed.

Section Preserved.
Variable Q : string -> Prop.

Lemma add_new_forall : forall points insights,
  Forall Q points -> Forall Q insights -> Forall Q (add_new points insights).
Proof.
  induction points as [|pt points IH]; intros insights Hp Hi; cbn [add_new];
    [assumption |].
  inversion Hp; subst. apply IH; [assumption |].
  destruct (PyStr.mem pt insights); [assumption |].
  apply Forall_app. split; [assumption | now constructor].
Qed.

Lemma unique_loop_forall : forall filtered unique seen,
  Forall Q filtered -> Forall Q unique ->
  Forall Q (unique_loop filtered unique seen).
Proof.
  induction filtered as [|p filtered IH]; intros unique seen Hf Hu;
    cbn [unique_loop]; [assumption |].
  inversion Hf; subst.
  destruct (PyStr.mem _ seen); apply IH; try assumption.
  apply Forall_app. split; [assumption | now constructor].
Qed.

Lemma clean_research_forall (p : ResearchPayload.t) :
  Forall (fun rc => Forall Q (ResearchPerCompany.insights rc))
         (ResearchPayload.companies p) ->
  Forall (fun rc => Forall Q (ResearchPerCompany.insights rc))
         (ResearchPayload.companies (clean_research p)).
Proof.
  unfold clean_research. cbn [ResearchPayload.companies].
  intros H. rewrite Forall_map. eapply Forall_impl; [| exact H].
  intros rc Hrc. cbn [ResearchPerCompany.insights].
  apply Forall_firstn_of. apply unique_loop_forall; [| constructor].
  rewrite Forall_forall in *. intros x Hx. apply filter_In in Hx.
  now apply Hrc.
Qed.

End Preserved.

(** ** Stages that receive no usable answer *)

Lemma emits_any {A : Type} (P : event -> bool) (c : M A) :
  emits P c -> emits any_event c.
Proof. apply emits_weaken. reflexivity. Qed.

Lemma emits_runs_grow {A : Type} (c : M A) (tr : trace) :
  emits any_event c -> agent_runs tr <= agent_runs (snd (c tr)).
Proof.
  intros H. destruct (H tr) as [evs [E _]]. rewrite E, agent_runs_app. lia.
Qed.

Section EmptyAnswers.
Context {P : Type}.
Variables (label : string) (agent : Agent) (prompt : string).
Variables (parse : Response -> result P) (nonempty : P -> bool).
Variables (retries : Z) (empty : P).
Hypothesis Hagent : always_yields agent parse empty.
Hypothesis Hempty : nonempty empty = false.

(** With no usable answer the loop runs to the end of its guard. *)
Lemma attempts_all_empty : forall fuel attempt tr,
  Z.to_nat (Z.max 1 retries + 1 - attempt) <= fuel ->
  exists tr',
    attempts fuel label agent prompt parse nonempty retries attempt empty tr
    = (Ok empty, tr')
    /\ agent_runs tr'
       = agent_runs tr + Z.to_nat (Z.max 1 retries + 1 - attempt).
Proof.
  induction fuel as [|fuel IH]; intros attempt tr Hfuel; cbn [attempts];
    destruct (attempt <=? Z.max 1 retries)%Z eqn:G.
  - apply Z.leb_le in G. lia.
  - apply Z.leb_gt in G. exists tr. split; [reflexivity | lia].
  - apply Z.leb_le in G.
    unfold bind at 1, log_info, emit. unfold bind at 1, agent_run.
    destruct (Hagent (agent_runs (tr ++ [EvLog ("[OPENAI] " ++ label
                ++ ": prompt sent (attempt " ++ PyStr.of_Z (attempt + 1)
                ++ ")")])%list) prompt) as [res [Hres Hparse]].
    rewrite Hres. unfold bind at 1, lift. rewrite Hparse, Hempty.
    destruct (IH (attempt + 1)%Z
                ((tr ++ [EvLog ("[OPENAI] " ++ label
                   ++ ": prompt sent (attempt " ++ PyStr.of_Z (attempt + 1)
                   ++ ")")]) ++ [EvAgentRun prompt])%list) as [tr' [E R]];
      [lia |].
    exists tr'. split; [exact E |].
    rewrite R, agent_runs_snoc_run, agent_runs_snoc_log. lia.
  - apply Z.leb_gt in G. exists tr. split; [reflexivity | lia].
Qed.

End EmptyAnswers.

(** The first iteration of the loop always calls the agent. *)
Lemma attempts_runs_at_least_one {P : Type} label agent prompt
      (parse : Response -> result P) nonempty retries fuel payload tr :
  S (agent_runs tr)
  <= agent_runs
       (snd (attempts (S fuel) label agent prompt parse nonempty retries 0
               payload tr)).
Proof.
  cbn [attempts].
  replace (0 <=? Z.max 1 retries)%Z with true by (symmetry; apply Z.leb_le; lia).
  unfold bind, log_info, emit, agent_run, lift, ret.
  set (tr1 := ((tr ++ [EvLog _]) ++ [EvAgentRun prompt])%list).
  assert (H1 : agent_runs tr1 = S (agent_runs tr))
    by (subst tr1; now rewrite agent_runs_snoc_run, agent_runs_snoc_log).
  destruct (agent _ prompt) as [res | e]; [| cbn [snd]; lia].
  destruct (parse res) as [p | e]; [| cbn [snd]; lia].
  destruct (nonempty p); [cbn [snd]; lia |].
  pose proof (emits_runs_grow
                (attempts fuel label agent prompt parse nonempty retries
                   (0 + 1) p) tr1
                (emits_any _ _ (attempts_emits_attempt_events label agent
                                  prompt parse nonempty retries fuel _ p))).
  lia.
Qed.

Lemma not_search_log : forall m, not_search (EvLog m) = true.
Proof. reflexivity. Qed.

Lemma contact_finder_no_client_no_search agent companies td od retries fb :
  emits not_search (run_contact_finder None agent companies td od retries fb).
Proof.
  unfold run_contact_finder.
  apply emits_bind; [apply attempts_no_search | intros p].
  destruct (negb (has_contacts p) && fb); [| apply emits_ret].
  apply emits_bind; [apply emits_emit; reflexivity | intros _].
  apply emits_ret.
Qed.

Lemma research_no_client_no_search agent companies retries fb :
  emits not_search (run_research None agent companies retries fb).
Proof.
  unfold run_research.
  apply emits_bind; [apply attempts_no_search | intros p].
  apply emits_bind; [| intros a; apply emits_ret].
  destruct (negb (has_research p) && fb); [| apply emits_ret].
  apply emits_bind; [apply emits_emit; reflexivity | intros _].
  apply emits_ret.
Qed.

Lemma email_writer_no_search py_str agent companies contacts research sender
      style retries fb :
  emits not_search
    (run_email_writer py_str agent companies contacts research sender style
       retries fb).
Proof.
  unfold run_email_writer.
  apply emits_bind; [apply attempts_no_search | intros p].
  destruct (negb (has_emails p) && fb); [| apply emits_ret].
  apply emits_bind; [apply emits_emit; reflexivity | intros _].
  apply emits_ret.
Qed.

Lemma company_finder_no_client_no_search agent td od n retries fb :
  emits not_search (run_company_finder None agent td od n retries fb).
Proof.
  unfold run_company_finder.
  apply emits_bind; [apply attempts_no_search | intros p].
  apply emits_bind; [| intros a; apply emits_ret].
  destruct (negb (has_companies p) && fb); [| apply emits_ret].
  apply emits_bind; [apply emits_emit; reflexivity | intros _].
  apply emits_ret.
Qed.

Lemma company_finder_all_empty agent td od n retries tr :
  always_yields agent company_attempt (CompaniesPayload.mk []) ->
  exists tr',
    run_company_finder None agent td od n retries true tr
    = (Ok (CompaniesPayload.mk []), tr')
    /\ agent_runs tr' = agent_runs tr + Z.to_nat (Z.max 1 retries + 1).
Proof.
  intros Hagent. unfold run_company_finder. set (prompt := (_ ++ _)%string).
  destruct (attempts_all_empty "CompanyFinder" agent prompt company_attempt
              has_companies retries (CompaniesPayload.mk []) Hagent eq_refl
              (loop_fuel retries) 0%Z tr) as [tr1 [E R]];
    [unfold loop_fuel; lia |].
  unfold bind at 1. rewrite E. cbn.
  eexists. split; [reflexivity |].
  rewrite agent_runs_snoc_log, R. f_equal. lia.
Qed.

Lemma contact_finder_all_empty agent companies td od retries tr :
  always_yields agent contact_attempt (ContactsPayload.mk []) ->
  exists tr',
    run_contact_finder None agent companies td od retries true tr
    = (Ok (ContactsPayload.mk []), tr')
    /\ agent_runs tr' = agent_runs tr + Z.to_nat (Z.max 1 retries + 1).
Proof.
  intros Hagent. unfold run_contact_finder. set (prompt := (_ ++ _)%string).
  destruct (attempts_all_empty "ContactFinder" agent prompt contact_attempt
              has_contacts retries (ContactsPayload.mk []) Hagent eq_refl
              (loop_fuel retries) 0%Z tr) as [tr1 [E R]];
    [unfold loop_fuel; lia |].
  unfold bind at 1. rewrite E. cbn.
  eexists. split; [reflexivity |].
  rewrite agent_runs_snoc_log, R. f_equal. lia.
Qed.

Lemma research_all_empty agent companies retries tr :
  always_yields agent research_attempt (ResearchPayload.mk []) ->
  exists tr',
    run_research None agent companies retries true tr
    = (Ok (ResearchPayload.mk []), tr')
    /\ agent_runs tr' = agent_runs tr + Z.to_nat (Z.max 1 retries + 1).
Proof.
  intros Hagent. unfold run_research. set (prompt := (_ ++ _)%string).
  destruct (attempts_all_empty "Research" agent prompt research_attempt
              has_research retries (ResearchPayload.mk []) Hagent eq_refl
              (loop_fuel retries) 0%Z tr) as [tr1 [E R]];
    [unfold loop_fuel; lia |].
  unfold bind at 1. rewrite E. cbn.
  eexists. split; [reflexivity |].
  rewrite agent_runs_snoc_log, R. f_equal. lia.
Qed.

(** With no usable answer and fallbacks enabled, the email stage returns the
    template emails. *)
Lemma email_writer_all_empty py_str agent companies contacts research sender
      style retries tr :
  always_yields agent (email_attempt py_str) (EmailsPayload.mk []) ->
  exists tr',
    run_email_writer py_str agent companies contacts research sender style
      retries true tr
    = (Ok (generate_template_emails companies contacts research sender style),
       tr')
    /\ agent_runs tr' = agent_runs tr + Z.to_nat (Z.max 1 retries + 1).
Proof.
  intros Hagent. unfold run_email_writer. set (prompt := (_ ++ _)%string).
  destruct (attempts_all_empty "EmailWriter" agent prompt
              (email_attempt py_str) has_emails retries (EmailsPayload.mk [])
              Hagent eq_refl (loop_fuel retries) 0%Z tr) as [tr1 [E R]];
    [unfold loop_fuel; lia |].
  unfold bind at 1. rewrite E.
  cbn [has_emails EmailsPayload.emails negb andb].
  unfold bind, log_info, emit, ret.
  eexists. split; [reflexivity |].
  rewrite agent_runs_snoc_log, R. f_equal. lia.
Qed.

Lemma empty_companies_answer_attempt (res : Response) :
  response_text res = Samples.dq "{'companies': []}" ->
  company_attempt res = Ok (CompaniesPayload.mk []).
Proof. intros H. unfold company_attempt. rewrite H. vm_compute. reflexivity. Qed.

(** C5 (as the code has it): when the model answers [{"companies": []}] to
    every company-discovery attempt, with [retries = 1], fallbacks enabled and
    no search client, the company payload is empty after two agent calls and
    no search.  The contact, research and email stages, given zero companies,
    still call their agent (at least once) and never the search client; when
    their agent yields no record either, each returns an empty payload. *)
Theorem empty_discovery_scenario :
  forall (py_str : Json.json -> string)
         (company_agent contact_agent research_agent email_agent : Agent)
         (contacts : ContactsPayload.t) (research : ResearchPayload.t)
         (sender : list (string * string)) (style td od : string) (n : Z)
         (tr : trace),
    (forall k prompt, exists res,
        company_agent k prompt = Ok res
        /\ response_text res = Samples.dq "{'companies': []}") ->
    let no_companies := CompaniesPayload.mk [] in
    let contact_stage :=
      run_contact_finder None contact_agent no_companies td od 1 true in
    let research_stage := run_research None research_agent no_companies 1 true in
    let email_stage :=
      run_email_writer py_str email_agent no_companies contacts research
        sender style 1 true in
    (exists tr',
        run_company_finder None company_agent td od n 1 true tr
        = (Ok no_companies, tr')
        /\ agent_runs tr' = agent_runs tr + 2
        /\ searches tr' = searches tr)
    /\ (S (agent_runs tr) <= agent_runs (snd (contact_stage tr))
        /\ searches (snd (contact_stage tr)) = searches tr)
    /\ (S (agent_runs tr) <= agent_runs (snd (research_stage tr))
        /\ searches (snd (research_stage tr)) = searches tr)
    /\ (S (agent_runs tr) <= agent_runs (snd (email_stage tr))
        /\ searches (snd (email_stage tr)) = searches tr)
    /\ (always_yields contact_agent contact_attempt (ContactsPayload.mk []) ->
        fst (contact_stage tr) = Ok (ContactsPayload.mk []))
    /\ (always_yields research_agent research_attempt (ResearchPayload.mk []) ->
        fst (research_stage tr) = Ok (ResearchPayload.mk []))
    /\ (always_yields email_agent (email_attempt py_str) (EmailsPayload.mk []) ->
        fst (email_stage tr) = Ok (EmailsPayload.mk [])).
Proof.
  intros py_str company_agent contact_agent research_agent email_agent
         contacts research sender style td od n tr Hcompany
         no_companies contact_stage research_stage email_stage.
  repeat split.
  - destruct (company_finder_all_empty company_agent td od n 1 tr)
      as [tr' [E R]].
    { intros k prompt. destruct (Hcompany k prompt) as [res [H1 H2]].
      exists res. split; [assumption | now apply empty_companies_answer_attempt]. }
    exists tr'. repeat split; [exact E | exact R |].
    pose proof (emits_searches _ tr
                  (company_finder_no_client_no_search company_agent td od n 1
                     true)) as S.
    now rewrite E in S.
  - subst contact_stage. unfold run_contact_finder. rewrite bind_agent_runs.
    + apply attempts_runs_at_least_one.
    + intros p. destruct (negb (has_contacts p) && true); [| apply emits_ret].
      apply emits_bind; [apply emits_emit; reflexivity | intros _].
      apply emits_ret.
  - apply emits_searches, contact_finder_no_client_no_search.
  - subst research_stage. unfold run_research. rewrite bind_agent_runs.
    + apply attempts_runs_at_least_one.
    + intros p. apply emits_bind; [| intros a; apply emits_ret].
      destruct (negb (has_research p) && true); [| apply emits_ret].
      apply emits_bind; [apply emits_emit; reflexivity | intros _].
      apply emits_ret.
  - apply emits_searches, research_no_client_no_search.
  - subst email_stage. unfold run_email_writer. rewrite bind_agent_runs.
    + apply attempts_runs_at_least_one.
    + intros p. destruct (negb (has_emails p) && true); [| apply emits_ret].
      apply emits_bind; [apply emits_emit; reflexivity | intros _].
      apply emits_ret.
  - apply emits_searches, email_writer_no_search.
  - intros H. subst contact_stage.
    destruct (contact_finder_all_empty contact_agent no_companies td od 1 tr H)
      as [tr' [E _]].
    now rewrite E.
  - intros H. subst research_stage.
    destruct (research_all_empty research_agent no_companies 1 tr H)
      as [tr' [E _]].
    now rewrite E.
  - intros H. subst email_stage.
    destruct (email_writer_all_empty py_str email_agent no_companies contacts
                research sender style 1 tr H) as [tr' [E _]].
    now rewrite E.
Qed.

Lemma empty_discovery_scenario_witness :
  fst (run_company_finder None
         (Samples.const_agent (Samples.dq "{'companies': []}"))
         "target" "offer" 5 1 true [])
  = Ok (CompaniesPayload.mk [])
  /\ fst (run_contact_finder None (Samples.const_agent EmptyString)
            (CompaniesPayload.mk []) "target" "offer" 1 true [])
     = Ok (ContactsPayload.mk []).
Proof.
  destruct (empty_discovery_scenario Samples.sample_py_str
              (Samples.const_agent (Samples.dq "{'companies': []}"))
              (Samples.const_agent EmptyString)
              (Samples.const_agent EmptyString)
              (Samples.const_agent EmptyString)
              (ContactsPayload.mk []) (ResearchPayload.mk [])
              Samples.sample_sender "Professional" "target" "offer" 5 [])
    as [[tr' [E _]] [_ [_ [_ [Hcontact _]]]]].
  - intros k prompt.
    exists (Samples.text_response (Samples.dq "{'companies': []}")).
    split; [reflexivity | vm_compute; reflexivity].
  - split.
    + rewrite E. reflexivity.
    + apply Hcontact. intros k prompt.
      exists (Samples.text_response EmptyString).
      split; [reflexivity | vm_compute; reflexivity].
Defined.

(** C5 as stated fails: given zero companies, the contact stage still calls
    its agent (twice when the answers stay empty). *)
Lemma empty_input_stage_still_prompts :
  ~ (forall (agent : Agent) (p : ContactsPayload.t) (tr' : trace),
        run_contact_finder None agent (CompaniesPayload.mk []) "target" "offer"
          1 true [] = (Ok p, tr') ->
        p = ContactsPayload.mk [] /\ agent_runs tr' = 0 /\ searches tr' = 0).
Proof.
  intros H.
  specialize (H (Samples.const_agent EmptyString) (ContactsPayload.mk [])
                (snd (run_contact_finder None (Samples.const_agent EmptyString)
                        (CompaniesPayload.mk []) "target" "offer" 1 true []))).
  destruct H as [_ [H _]]; [vm_compute; reflexivity |].
  vm_compute in H. discriminate H.
Qed.

(** ** Template emails *)

Lemma targets_of_recorded contacts comp :
  targets_of contacts comp
  = match recorded_contacts contacts comp with
    | [] => [PLACEHOLDER_CONTACT]
    | cts => cts
    end.
Proof.
  unfold targets_of, recorded_contacts.
  destruct (pydict_get _ _) as [[|ct cts] |]; reflexivity.
Qed.

Lemma template_pairs research sender style contacts :
  forall companies,
    map pair_of_email
        (flat_map (fun comp =>
                     map (template_email research sender style comp)
                         (targets_of contacts comp))
                  companies)
    = email_pairs "Équipe" contacts companies.
Proof.
  induction companies as [|comp companies IH]; [reflexivity |].
  cbn [flat_map email_pairs]. rewrite map_app, IH. f_equal.
  rewrite map_map, targets_of_recorded.
  destruct (recorded_contacts contacts comp) as [|ct cts]; reflexivity.
Qed.

Lemma template_email_sound research sender style comp ct :
  EmailItem.subject (template_email research sender style comp ct)
  <> EmptyString
  /\ PyStr.contains (sender_get sender "name" EmptyString)
       (EmailItem.body (template_email research sender style comp ct)) = true
  /\ PyStr.contains (sender_get sender "company" "Livetrend")
       (EmailItem.body (template_email research sender style comp ct)) = true.
Proof.
  unfold template_email. cbn [EmailItem.subject EmailItem.body].
  repeat split.
  - destruct (_brand_from_domain _); discriminate.
  - repeat (first [apply contains_here | apply contains_skip]).
  - repeat (first [apply contains_here | apply contains_skip]).
Qed.

(** C7 (as the code has it): when every email attempt yields no email and
    fallbacks are enabled, [run_email_writer] returns exactly one email per
    (company, recorded contact) pair, or one per company with the contact
    name [Équipe] (a placeholder whose role is Team) when the company has no
    recorded contact; each has a non-empty subject and a body containing the
    sender name and the sender company (Livetrend when the sender has none). *)
Theorem template_fallback_emails :
  forall (py_str : Json.json -> string) (agent : Agent)
         (companies : CompaniesPayload.t) (contacts : ContactsPayload.t)
         (research : ResearchPayload.t) (sender : list (string * string))
         (style : string) (retries : Z) (tr : trace),
    always_yields agent (email_attempt py_str) (EmailsPayload.mk []) ->
    exists payload tr',
      run_email_writer py_str agent companies contacts research sender style
        retries true tr = (Ok payload, tr')
      /\ map pair_of_email (EmailsPayload.emails payload)
         = email_pairs "Équipe" contacts (CompaniesPayload.companies companies)
      /\ Forall (fun e =>
                   EmailItem.subject e <> EmptyString
                   /\ PyStr.contains (sender_get sender "name" EmptyString)
                        (EmailItem.body e) = true
                   /\ PyStr.contains (sender_get sender "company" "Livetrend")
                        (EmailItem.body e) = true)
                (EmailsPayload.emails payload).
Proof.
  intros py_str agent companies contacts research sender style retries tr H.
  destruct (email_writer_all_empty py_str agent companies contacts research
              sender style retries tr H) as [tr' [E _]].
  exists (generate_template_emails companies contacts research sender style), tr'.
  split; [exact E | split].
  - apply template_pairs.
  - unfold generate_template_emails. cbn [EmailsPayload.emails].
    rewrite Forall_forall. intros e He.
    apply in_flat_map in He. destruct He as [comp [_ He]].
    apply in_map_iff in He. destruct He as [ct [Heq _]]. subst e.
    apply template_email_sound.
Qed.

Lemma template_fallback_emails_witness :
  exists payload tr',
    run_email_writer Samples.sample_py_str (Samples.const_agent EmptyString)
      (CompaniesPayload.mk [Samples.zara; Samples.livetrend_io])
      (ContactsPayload.mk
         [ContactsPerCompany.mk "Zara"
            [Contact.mk "Ann Lee" "Founder" None (Some false) None;
             Contact.mk "Bo Chan" "GTM Lead" None (Some false) None]])
      (ResearchPayload.mk []) Samples.sample_sender "Casual" 1 true []
    = (Ok payload, tr')
    /\ map pair_of_email (EmailsPayload.emails payload)
       = [("Zara", "Ann Lee"); ("Zara", "Bo Chan"); ("Livetrend", "Équipe")]
    /\ Forall (fun e =>
                 EmailItem.subject e <> EmptyString
                 /\ PyStr.contains "Bob" (EmailItem.body e) = true
                 /\ PyStr.contains "Livetrend" (EmailItem.body e) = true)
              (EmailsPayload.emails payload).
Proof.
  apply (template_fallback_emails Samples.sample_py_str
           (Samples.const_agent EmptyString)
           (CompaniesPayload.mk [Samples.zara; Samples.livetrend_io])
           (ContactsPayload.mk
              [ContactsPerCompany.mk "Zara"
                 [Contact.mk "Ann Lee" "Founder" None (Some false) None;
                  Contact.mk "Bo Chan" "GTM Lead" None (Some false) None]])
           (ResearchPayload.mk []) Samples.sample_sender "Casual" 1 []).
  intros k prompt. exists (Samples.text_response EmptyString).
  split; [reflexivity | vm_compute; reflexivity].
Defined.

(** C7 as stated fails: for a company without contacts the email is
    addressed to [Équipe], not to [Team]. *)
Lemma template_placeholder_is_not_team :
  ~ (forall (agent : Agent) (payload : EmailsPayload.t),
        always_yields agent (email_attempt Samples.sample_py_str)
          (EmailsPayload.mk []) ->
        fst (run_email_writer Samples.sample_py_str agent
               (CompaniesPayload.mk [Samples.zara]) (ContactsPayload.mk [])
               (ResearchPayload.mk []) Samples.sample_sender "Professional" 1
               true []) = Ok payload ->
        map pair_of_email (EmailsPayload.emails payload)
        = email_pairs "Team" (ContactsPayload.mk []) [Samples.zara]).
Proof.
  intros H.
  specialize (H (Samples.const_agent EmptyString)
                (generate_template_emails (CompaniesPayload.mk [Samples.zara])
                   (ContactsPayload.mk []) (ResearchPayload.mk [])
                   Samples.sample_sender "Professional")).
  assert (E : map pair_of_email
                (EmailsPayload.emails
                   (generate_template_emails
                      (CompaniesPayload.mk [Samples.zara])
                      (ContactsPayload.mk []) (ResearchPayload.mk [])
                      Samples.sample_sender "Professional"))
              = email_pairs "Team" (ContactsPayload.mk []) [Samples.zara]).
  { apply H.
    - intros k prompt. exists (Samples.text_response EmptyString).
      split; [reflexivity | vm_compute; reflexivity].
    - vm_compute. reflexivity. }
  vm_compute in E. discriminate E.
Qed.

(** ** Follow-ups of the email stage *)

Lemma dict_get_set_same k v d :
  Json.dict_get k (Json.dict_set k v d) = Some v.
Proof.
  induction d as [|[k' v'] d IH]; cbn [Json.dict_set Json.dict_get].
  - now rewrite String.eqb_refl.
  - destruct (String.eqb k k') eqn:E; cbn [Json.dict_get]; rewrite E;
      [reflexivity | exact IH].
Qed.

Lemma dict_get_set_other k k' v d :
  k <> k' -> Json.dict_get k (Json.dict_set k' v d) = Json.dict_get k d.
Proof.
  intros Hne. induction d as [|[k0 v0] d IH]; cbn [Json.dict_set Json.dict_get].
  - apply String.eqb_neq in Hne. now rewrite Hne.
  - destruct (String.eqb k' k0) eqn:E; cbn [Json.dict_get].
    + apply String.eqb_eq in E. subst k0.
      apply String.eqb_neq in Hne. now rewrite Hne.
    + destruct (String.eqb k k0); [reflexivity | exact IH].
Qed.

Lemma dict_get_setdefault_other k k' d :
  k <> k' -> Json.dict_get k (setdefault_empty k' d) = Json.dict_get k d.
Proof.
  intros Hne. unfold setdefault_empty.
  destruct (Json.dict_has k' d); [reflexivity | now apply dict_get_set_other].
Qed.


Lemma for_each_nth {A B : Type} (f : A -> result B) :
  forall l l' i x,
    for_each f l = Ok l' -> nth_error l i = Some x ->
    exists y, f x = Ok y /\ nth_error l' i = Some y.
Proof.
  induction l as [|a l IH]; intros l' i x H Hn; cbn [for_each] in H.
  - destruct i; discriminate.
  - unfold rbind in H. destruct (f a) as [y | e] eqn:Fa; [| discriminate].
    destruct (for_each f l) as [ys | e]; [| discriminate].
    inversion H; subst l'. destruct i as [|i]; cbn in *.
    + inversion Hn; subst a. now exists y.
    + now apply (IH ys i x).
Qed.


Lemma traverse_nth {A B : Type} (f : A -> option B) :
  forall l l' i x,
    Validate.traverse f l = Some l' -> nth_error l i = Some x ->
    exists y, f x = Some y /\ nth_error l' i = Some y.
Proof.
  induction l as [|a l IH]; intros l' i x H Hn; cbn [Validate.traverse] in H.
  - destruct i; discriminate.
  - destruct (f a) as [y |] eqn:Fa; [| discriminate].
    destruct (Validate.traverse f l) as [ys |]; [| discriminate].
    inversion H; subst l'. destruct i as [|i]; cbn in *.
    + inversion Hn; subst a. now exists y.
    + now apply (IH ys i x).
Qed.

(** What a successful attempt of the email stage went through: the merge of
    the follow-ups, then the defaults, then the validation. *)
Lemma email_attempt_steps py_str res d records payload :
  parse_json_safe (response_text res) (Json.JObj [("emails", Json.JArr [])])
  = Json.JObj d ->
  Json.dict_get "emails" d = Some (Json.JArr records) ->
  email_attempt py_str res = Ok payload ->
  has_emails payload = true ->
  exists merged defaulted,
    for_each (merge_followups py_str) records = Ok merged
    /\ for_each set_defaults merged = Ok defaulted
    /\ Validate.traverse Validate.email_item defaulted
       = Some (EmailsPayload.emails payload).
Proof.
  intros Hparse Hemails Hattempt Hnonempty.
  unfold email_attempt in Hattempt. rewrite Hparse in Hattempt.
  unfold merge_all_followups in Hattempt. rewrite Hemails in Hattempt.
  destruct (for_each (merge_followups py_str) records) as [merged | x] eqn:Em;
    [| discriminate].
  cbn [rbind] in Hattempt. unfold set_all_defaults in Hattempt.
  rewrite dict_get_set_same in Hattempt.
  destruct (for_each set_defaults merged) as [defaulted | x] eqn:Ed;
    [| discriminate].
  cbn [rbind] in Hattempt.
  unfold Validate.emails_payload, Validate.construct, Validate.list_field
    in Hattempt.
  rewrite dict_get_set_same in Hattempt.
  exists merged, defaulted. split; [reflexivity | split; [exact Ed |]].
  destruct (Validate.traverse Validate.email_item defaulted) as [items |].
  - cbn in Hattempt. inversion Hattempt. reflexivity.
  - cbn in Hattempt. inversion Hattempt; subst payload. discriminate.
Qed.

(** The first response, when usable, is what the stage returns. *)
Lemma email_writer_first_answer py_str agent companies contacts research
      sender style retries fb tr res payload :
  (forall p, agent (agent_runs tr) p = Ok res) ->
  email_attempt py_str res = Ok payload ->
  has_emails payload = true ->
  fst (run_email_writer py_str agent companies contacts research sender style
         retries fb tr) = Ok payload.
Proof.
  intros Hagent Hattempt Hnonempty. unfold run_email_writer.
  set (prompt := (_ ++ _)%string).
  assert (Hfuel : exists fuel, loop_fuel retries = S fuel).
  { unfold loop_fuel. exists (Z.to_nat (Z.max 1 retries)). lia. }
  destruct Hfuel as [fuel Hfuel]. rewrite Hfuel. cbn [attempts].
  replace (0 <=? Z.max 1 retries)%Z with true by (symmetry; apply Z.leb_le; lia).
  unfold bind, log_info, emit, agent_run, lift, ret.
  rewrite agent_runs_snoc_log, Hagent, Hattempt, Hnonempty.
  cbn beta iota. rewrite Hnonempty. reflexivity.
Qed.

(** ** Where the payload of a stage comes from *)

(** A non-empty payload of the retry loop is what the stage read from one of
    the agent's responses. *)
Lemma attempts_result_origin {P : Type} label agent prompt
      (parse : Response -> result P) nonempty retries :
  forall fuel attempt payload tr p,
    fst (attempts fuel label agent prompt parse nonempty retries attempt
           payload tr) = Ok p ->
    p = payload
    \/ exists k res, agent k prompt = Ok res /\ parse res = Ok p.
Proof.
  induction fuel as [|fuel IH]; intros attempt payload tr p; cbn [attempts];
    destruct (attempt <=? Z.max 1 retries)%Z;
    try (cbn; intros H; inversion H; now left).
  unfold bind, log_info, emit, agent_run, lift.
  destruct (agent _ prompt) as [res | e] eqn:Ea; [| discriminate].
  destruct (parse res) as [p1 | e] eqn:Ep; [| discriminate].
  destruct (nonempty p1).
  - cbn. intros H. inversion H; subst p1. right. eauto.
  - intros H. destruct (IH _ _ _ _ H) as [E | E]; [| now right].
    subst p. right. eauto.
Qed.

(** An attempt of the email stage that yields emails read a mapping whose
    [emails] entry is a list. *)
Lemma email_attempt_shape py_str res payload :
  email_attempt py_str res = Ok payload ->
  has_emails payload = true ->
  exists d records,
    parse_json_safe (response_text res) (Json.JObj [("emails", Json.JArr [])])
    = Json.JObj d
    /\ Json.dict_get "emails" d = Some (Json.JArr records).
Proof.
  unfold email_attempt.
  destruct (parse_json_safe _ _) as [| | | | | | |d]; try discriminate.
  intros H Hne.
  destruct (Json.dict_get "emails" d) as [v |] eqn:E.
  - destruct v as [| | | | |s|l|kv]; try (exists d, l; now split);
      exfalso; unfold merge_all_followups in H; rewrite E in H;
      try discriminate; cbn [rbind] in H; unfold set_all_defaults in H;
      rewrite E in H.
    + destruct s; [| discriminate]. cbn [rbind] in H.
      unfold Validate.emails_payload, Validate.construct, Validate.list_field
        in H.
      rewrite E in H. cbn in H. inversion H; subst payload. discriminate.
    + destruct kv; [| discriminate]. cbn [rbind] in H.
      unfold Validate.emails_payload, Validate.construct, Validate.list_field
        in H.
      rewrite E in H. cbn in H. inversion H; subst payload. discriminate.
  - exfalso. unfold merge_all_followups in H. rewrite E in H.
    cbn [rbind] in H. unfold set_all_defaults in H. rewrite E in H.
    cbn [rbind] in H.
    unfold Validate.emails_payload, Validate.construct, Validate.list_field
      in H.
    rewrite E in H. cbn in H. inversion H; subst payload. discriminate.
Qed.

(** Without the fallback log line, a non-empty payload of the email stage is
    what one attempt read from a response. *)
Lemma email_writer_model_path py_str agent companies contacts research sender
      style retries fb tr payload :
  ~ In TEMPLATE_FALLBACK_LOG tr ->
  fst (run_email_writer py_str agent companies contacts research sender style
         retries fb tr) = Ok payload ->
  ~ In TEMPLATE_FALLBACK_LOG
      (snd (run_email_writer py_str agent companies contacts research sender
              style retries fb tr)) ->
  has_emails payload = true ->
  exists k prompt res,
    agent k prompt = Ok res /\ email_attempt py_str res = Ok payload.
Proof.
  intros Htr. unfold run_email_writer. set (prompt := (_ ++ _)%string).
  unfold bind at 1 3.
  pose proof (attempts_result_origin "EmailWriter" agent prompt
                (email_attempt py_str) has_emails retries (loop_fuel retries)
                0%Z (EmailsPayload.mk []) tr) as Horigin.
  destruct (attempts _ _ _ _ _ _ _ _ _ tr) as [[p1 | e] tr1]; [| discriminate].
  specialize (Horigin p1 eq_refl).
  destruct (negb (has_emails p1) && fb).
  - unfold bind, log_info, emit, ret. cbn [fst snd]. intros _ Hnot _.
    exfalso. apply Hnot. apply in_or_app. right. now left.
  - cbn [ret fst snd]. intros H _ Hne. inversion H; subst p1.
    destruct Horigin as [E | [k [res [H1 H2]]]].
    + subst payload. discriminate.
    + now exists k, prompt, res.
Qed.

(** The scenario of the specification, evaluated: one email whose record
    carries one follow-up. *)
Example followup_scenario_evaluated :
  fst (run_email_writer Samples.sample_py_str
         (Samples.const_agent Samples.followup_answer)
         (CompaniesPayload.mk [Samples.zara]) (ContactsPayload.mk [])
         (ResearchPayload.mk []) Samples.sample_sender "Professional" 1 true [])
  = Ok (EmailsPayload.mk [Samples.followup_item]).
Proof. vm_compute. reflexivity. Qed.

(** ** More on the stages: exhausted retries *)

Lemma emits_not_agent_company_tail exa td od n fb (p : CompaniesPayload.t) :
  emits not_agent_run
    (bind (if negb (has_companies p) && fb
           then bind (log_info "[EXA] Fallback: discover companies via Exa")
                  (fun _ => discover_companies_via_exa exa td od n
                              (Some ["livetrend.co"]) true)
           else ret p)
       (fun payload =>
          ret (if has_companies payload
               then normalize_companies payload (Some ["livetrend.co"])
               else payload))).
Proof.
  apply emits_bind; [| intros a; apply emits_ret].
  destruct (negb (has_companies p) && fb); [| apply emits_ret].
  apply emits_bind; [apply emits_emit; reflexivity | intros _].
  apply discover_emits; reflexivity.
Qed.

Lemma company_finder_exhausts exa agent td od n retries fb tr :
  always_yields agent company_attempt (CompaniesPayload.mk []) ->
  agent_runs (snd (run_company_finder exa agent td od n retries fb tr))
  = agent_runs tr + Z.to_nat (Z.max 1 retries + 1).
Proof.
  intros H. unfold run_company_finder. set (prompt := (_ ++ _)%string).
  rewrite bind_agent_runs by (intros p; apply emits_not_agent_company_tail).
  destruct (attempts_all_empty "CompanyFinder" agent prompt company_attempt
              has_companies retries (CompaniesPayload.mk []) H eq_refl
              (loop_fuel retries) 0%Z tr) as [tr1 [E R]];
    [unfold loop_fuel; lia |].
  rewrite E. cbn [snd]. rewrite R. f_equal. lia.
Qed.

Lemma contact_finder_exhausts exa agent companies td od retries fb tr :
  always_yields agent contact_attempt (ContactsPayload.mk []) ->
  agent_runs (snd (run_contact_finder exa agent companies td od retries fb tr))
  = agent_runs tr + Z.to_nat (Z.max 1 retries + 1).
Proof.
  intros H. unfold run_contact_finder. set (prompt := (_ ++ _)%string).
  rewrite bind_agent_runs.
  - destruct (attempts_all_empty "ContactFinder" agent prompt contact_attempt
                has_contacts retries (ContactsPayload.mk []) H eq_refl
                (loop_fuel retries) 0%Z tr) as [tr1 [E R]];
      [unfold loop_fuel; lia |].
    rewrite E. cbn [snd]. rewrite R. f_equal. lia.
  - intros p. destruct (negb (has_contacts p) && fb); [| apply emits_ret].
    apply emits_bind; [apply emits_emit; reflexivity | intros _].
    apply find_contacts_emits; reflexivity.
Qed.

Lemma research_exhausts exa agent companies retries fb tr :
  always_yields agent research_attempt (ResearchPayload.mk []) ->
  agent_runs (snd (run_research exa agent companies retries fb tr))
  = agent_runs tr + Z.to_nat (Z.max 1 retries + 1).
Proof.
  intros H. unfold run_research. set (prompt := (_ ++ _)%string).
  rewrite bind_agent_runs.
  - destruct (attempts_all_empty "Research" agent prompt research_attempt
                has_research retries (ResearchPayload.mk []) H eq_refl
                (loop_fuel retries) 0%Z tr) as [tr1 [E R]];
      [unfold loop_fuel; lia |].
    rewrite E. cbn [snd]. rewrite R. f_equal. lia.
  - intros p. apply emits_bind; [| intros a; apply emits_ret].
    destruct (negb (has_research p) && fb); [| apply emits_ret].
    apply emits_bind; [apply emits_emit; reflexivity | intros _].
    apply collect_research_emits; reflexivity.
Qed.

Lemma email_writer_exhausts py_str agent companies contacts research sender
      style retries fb tr :
  always_yields agent (email_attempt py_str) (EmailsPayload.mk []) ->
  agent_runs
    (snd (run_email_writer py_str agent companies contacts research sender
            style retries fb tr))
  = agent_runs tr + Z.to_nat (Z.max 1 retries + 1).
Proof.
  intros H. unfold run_email_writer. set (prompt := (_ ++ _)%string).
  rewrite bind_agent_runs.
  - destruct (attempts_all_empty "EmailWriter" agent prompt
                (email_attempt py_str) has_emails retries (EmailsPayload.mk [])
                H eq_refl (loop_fuel retries) 0%Z tr) as [tr1 [E R]];
      [unfold loop_fuel; lia |].
    rewrite E. cbn [snd]. rewrite R. f_equal. lia.
  - intros p. destruct (negb (has_emails p) && fb); [| apply emits_ret].
    apply emits_bind; [apply emits_emit; reflexivity | intros _].
    apply emits_ret.
Qed.

(** X1: when no attempt of a stage yields a record, the stage calls its agent
    exactly [max(1, retries) + 1] times, with or without fallbacks and
    whatever the search client does. *)
Theorem stages_exhaust_their_attempts :
  forall (exa : option ExaClient) (py_str : Json.json -> string)
         (company_agent contact_agent research_agent email_agent : Agent)
         (companies : CompaniesPayload.t) (contacts : ContactsPayload.t)
         (research : ResearchPayload.t) (sender : list (string * string))
         (style td od : string) (n retries : Z) (fb : bool) (tr : trace),
    always_yields company_agent company_attempt (CompaniesPayload.mk []) ->
    always_yields contact_agent contact_attempt (ContactsPayload.mk []) ->
    always_yields research_agent research_attempt (ResearchPayload.mk []) ->
    always_yields email_agent (email_attempt py_str) (EmailsPayload.mk []) ->
    (Z.of_nat
       (runs_added (run_company_finder exa company_agent td od n retries fb) tr)
     = Z.max 1 retries + 1)%Z
    /\ (Z.of_nat
          (runs_added
             (run_contact_finder exa contact_agent companies td od retries fb)
             tr)
        = Z.max 1 retries + 1)%Z
    /\ (Z.of_nat
          (runs_added (run_research exa research_agent companies retries fb) tr)
        = Z.max 1 retries + 1)%Z
    /\ (Z.of_nat
          (runs_added
             (run_email_writer py_str email_agent companies contacts research
                sender style retries fb) tr)
        = Z.max 1 retries + 1)%Z.
Proof.
  intros exa py_str a1 a2 a3 a4 companies contacts research sender style td od
         n retries fb tr H1 H2 H3 H4.
  unfold runs_added.
  rewrite (company_finder_exhausts exa a1 td od n retries fb tr H1).
  rewrite (contact_finder_exhausts exa a2 companies td od retries fb tr H2).
  rewrite (research_exhausts exa a3 companies retries fb tr H3).
  rewrite (email_writer_exhausts py_str a4 companies contacts research sender
             style retries fb tr H4).
  repeat split; lia.
Qed.

Lemma silent_agent_yields_nothing {P : Type} (parse : Response -> result P)
      (empty : P) :
  parse (Samples.text_response EmptyString) = Ok empty ->
  always_yields (Samples.const_agent EmptyString) parse empty.
Proof.
  intros H k prompt. exists (Samples.text_response EmptyString).
  split; [reflexivity | exact H].
Qed.

Lemma stages_exhaust_their_attempts_witness :
  (Z.of_nat
     (runs_added
        (run_company_finder (Some Samples.shop_exa)
           (Samples.const_agent EmptyString) "target" "offer" 5 3 true) [])
   = Z.max 1 3 + 1)%Z
  /\ (Z.of_nat
        (runs_added
           (run_contact_finder (Some Samples.shop_exa)
              (Samples.const_agent EmptyString)
              (CompaniesPayload.mk [Samples.zara]) "target" "offer" 3 true) [])
      = Z.max 1 3 + 1)%Z
  /\ (Z.of_nat
        (runs_added
           (run_research (Some Samples.shop_exa)
              (Samples.const_agent EmptyString)
              (CompaniesPayload.mk [Samples.zara]) 3 true) [])
      = Z.max 1 3 + 1)%Z
  /\ (Z.of_nat
        (runs_added
           (run_email_writer Samples.sample_py_str
              (Samples.const_agent EmptyString)
              (CompaniesPayload.mk [Samples.zara]) (ContactsPayload.mk [])
              (ResearchPayload.mk []) Samples.sample_sender "Professional" 3
              true) [])
      = Z.max 1 3 + 1)%Z.
Proof.
  apply (stages_exhaust_their_attempts (Some Samples.shop_exa)
           Samples.sample_py_str);
    apply silent_agent_yields_nothing; vm_compute; reflexivity.
Defined.

(** ** More on the stages: the first attempt *)

Lemma loop_fuel_S (retries : Z) :
  loop_fuel retries = S (Z.to_nat (Z.max 1 retries)).
Proof. unfold loop_fuel. lia. Qed.

(** The first iteration of the loop, spelled out. *)
Lemma attempts_first_iteration {P : Type} label agent prompt
      (parse : Response -> result P) nonempty retries payload tr :
  attempts (loop_fuel retries) label agent prompt parse nonempty retries 0
    payload tr
  = let tr2 := (tr ++ [EvLog ("[OPENAI] " ++ label
                               ++ ": prompt sent (attempt 1)");
                       EvAgentRun prompt])%list in
    match agent (agent_runs tr) prompt with
    | Raise e => (Raise e, tr2)
    | Ok res =>
        match parse res with
        | Raise e => (Raise e, tr2)
        | Ok p =>
            if nonempty p then (Ok p, tr2)
            else attempts (Z.to_nat (Z.max 1 retries)) label agent prompt parse
                   nonempty retries 1 p tr2
        end
    end.
Proof.
  rewrite loop_fuel_S. cbn [attempts].
  replace (0 <=? Z.max 1 retries)%Z with true by (symmetry; apply Z.leb_le; lia).
  unfold bind, log_info, emit, agent_run, lift, ret.
  rewrite agent_runs_snoc_log. rewrite <- app_assoc. cbn [app].
  change (PyStr.of_Z (0 + 1)) with "1".
  destruct (agent (agent_runs tr) prompt) as [res | e]; [| reflexivity].
  destruct (parse res) as [p | e]; [| reflexivity].
  destruct (nonempty p); reflexivity.
Qed.

(** X2: when the first answer of the company agent holds at least one valid
    company, [run_company_finder] calls the agent once, never searches nor
    falls back, and returns that answer normalized, even when normalization
    leaves no company. *)
Theorem first_usable_answer_ends_company_discovery :
  forall (exa : option ExaClient) (agent : Agent) (td od : string)
         (n retries : Z) (fb : bool) (tr : trace) (res : Response)
         (p : CompaniesPayload.t),
    (forall q, agent (agent_runs tr) q = Ok res) ->
    company_attempt res = Ok p ->
    has_companies p = true ->
    exists prompt,
      run_company_finder exa agent td od n retries fb tr
      = (Ok (normalize_companies p (Some ["livetrend.co"])),
         (tr ++ [EvLog "[OPENAI] CompanyFinder: prompt sent (attempt 1)";
                 EvAgentRun prompt])%list).
Proof.
  intros exa agent td od n retries fb tr res p Hagent Hparse Hne.
  unfold run_company_finder. set (prompt := (_ ++ _)%string).
  exists prompt. unfold bind at 1.
  rewrite attempts_first_iteration. cbn zeta.
  rewrite Hagent, Hparse.
  repeat first [rewrite Hne
                | progress cbv beta iota zeta delta [bind ret negb andb]].
  reflexivity.
Qed.

Lemma first_usable_answer_ends_company_discovery_witness :
  exists prompt,
    run_company_finder (Some Samples.shop_exa)
      (Samples.const_agent Samples.excluded_company_answer)
      "target" "offer" 5 1 true []
    = (Ok (CompaniesPayload.mk []),
       [EvLog "[OPENAI] CompanyFinder: prompt sent (attempt 1)";
        EvAgentRun prompt]).
Proof.
  apply (first_usable_answer_ends_company_discovery (Some Samples.shop_exa)
           (Samples.const_agent Samples.excluded_company_answer)
           "target" "offer" 5 1 true []
           (Samples.text_response Samples.excluded_company_answer)
           (CompaniesPayload.mk
              [Company.mk "Livetrend" "https://livetrend.co" "fashion trends"])).
  - intros q. reflexivity.
  - vm_compute. reflexivity.
  - reflexivity.
Defined.

(** X3: when the first answer of the agent holds at least one valid record,
    the contact, research and email stages call the agent once and never
    search nor fall back; contacts and emails are returned as validated,
    research is returned cleaned. *)
Theorem first_usable_answer_ends_stage :
  forall (exa : option ExaClient) (py_str : Json.json -> string)
         (agent : Agent) (companies : CompaniesPayload.t)
         (contacts : ContactsPayload.t) (research : ResearchPayload.t)
         (sender : list (string * string)) (style td od : string)
         (retries : Z) (fb : bool) (tr : trace) (res : Response),
    (forall q, agent (agent_runs tr) q = Ok res) ->
    (forall p, contact_attempt res = Ok p -> has_contacts p = true ->
               exists prompt,
                 run_contact_finder exa agent companies td od retries fb tr
                 = (Ok p,
                    (tr ++ [EvLog "[OPENAI] ContactFinder: prompt sent (attempt 1)";
                            EvAgentRun prompt])%list))
    /\ (forall p, research_attempt res = Ok p -> has_research p = true ->
                  exists prompt,
                    run_research exa agent companies retries fb tr
                    = (Ok (clean_research p),
                       (tr ++ [EvLog "[OPENAI] Research: prompt sent (attempt 1)";
                               EvAgentRun prompt])%list))
    /\ (forall p, email_attempt py_str res = Ok p -> has_emails p = true ->
                  exists prompt,
                    run_email_writer py_str agent companies contacts research
                      sender style retries fb tr
                    = (Ok p,
                       (tr ++ [EvLog "[OPENAI] EmailWriter: prompt sent (attempt 1)";
                               EvAgentRun prompt])%list)).
Proof.
  intros exa py_str agent companies contacts research sender style td od
         retries fb tr res Hagent.
  split; [| split]; intros p Hparse Hne.
  - unfold run_contact_finder. set (prompt := (_ ++ _)%string).
    exists prompt. unfold bind at 1.
    rewrite attempts_first_iteration. cbn zeta.
    rewrite Hagent, Hparse.
    repeat first [rewrite Hne
                | progress cbv beta iota zeta delta [bind ret negb andb]].
    reflexivity.
  - unfold run_research. set (prompt := (_ ++ _)%string).
    exists prompt. unfold bind at 1.
    rewrite attempts_first_iteration. cbn zeta.
    rewrite Hagent, Hparse.
    repeat first [rewrite Hne
                | progress cbv beta iota zeta delta [bind ret negb andb]].
    reflexivity.
  - unfold run_email_writer. set (prompt := (_ ++ _)%string).
    exists prompt. unfold bind at 1.
    rewrite attempts_first_iteration. cbn zeta.
    rewrite Hagent, Hparse.
    repeat first [rewrite Hne
                | progress cbv beta iota zeta delta [bind ret negb andb]].
    reflexivity.
Qed.

Lemma first_usable_answer_ends_stage_witness :
  exists prompt,
    run_contact_finder (Some Samples.shop_exa)
      (Samples.const_agent Samples.three_contacts_answer)
      (CompaniesPayload.mk [Samples.zara]) "target" "offer" 2 true []
    = (Ok (ContactsPayload.mk
             [ContactsPerCompany.mk "Zara"
                [Contact.mk "Ann Lee" "Founder" None (Some false) None;
                 Contact.mk "Bo Chan" "GTM Lead" None (Some false) None;
                 Contact.mk "Cy Doe" "Sales" None (Some false) None]]),
       [EvLog "[OPENAI] ContactFinder: prompt sent (attempt 1)";
        EvAgentRun prompt]).
Proof.
  apply (proj1 (first_usable_answer_ends_stage (Some Samples.shop_exa)
                  Samples.sample_py_str
                  (Samples.const_agent Samples.three_contacts_answer)
                  (CompaniesPayload.mk [Samples.zara]) (ContactsPayload.mk [])
                  (ResearchPayload.mk []) Samples.sample_sender "Professional"
                  "target" "offer" 2 true []
                  (Samples.text_response Samples.three_contacts_answer)
                  (fun q => eq_refl))).
  - vm_compute. reflexivity.
  - reflexivity.
Defined.

(** X4: no stage catches an exception of [agent.run]: when the first call
    raises, each stage (quality check included, on a non-empty email list)
    ends at once with that exception, without a further attempt, a search or
    a fallback. *)
Theorem agent_exception_ends_stage :
  forall (exa : option ExaClient) (py_str : Json.json -> string)
         (agent : Agent) (companies : CompaniesPayload.t)
         (contacts : ContactsPayload.t) (research : ResearchPayload.t)
         (emails : EmailsPayload.t) (sender : list (string * string))
         (style td od : string) (n retries : Z) (fb : bool) (tr : trace)
         (e : exn),
    (forall q, agent (agent_runs tr) q = Raise e) ->
    (exists prompt,
        run_company_finder exa agent td od n retries fb tr
        = (Raise e,
           (tr ++ [EvLog "[OPENAI] CompanyFinder: prompt sent (attempt 1)";
                   EvAgentRun prompt])%list))
    /\ (exists prompt,
           run_contact_finder exa agent companies td od retries fb tr
           = (Raise e,
              (tr ++ [EvLog "[OPENAI] ContactFinder: prompt sent (attempt 1)";
                      EvAgentRun prompt])%list))
    /\ (exists prompt,
           run_research exa agent companies retries fb tr
           = (Raise e,
              (tr ++ [EvLog "[OPENAI] Research: prompt sent (attempt 1)";
                      EvAgentRun prompt])%list))
    /\ (exists prompt,
           run_email_writer py_str agent companies contacts research sender
             style retries fb tr
           = (Raise e,
              (tr ++ [EvLog "[OPENAI] EmailWriter: prompt sent (attempt 1)";
                      EvAgentRun prompt])%list))
    /\ (EmailsPayload.emails emails <> [] ->
        exists prompt,
          run_quality_check agent emails tr
          = (Raise e, (tr ++ [EvAgentRun prompt])%list)).
Proof.
  intros exa py_str agent companies contacts research emails sender style td
         od n retries fb tr e Hagent.
  repeat split.
  - unfold run_company_finder. set (prompt := (_ ++ _)%string).
    exists prompt. unfold bind at 1.
    rewrite attempts_first_iteration. cbn zeta. now rewrite Hagent.
  - unfold run_contact_finder. set (prompt := (_ ++ _)%string).
    exists prompt. unfold bind at 1.
    rewrite attempts_first_iteration. cbn zeta. now rewrite Hagent.
  - unfold run_research. set (prompt := (_ ++ _)%string).
    exists prompt. unfold bind at 1.
    rewrite attempts_first_iteration. cbn zeta. now rewrite Hagent.
  - unfold run_email_writer. set (prompt := (_ ++ _)%string).
    exists prompt. unfold bind at 1.
    rewrite attempts_first_iteration. cbn zeta. now rewrite Hagent.
  - intros Hne. unfold run_quality_check.
    destruct (EmailsPayload.emails emails) as [|x l] eqn:E;
      [now contradiction Hne |].
    set (prompt := (_ ++ _)%string). exists prompt.
    unfold bind, agent_run. now rewrite Hagent.
Qed.

Lemma agent_exception_ends_stage_witness :
  exists prompt,
    run_research (Some Samples.shop_exa) Samples.failing_agent
      (CompaniesPayload.mk [Samples.zara]) 3 true []
    = (Raise CapabilityError,
       [EvLog "[OPENAI] Research: prompt sent (attempt 1)"; EvAgentRun prompt]).
Proof.
  apply (proj1 (proj2 (proj2
           (agent_exception_ends_stage (Some Samples.shop_exa)
              Samples.sample_py_str Samples.failing_agent
              (CompaniesPayload.mk [Samples.zara]) (ContactsPayload.mk [])
              (ResearchPayload.mk []) (EmailsPayload.mk [])
              Samples.sample_sender "Professional" "target" "offer" 5 3 true []
              CapabilityError (fun q => eq_refl))))).
Defined.

Lemma loads_parse_json_safe text default v :
  Json.loads text = Some v -> parse_json_safe text default = v.
Proof. intros H. rewrite parse_json_safe_eq, H. reflexivity. Qed.

(** X5: an answer that is valid JSON but no mapping at top level (a list, a
    string, a number, [null]) is not treated as an empty payload: company,
    contact and research discovery end with [TypeError] and email writing
    with [AttributeError], after one agent call and without retry or
    fallback. *)
Theorem non_mapping_answer_raises :
  forall (exa : option ExaClient) (py_str : Json.json -> string)
         (agent : Agent) (companies : CompaniesPayload.t)
         (contacts : ContactsPayload.t) (research : ResearchPayload.t)
         (sender : list (string * string)) (style td od : string)
         (n retries : Z) (fb : bool) (tr : trace) (res : Response)
         (v : Json.json),
    (forall q, agent (agent_runs tr) q = Ok res) ->
    Json.loads (response_text res) = Some v ->
    (forall d, v <> Json.JObj d) ->
    (exists prompt,
        run_company_finder exa agent td od n retries fb tr
        = (Raise TypeError,
           (tr ++ [EvLog "[OPENAI] CompanyFinder: prompt sent (attempt 1)";
                   EvAgentRun prompt])%list))
    /\ (exists prompt,
           run_contact_finder exa agent companies td od retries fb tr
           = (Raise TypeError,
              (tr ++ [EvLog "[OPENAI] ContactFinder: prompt sent (attempt 1)";
                      EvAgentRun prompt])%list))
    /\ (exists prompt,
           run_research exa agent companies retries fb tr
           = (Raise TypeError,
              (tr ++ [EvLog "[OPENAI] Research: prompt sent (attempt 1)";
                      EvAgentRun prompt])%list))
    /\ (exists prompt,
           run_email_writer py_str agent companies contacts research sender
             style retries fb tr
           = (Raise AttributeError,
              (tr ++ [EvLog "[OPENAI] EmailWriter: prompt sent (attempt 1)";
                      EvAgentRun prompt])%list)).
Proof.
  intros exa py_str agent companies contacts research sender style td od n
         retries fb tr res v Hagent Hloads Hv.
  assert (Hc : company_attempt res = Raise TypeError).
  { unfold company_attempt. rewrite (loads_parse_json_safe _ _ v Hloads).
    destruct v; try reflexivity. now contradiction (Hv items). }
  assert (Ht : contact_attempt res = Raise TypeError).
  { unfold contact_attempt. rewrite (loads_parse_json_safe _ _ v Hloads).
    destruct v; try reflexivity. now contradiction (Hv items). }
  assert (Hr : research_attempt res = Raise TypeError).
  { unfold research_attempt. rewrite (loads_parse_json_safe _ _ v Hloads).
    destruct v; try reflexivity. now contradiction (Hv items). }
  assert (He : email_attempt py_str res = Raise AttributeError).
  { unfold email_attempt. rewrite (loads_parse_json_safe _ _ v Hloads).
    destruct v; try reflexivity. now contradiction (Hv items). }
  repeat split.
  - unfold run_company_finder. set (prompt := (_ ++ _)%string).
    exists prompt. unfold bind at 1.
    rewrite attempts_first_iteration. cbn zeta. now rewrite Hagent, Hc.
  - unfold run_contact_finder. set (prompt := (_ ++ _)%string).
    exists prompt. unfold bind at 1.
    rewrite attempts_first_iteration. cbn zeta. now rewrite Hagent, Ht.
  - unfold run_research. set (prompt := (_ ++ _)%string).
    exists prompt. unfold bind at 1.
    rewrite attempts_first_iteration. cbn zeta. now rewrite Hagent, Hr.
  - unfold run_email_writer. set (prompt := (_ ++ _)%string).
    exists prompt. unfold bind at 1.
    rewrite attempts_first_iteration. cbn zeta. now rewrite Hagent, He.
Qed.

Lemma non_mapping_answer_raises_witness :
  exists prompt,
    run_company_finder None (Samples.const_agent "[]") "target" "offer" 5 1
      true []
    = (Raise TypeError,
       [EvLog "[OPENAI] CompanyFinder: prompt sent (attempt 1)";
        EvAgentRun prompt]).
Proof.
  apply (proj1 (non_mapping_answer_raises None Samples.sample_py_str
                  (Samples.const_agent "[]") (CompaniesPayload.mk [])
                  (ContactsPayload.mk []) (ResearchPayload.mk [])
                  Samples.sample_sender "Professional" "target" "offer" 5 1
                  true [] (Samples.text_response "[]") (Json.JArr [])
                  (fun q => eq_refl) eq_refl
                  (fun d H => ltac:(discriminate H)))).
Defined.

(** ** More on the stages: fallbacks disabled, prompts *)

(** X6: with fallbacks disabled a stage only logs its attempts and calls its
    agent: whatever the answers and the search client, it adds no search and
    no fallback log line to the trace. *)
Theorem fallbacks_disabled_only_attempts :
  forall (exa : option ExaClient) (py_str : Json.json -> string)
         (agent : Agent) (companies : CompaniesPayload.t)
         (contacts : ContactsPayload.t) (research : ResearchPayload.t)
         (sender : list (string * string)) (style td od : string)
         (n retries : Z),
    emits is_attempt_event (run_company_finder exa agent td od n retries false)
    /\ emits is_attempt_event
         (run_contact_finder exa agent companies td od retries false)
    /\ emits is_attempt_event (run_research exa agent companies retries false)
    /\ emits is_attempt_event
         (run_email_writer py_str agent companies contacts research sender
            style retries false).
Proof.
  intros. repeat split.
  - unfold run_company_finder.
    apply emits_bind; [apply attempts_emits_attempt_events | intros p].
    rewrite andb_false_r.
    apply emits_bind; intros; apply emits_ret.
  - unfold run_contact_finder.
    apply emits_bind; [apply attempts_emits_attempt_events | intros p].
    rewrite andb_false_r. apply emits_ret.
  - unfold run_research.
    apply emits_bind; [apply attempts_emits_attempt_events | intros p].
    rewrite andb_false_r.
    apply emits_bind; intros; apply emits_ret.
  - unfold run_email_writer.
    apply emits_bind; [apply attempts_emits_attempt_events | intros p].
    rewrite andb_false_r. apply emits_ret.
Qed.

Lemma attempts_emits_run_with {P : Type} label agent prompt
      (parse : Response -> result P) nonempty retries :
  forall fuel attempt payload,
    emits (run_with prompt)
      (attempts fuel label agent prompt parse nonempty retries attempt payload).
Proof.
  induction fuel as [|fuel IH]; intros attempt payload; cbn [attempts];
    destruct (attempt <=? Z.max 1 retries)%Z; try apply emits_ret.
  apply emits_bind; [apply emits_emit; reflexivity | intros _].
  apply emits_bind.
  - apply emits_agent_run. cbn [run_with]. apply String.eqb_refl.
  - intros res. apply emits_bind; [apply emits_lift | intros p].
    destruct (nonempty p); [apply emits_ret | apply IH].
Qed.

Lemma run_with_prompts (prompt : string) (evs : trace) :
  forallb (run_with prompt) evs = true -> Forall (eq prompt) (prompts_of evs).
Proof.
  induction evs as [|e evs IH]; intros H; cbn [prompts_of]; [constructor |].
  cbn [forallb] in H. apply andb_true_iff in H. destruct H as [He Hevs].
  destruct e; try (now apply IH).
  constructor; [| now apply IH].
  cbn [run_with] in He. apply String.eqb_eq in He. now symmetry.
Qed.

Lemma emits_same_prompt {A : Type} (prompt : string) (c : M A) :
  emits (run_with prompt) c ->
  forall tr, exists evs,
    snd (c tr) = (tr ++ evs)%list /\ Forall (eq prompt) (prompts_of evs).
Proof.
  intros H tr. destruct (H tr) as [evs [E F]]. exists evs.
  split; [exact E | now apply run_with_prompts].
Qed.

(** X7: every attempt of a stage sends the same prompt: the prompt is fixed
    by the inputs of the stage and does not depend on the agent, on its
    earlier answers or on the attempt number. *)
Theorem every_attempt_sends_the_same_prompt :
  forall (exa : option ExaClient) (py_str : Json.json -> string)
         (companies : CompaniesPayload.t) (contacts : ContactsPayload.t)
         (research : ResearchPayload.t) (sender : list (string * string))
         (style td od : string) (n retries : Z) (fb : bool),
    (exists prompt, forall agent tr, exists evs,
        snd (run_company_finder exa agent td od n retries fb tr)
        = (tr ++ evs)%list
        /\ Forall (eq prompt) (prompts_of evs))
    /\ (exists prompt, forall agent tr, exists evs,
           snd (run_contact_finder exa agent companies td od retries fb tr)
           = (tr ++ evs)%list
           /\ Forall (eq prompt) (prompts_of evs))
    /\ (exists prompt, forall agent tr, exists evs,
           snd (run_research exa agent companies retries fb tr)
           = (tr ++ evs)%list
           /\ Forall (eq prompt) (prompts_of evs))
    /\ (exists prompt, forall agent tr, exists evs,
           snd (run_email_writer py_str agent companies contacts research
                  sender style retries fb tr)
           = (tr ++ evs)%list
           /\ Forall (eq prompt) (prompts_of evs)).
Proof.
  intros. repeat split.
  - unfold run_company_finder. set (prompt := (_ ++ _)%string).
    exists prompt. intros agent. apply emits_same_prompt.
    apply emits_bind; [apply attempts_emits_run_with | intros p].
    apply emits_bind; [| intros a; apply emits_ret].
    destruct (negb (has_companies p) && fb); [| apply emits_ret].
    apply emits_bind; [apply emits_emit; reflexivity | intros _].
    apply discover_emits; reflexivity.
  - unfold run_contact_finder. set (prompt := (_ ++ _)%string).
    exists prompt. intros agent. apply emits_same_prompt.
    apply emits_bind; [apply attempts_emits_run_with | intros p].
    destruct (negb (has_contacts p) && fb); [| apply emits_ret].
    apply emits_bind; [apply emits_emit; reflexivity | intros _].
    apply find_contacts_emits; reflexivity.
  - unfold run_research. set (prompt := (_ ++ _)%string).
    exists prompt. intros agent. apply emits_same_prompt.
    apply emits_bind; [apply attempts_emits_run_with | intros p].
    apply emits_bind; [| intros a; apply emits_ret].
    destruct (negb (has_research p) && fb); [| apply emits_ret].
    apply emits_bind; [apply emits_emit; reflexivity | intros _].
    apply collect_research_emits; reflexivity.
  - unfold run_email_writer. set (prompt := (_ ++ _)%string).
    exists prompt. intros agent. apply emits_same_prompt.
    apply emits_bind; [apply attempts_emits_run_with | intros p].
    destruct (negb (has_emails p) && fb); [| apply emits_ret].
    apply emits_bind; [apply emits_emit; reflexivity | intros _].
    apply emits_ret.
Qed.

(** ** More on the stages: what they return *)

Lemma targets_of_nonempty contacts comp : targets_of contacts comp <> [].
Proof.
  unfold targets_of. destruct (pydict_get _ _) as [[|ct cts] |]; discriminate.
Qed.

Lemma template_emails_nonempty companies contacts research sender style :
  CompaniesPayload.companies companies <> [] ->
  has_emails
    (generate_template_emails companies contacts research sender style) = true.
Proof.
  unfold generate_template_emails, has_emails. cbn [EmailsPayload.emails].
  destruct (CompaniesPayload.companies companies) as [|comp cs];
    [intros H; now contradiction H | intros _].
  cbn [flat_map].
  destruct (targets_of contacts comp) as [|ct cts] eqn:E;
    [now apply targets_of_nonempty in E | reflexivity].
Qed.

(** X8: with fallbacks enabled and at least one company, the email stage
    never returns an empty payload: when it returns at all, it returns the
    emails of the model or the template emails, at least one. *)
Theorem email_stage_never_empty_with_fallbacks :
  forall (py_str : Json.json -> string) (agent : Agent)
         (companies : CompaniesPayload.t) (contacts : ContactsPayload.t)
         (research : ResearchPayload.t) (sender : list (string * string))
         (style : string) (retries : Z) (tr : trace) (p : EmailsPayload.t),
    CompaniesPayload.companies companies <> [] ->
    fst (run_email_writer py_str agent companies contacts research sender style
           retries true tr) = Ok p ->
    EmailsPayload.emails p <> [].
Proof.
  intros py_str agent companies contacts research sender style retries tr p
         Hcomp.
  unfold run_email_writer. unfold bind at 1.
  destruct (attempts _ _ _ _ _ _ _ _ _ tr) as [[p1 | e] tr1]; [| discriminate].
  rewrite andb_true_r. destruct (has_emails p1) eqn:E; cbn [negb].
  - cbn [ret fst]. intros H. inversion H; subst p1.
    unfold has_emails in E. destruct (EmailsPayload.emails p); discriminate.
  - unfold bind, log_info, emit, ret. cbn [fst]. intros H. inversion H.
    pose proof (template_emails_nonempty companies contacts research sender
                  style Hcomp) as T.
    unfold has_emails in T.
    destruct (EmailsPayload.emails
                (generate_template_emails companies contacts research sender
                   style)); discriminate.
Qed.

Lemma email_stage_never_empty_with_fallbacks_witness :
  EmailsPayload.emails
    (generate_template_emails (CompaniesPayload.mk [Samples.zara])
       (ContactsPayload.mk []) (ResearchPayload.mk []) Samples.sample_sender
       "Cold")
  <> [].
Proof.
  apply (email_stage_never_empty_with_fallbacks Samples.sample_py_str
           (Samples.const_agent EmptyString)
           (CompaniesPayload.mk [Samples.zara]) (ContactsPayload.mk [])
           (ResearchPayload.mk []) Samples.sample_sender "Cold" 1 []).
  - discriminate.
  - vm_compute. reflexivity.
Defined.

(** ** Cleaning of research *)

Lemma clean_research_companies (p : ResearchPayload.t) :
  ResearchPayload.companies (clean_research p)
  = map (fun rc => ResearchPerCompany.mk (ResearchPerCompany.company rc)
                     (cleaned_insights (ResearchPerCompany.insights rc)))
        (ResearchPayload.companies p).
Proof. reflexivity. Qed.

Lemma unique_loop_keys : forall filtered unique seen,
  NoDup (map insight_key unique) ->
  (forall u, In u unique -> In (insight_key u) seen) ->
  NoDup (map insight_key (unique_loop filtered unique seen)).
Proof.
  induction filtered as [|p filtered IH]; intros unique seen Hnd Hseen;
    cbn [unique_loop]; [assumption |].
  fold (insight_key p).
  destruct (PyStr.mem (insight_key p) seen) eqn:E; [now apply IH |].
  apply mem_false_iff in E. apply IH.
  - rewrite map_app. cbn [map]. apply NoDup_app; [assumption | |].
    + constructor; [intros [] | constructor].
    + intros k Hk [Hk' | []]. subst k. apply E.
      apply in_map_iff in Hk. destruct Hk as [u [Hu Hin]].
      rewrite <- Hu. now apply Hseen.
  - intros u Hu. apply in_app_iff in Hu. destruct Hu as [Hu | [Hu | []]].
    + right. now apply Hseen.
    + left. now subst u.
Qed.

Lemma NoDup_firstn_of {A : Type} (n : nat) (l : list A) :
  NoDup l -> NoDup (firstn n l).
Proof.
  revert n. induction l as [|x l IH]; intros n H; destruct n; cbn;
    try constructor.
  - inversion H; subst. intros Hin. apply in_firstn in Hin. contradiction.
  - inversion H; subst. now apply IH.
Qed.

Lemma unique_loop_sub : forall filtered unique seen x,
  In x (unique_loop filtered unique seen) -> In x unique \/ In x filtered.
Proof.
  induction filtered as [|p filtered IH]; intros unique seen x H;
    cbn [unique_loop] in H; [now left |].
  destruct (PyStr.mem _ seen).
  - destruct (IH _ _ _ H) as [H1 | H1]; [now left | right; now right].
  - destruct (IH _ _ _ H) as [H1 | H1]; [| right; now right].
    apply in_app_iff in H1. destruct H1 as [H1 | [H1 | []]];
      [now left | right; left; assumption].
Qed.

Lemma cleaned_insights_sound (insights : list string) :
  length (cleaned_insights insights) <= 4
  /\ NoDup (map insight_key (cleaned_insights insights))
  /\ Forall (fun s => Re.found _BAD_SNIPPET_RE s = false
                      /\ Re.found _FASHION_WORDS s = true
                      /\ In s insights)
            (cleaned_insights insights).
Proof.
  unfold cleaned_insights. repeat split.
  - apply firstn_le_length.
  - rewrite <- firstn_map. apply NoDup_firstn_of.
    apply unique_loop_keys; [constructor | intros u []].
  - rewrite Forall_forall. intros s Hs. apply in_firstn in Hs.
    apply unique_loop_sub in Hs. destruct Hs as [[] | Hs].
    apply filter_In in Hs. destruct Hs as [Hin Hok].
    apply andb_true_iff in Hok. destruct Hok as [Hbad Hfashion].
    apply negb_true_iff in Hbad. now repeat split.
Qed.

Lemma research_result exa agent companies retries fb tr p :
  fst (run_research exa agent companies retries fb tr) = Ok p ->
  ResearchPayload.companies p = [] \/ exists q, p = clean_research q.
Proof.
  unfold run_research. unfold bind at 1.
  destruct (attempts _ _ _ _ _ _ _ _ _ tr) as [[p1 | e] tr1]; [| discriminate].
  unfold bind at 1.
  match goal with
  | |- fst (match ?x with _ => _ end) = _ -> _ =>
      destruct x as [[p2 | e] tr2]; [| discriminate]
  end.
  cbn [fst ret]. intros H. inversion H as [Hp].
  unfold has_research.
  destruct (ResearchPayload.companies p2) eqn:E; [left; assumption |].
  right. now exists p2.
Qed.

(** X9: whatever path produced it, every payload that [run_research] returns
    is cleaned: each company has at most 4 insights, no two of them equal
    after stripping and lower-casing, each containing a fashion keyword and
    no noise word. *)
Theorem research_results_are_cleaned :
  forall (exa : option ExaClient) (agent : Agent)
         (companies : CompaniesPayload.t) (retries : Z) (fb : bool)
         (tr : trace) (p : ResearchPayload.t),
    fst (run_research exa agent companies retries fb tr) = Ok p ->
    Forall (fun rc =>
              length (ResearchPerCompany.insights rc) <= 4
              /\ NoDup (map insight_key (ResearchPerCompany.insights rc))
              /\ Forall (fun s => Re.found _BAD_SNIPPET_RE s = false
                                  /\ Re.found _FASHION_WORDS s = true)
                        (ResearchPerCompany.insights rc))
           (ResearchPayload.companies p).
Proof.
  intros exa agent companies retries fb tr p H.
  destruct (research_result _ _ _ _ _ _ _ H) as [E | [q E]].
  - rewrite E. constructor.
  - subst p. rewrite clean_research_companies, Forall_map.
    rewrite Forall_forall. intros rc _. cbn [ResearchPerCompany.insights].
    destruct (cleaned_insights_sound (ResearchPerCompany.insights rc))
      as [H1 [H2 H3]].
    repeat split; try assumption.
    eapply Forall_impl; [| exact H3]. intros s [Ha [Hb _]]. now split.
Qed.

Lemma research_results_are_cleaned_witness :
  Forall (fun rc =>
            length (ResearchPerCompany.insights rc) <= 4
            /\ NoDup (map insight_key (ResearchPerCompany.insights rc))
            /\ Forall (fun s => Re.found _BAD_SNIPPET_RE s = false
                                /\ Re.found _FASHION_WORDS s = true)
                      (ResearchPerCompany.insights rc))
         [ResearchPerCompany.mk "Zara" ["New collection"; "Retail trend"]].
Proof.
  apply (research_results_are_cleaned None
           (Samples.const_agent Samples.repeated_insights_answer)
           (CompaniesPayload.mk [Samples.zara]) 1 true []
           (ResearchPayload.mk
              [ResearchPerCompany.mk "Zara" ["New collection"; "Retail trend"]])).
  vm_compute. reflexivity.
Defined.

Lemma unique_loop_distinct : forall l unique seen,
  NoDup (map insight_key l) ->
  (forall x, In x l -> ~ In (insight_key x) seen) ->
  unique_loop l unique seen = (unique ++ l)%list.
Proof.
  induction l as [|p l IH]; intros unique seen Hnd Hseen; cbn [unique_loop].
  - now rewrite app_nil_r.
  - fold (insight_key p).
    assert (E : PyStr.mem (insight_key p) seen = false).
    { apply mem_false_iff. apply Hseen. now left. }
    rewrite E. cbn [map] in Hnd. inversion Hnd as [| k ks Hk Hks]; subst.
    rewrite IH.
    + now rewrite <- app_assoc.
    + assumption.
    + intros x Hx [Hin | Hin].
      * apply Hk. rewrite Hin. now apply in_map.
      * apply (Hseen x); [now right | assumption].
Qed.

Lemma filter_all {A : Type} (f : A -> bool) (l : list A) :
  Forall (fun x => f x = true) l -> filter f l = l.
Proof.
  induction l as [|x l IH]; intros H; cbn [filter]; [reflexivity |].
  inversion H; subst. rewrite H2, IH; [reflexivity | assumption].
Qed.

Lemma cleaned_insights_idempotent (insights : list string) :
  cleaned_insights (cleaned_insights insights) = cleaned_insights insights.
Proof.
  destruct (cleaned_insights_sound insights) as [Hlen [Hnd Hall]].
  set (l := cleaned_insights insights) in *.
  unfold cleaned_insights at 1.
  rewrite filter_all.
  - rewrite unique_loop_distinct; [| assumption | intros x _ []].
    cbn [app]. apply firstn_all2. exact Hlen.
  - eapply Forall_impl; [| exact Hall].
    intros s [Ha [Hb _]]. now rewrite Ha, Hb.
Qed.

(** X10: [clean_research] is idempotent, keeps one entry per company with its
    name, in order, and keeps only insights the company already had. *)
Theorem clean_research_idempotent :
  forall (p : ResearchPayload.t),
    clean_research (clean_research p) = clean_research p
    /\ map ResearchPerCompany.company
           (ResearchPayload.companies (clean_research p))
       = map ResearchPerCompany.company (ResearchPayload.companies p)
    /\ Forall2 (fun rc rc' =>
                  incl (ResearchPerCompany.insights rc')
                       (ResearchPerCompany.insights rc))
               (ResearchPayload.companies p)
               (ResearchPayload.companies (clean_research p)).
Proof.
  intros [cs]. repeat split.
  - unfold clean_research at 1. rewrite clean_research_companies.
    unfold clean_research. cbn [ResearchPayload.companies]. f_equal.
    rewrite map_map. apply map_ext. intros rc.
    cbn [ResearchPerCompany.company ResearchPerCompany.insights].
    f_equal. apply cleaned_insights_idempotent.
  - rewrite clean_research_companies, map_map. reflexivity.
  - rewrite clean_research_companies. cbn [ResearchPayload.companies].
    induction cs as [|rc cs IH]; cbn [map]; constructor; [| exact IH].
    cbn [ResearchPerCompany.insights]. intros s Hs.
    destruct (cleaned_insights_sound (ResearchPerCompany.insights rc))
      as [_ [_ H3]].
    rewrite Forall_forall in H3. now apply H3.
Qed.

(** ** The search fallbacks *)

Lemma searches_snoc_log tr m : searches (tr ++ [EvLog m])%list = searches tr.
Proof. rewrite searches_app. cbn. lia. Qed.

Lemma searches_snoc_search tr q n :
  searches (tr ++ [EvSearch q n])%list = S (searches tr).
Proof. rewrite searches_app. cbn. lia. Qed.

Lemma searches_snoc_contents tr q n :
  searches (tr ++ [EvSearchAndContents q n])%list = S (searches tr).
Proof. rewrite searches_app. cbn. lia. Qed.

Lemma contact_items_nobody : forall items role domain contacts,
  fst (contact_items items role domain contacts) = contacts.
Proof.
  intros [|r items] role domain contacts; cbn [contact_items]; [reflexivity |].
  unfold rbind, _infer_person_from_title.
  destruct (item_field r FTitle); [| reflexivity].
  destruct (item_field r FUrl); reflexivity.
Qed.

Lemma contact_roles_nobody exa brand domain debug :
  forall roles tr,
    exists tr',
      contact_roles exa roles brand domain debug [] tr = (Ok [], tr')
      /\ searches tr' = searches tr + length roles.
Proof.
  induction roles as [|role roles IH]; intros tr; cbn [contact_roles].
  - exists tr. split; [reflexivity | cbn; lia].
  - unfold bind at 1.
    assert (Hlog : exists tr0,
               (if debug
                then log_info ("[EXA] search contact query: " ++ role ++ " "
                               ++ brand ++ " email OR contact")
                else ret tt) tr = (Ok tt, tr0)
               /\ searches tr0 = searches tr).
    { destruct debug.
      - eexists. split; [reflexivity |]. apply searches_snoc_log.
      - exists tr. now split. }
    destruct Hlog as [tr0 [E0 S0]]. rewrite E0.
    unfold bind at 1. unfold try_except, bind at 1, exa_search.
    destruct (search exa (searches tr0) _ 2%Z) as [items | e]; cbn [ret].
    + pose proof (contact_items_nobody items role domain []) as Hi.
      destruct (contact_items items role domain []) as [cts raised].
      cbn [fst] in Hi. subst cts.
      destruct (IH (tr0 ++ [EvSearch (role ++ " " ++ brand ++ " email OR contact") 2%Z])%list)
        as [tr' [E S']].
      exists tr'. rewrite searches_snoc_search in S'.
      destruct raised; cbn [length Nat.leb]; (split; [exact E | cbn [length]; lia]).
    + destruct (IH (tr0 ++ [EvSearch (role ++ " " ++ brand ++ " email OR contact") 2%Z])%list)
        as [tr' [E S']].
      exists tr'. rewrite searches_snoc_search in S'.
      split; [exact E | cbn [length]; lia].
Qed.

Lemma contact_companies_nobody exa debug :
  forall cs out tr,
    exists tr',
      contact_companies exa cs debug out tr
      = (Ok (out ++ map (fun c => ContactsPerCompany.mk (Company.name c) []) cs)%list,
         tr')
      /\ searches tr' = searches tr + 7 * length cs.
Proof.
  induction cs as [|c cs IH]; intros out tr; cbn [contact_companies].
  - exists tr. cbn [map]. rewrite app_nil_r. split; [reflexivity | cbn; lia].
  - unfold bind at 1.
    destruct (contact_roles_nobody exa
                (_brand_from_domain (_domain (Company.website c)))
                (_domain (Company.website c)) debug ROLES tr) as [tr1 [E1 S1]].
    rewrite E1. cbn [firstn].
    destruct (IH (out ++ [ContactsPerCompany.mk (Company.name c) []])%list tr1)
      as [tr' [E S']].
    exists tr'. rewrite E. cbn [map]. rewrite <- app_assoc. cbn [app].
    split; [reflexivity |]. rewrite S', S1. cbn [length ROLES]. lia.
Qed.

(** X12: the search fallback for contacts never finds a contact.  The helpers
    it calls to read a person and an e-mail address are not defined in its
    module, so every search result ends in an exception that the loop
    swallows: each company gets an empty contact list, after one search for
    each of the 7 roles. *)
Theorem contact_search_fallback_finds_nobody :
  forall (exa : ExaClient) (companies : CompaniesPayload.t) (debug : bool)
         (tr : trace),
    fst (find_contacts_via_exa (Some exa) companies debug tr)
    = Ok (ContactsPayload.mk
            (map (fun c => ContactsPerCompany.mk (Company.name c) [])
                 (CompaniesPayload.companies companies)))
    /\ searches_added (find_contacts_via_exa (Some exa) companies debug) tr
       = 7 * length (CompaniesPayload.companies companies).
Proof.
  intros exa companies debug tr. unfold searches_added, find_contacts_via_exa.
  unfold bind.
  destruct (contact_companies_nobody exa debug
              (CompaniesPayload.companies companies) [] tr) as [tr' [E S']].
  rewrite E. cbn [app ret fst snd]. split; [reflexivity | lia].
Qed.

Lemma add_new_nodup : forall points insights,
  NoDup insights -> NoDup (add_new points insights).
Proof.
  induction points as [|pt points IH]; intros insights H; cbn [add_new];
    [assumption |].
  apply IH. destruct (PyStr.mem pt insights) eqn:E; [assumption |].
  apply mem_false_iff in E. apply NoDup_app; [assumption | |].
  - constructor; [intros [] | constructor].
  - intros x Hx [Hx' | []]. subst x. contradiction.
Qed.

Lemma research_items_nodup : forall items brand insights,
  NoDup insights -> NoDup (research_items items brand insights).
Proof.
  induction items as [|r items IH]; intros brand insights H;
    cbn [research_items]; [assumption |].
  destruct (item_field r FText); [| assumption].
  apply IH. now apply add_new_nodup.
Qed.

Lemma research_queries_total exa brand debug :
  forall queries insights tr,
    NoDup insights ->
    exists insights' tr',
      research_queries exa queries brand debug insights tr = (Ok insights', tr')
      /\ NoDup insights'
      /\ searches tr' = searches tr + length queries.
Proof.
  induction queries as [|q queries IH]; intros insights tr H;
    cbn [research_queries].
  - exists insights, tr. split; [reflexivity | split; [assumption | cbn; lia]].
  - unfold bind at 1.
    assert (Hlog : exists tr0,
               (if debug then log_info ("[EXA] search research query: " ++ q)
                else ret tt) tr = (Ok tt, tr0)
               /\ searches tr0 = searches tr).
    { destruct debug.
      - eexists. split; [reflexivity |]. apply searches_snoc_log.
      - exists tr. now split. }
    destruct Hlog as [tr0 [E0 S0]]. rewrite E0.
    unfold bind at 1. unfold try_except, bind at 1, exa_search_and_contents.
    destruct (search_and_contents exa (searches tr0) q 3%Z) as [items | e];
      cbn [ret].
    + destruct (IH (research_items items brand insights)
                   (tr0 ++ [EvSearchAndContents q 3%Z])%list
                   (research_items_nodup items brand insights H))
        as [ins' [tr' [E [N S']]]].
      exists ins', tr'. rewrite searches_snoc_contents in S'.
      split; [exact E | split; [exact N | cbn [length]; lia]].
    + destruct (IH insights (tr0 ++ [EvSearchAndContents q 3%Z])%list H)
        as [ins' [tr' [E [N S']]]].
      exists ins', tr'. rewrite searches_snoc_contents in S'.
      split; [exact E | split; [exact N | cbn [length]; lia]].
Qed.

Lemma research_companies_total exa debug :
  forall cs out tr,
    exists added tr',
      research_companies exa cs debug out tr = (Ok (out ++ added)%list, tr')
      /\ map ResearchPerCompany.company added = map Company.name cs
      /\ Forall (fun rc => length (ResearchPerCompany.insights rc) <= 4
                           /\ NoDup (ResearchPerCompany.insights rc)) added
      /\ searches tr' = searches tr + 2 * length cs.
Proof.
  induction cs as [|c cs IH]; intros out tr; cbn [research_companies].
  - exists [], tr. rewrite app_nil_r.
    split; [reflexivity | split; [reflexivity | split; [constructor | cbn; lia]]].
  - unfold bind at 1.
    match goal with
    | |- context [research_queries exa ?qs ?b debug [] tr] =>
        destruct (research_queries_total exa b debug qs [] tr (NoDup_nil _))
          as [ins [tr1 [E1 [N1 S1]]]]
    end.
    rewrite E1.
    destruct (IH (out ++ [ResearchPerCompany.mk (Company.name c) (firstn 4 ins)])%list
                 tr1) as [added [tr' [E [Hn [Hf S']]]]].
    exists (ResearchPerCompany.mk (Company.name c) (firstn 4 ins) :: added), tr'.
    rewrite E, <- app_assoc. cbn [app map length ResearchPerCompany.company].
    split; [reflexivity | split; [now rewrite Hn | split]].
    + constructor; [| exact Hf]. cbn [ResearchPerCompany.insights].
      split; [apply firstn_le_length |].
      rewrite <- (firstn_skipn 4 ins) in N1. now apply NoDup_app_remove_r in N1.
    + rewrite S', S1. cbn [length]. lia.
Qed.

(** X13: the search fallback for research never raises, whatever the client
    answers or raises: it returns one entry per company, under the company's
    name and in order, with at most 4 insights, all distinct, after exactly
    two searches per company. *)
Theorem research_search_fallback_shape :
  forall (exa : ExaClient) (companies : CompaniesPayload.t) (debug : bool)
         (tr : trace),
    exists p,
      fst (collect_research_via_exa (Some exa) companies debug tr) = Ok p
      /\ map ResearchPerCompany.company (ResearchPayload.companies p)
         = map Company.name (CompaniesPayload.companies companies)
      /\ Forall (fun rc => length (ResearchPerCompany.insights rc) <= 4
                           /\ NoDup (ResearchPerCompany.insights rc))
                (ResearchPayload.companies p)
      /\ searches_added (collect_research_via_exa (Some exa) companies debug) tr
         = 2 * length (CompaniesPayload.companies companies).
Proof.
  intros exa companies debug tr.
  unfold searches_added, collect_research_via_exa. unfold bind.
  destruct (research_companies_total exa debug
              (CompaniesPayload.companies companies) [] tr)
    as [added [tr' [E [Hn [Hf S']]]]].
  rewrite E. cbn [app ret fst snd]. exists (ResearchPayload.mk added).
  cbn [ResearchPayload.companies].
  split; [reflexivity | split; [exact Hn | split; [exact Hf | lia]]].
Qed.

Lemma discover_loop_length (ex : list string) (limit : Z) :
  forall items companies seen out,
    ((Z.of_nat (length companies) < limit)%Z \/ companies = []) ->
    discover_loop items limit ex companies seen = Ok out ->
    (Z.of_nat (length out) <= Z.max 1 limit)%Z.
Proof.
  induction items as [|r items IH]; intros companies seen out Hinv H;
    cbn [discover_loop] in H.
  - inversion H; subst out. destruct Hinv as [Hlt | Hnil]; [lia |].
    subst companies. cbn. lia.
  - unfold rbind in H.
    destruct (item_field r FUrl) as [url |]; [| discriminate].
    destruct (item_field r FTitle) as [title |]; [| discriminate].
    destruct (item_field r FText) as [text |]; [| discriminate].
    destruct (_excluded (_domain url) ex || PyStr.mem (_domain url) seen);
      [now apply (IH _ _ _ Hinv H) |].
    destruct (negb (Re.found _FASHION_WORDS _)); [now apply (IH _ _ _ Hinv H) |].
    match type of H with
    | (if (?a >=? _)%Z then _ else _) = _ => destruct (Z.geb_spec a limit) as [Hge | Hlt]
    end.
    + inversion H; subst out. rewrite length_app in *. cbn [length] in *.
      destruct Hinv as [Hlt | Hnil]; [lia |]. subst companies. cbn. lia.
    + apply (IH _ _ _ (or_introl Hlt) H).
Qed.

(** X14: a discovery by search that returns gives at most [max(1, limit)]
    companies (the loop stops at the first company that reaches the limit),
    and calls the search client at most twice: the plain search only after
    the search with contents raised. *)
Theorem discovery_respects_limit :
  forall (exa : option ExaClient) (td od : string) (limit : Z)
         (ex : option (list string)) (debug : bool) (tr : trace)
         (p : CompaniesPayload.t),
    fst (discover_companies_via_exa exa td od limit ex debug tr) = Ok p ->
    (Z.of_nat (length (CompaniesPayload.companies p)) <= Z.max 1 limit)%Z
    /\ searches_added (discover_companies_via_exa exa td od limit ex debug) tr
       <= 2.
Proof.
  intros exa td od limit ex debug tr p.
  unfold searches_added, discover_companies_via_exa.
  destruct exa as [exa |].
  - unfold bind, try_except, exa_search_and_contents, exa_search, lift, ret,
      log_info, emit.
    destruct debug; cbn beta iota;
      rewrite ?searches_snoc_log;
      (destruct (search_and_contents exa (searches tr) _ _) as [items | e1];
       [| destruct (search exa _ _ _) as [items | e2]]);
      try (destruct (discover_loop items limit _ [] []) as [out | e] eqn:El);
      cbn [fst snd]; try discriminate;
      intros H; inversion H; subst p; cbn [CompaniesPayload.companies];
      (split;
       [ try apply (discover_loop_length _ _ _ _ _ _ (or_intror eq_refl) El);
         cbn [length]; lia
       | rewrite ?searches_snoc_search, ?searches_snoc_contents,
           ?searches_snoc_log; lia ]).
  - cbn [ret fst snd]. intros H. inversion H; subst p.
    cbn [CompaniesPayload.companies length]. split; lia.
Qed.

Lemma discovery_respects_limit_witness :
  (Z.of_nat (length [Samples.zara_found]) <= Z.max 1 5)%Z
  /\ searches_added
       (discover_companies_via_exa (Some Samples.shop_exa) "target" "offer" 5%Z
          (Some []) true) [] <= 2.
Proof.
  apply (discovery_respects_limit (Some Samples.shop_exa) "target" "offer" 5%Z
           (Some []) true [] (CompaniesPayload.mk [Samples.zara_found])).
  vm_compute. reflexivity.
Defined.

(** ** Exclusions, domains and brands *)

Lemma lower_app (a b : string) :
  PyStr.lower (a ++ b) = PyStr.lower a ++ PyStr.lower b.
Proof. induction a as [|c a IH]; simpl; [reflexivity | now rewrite IH]. Qed.

Lemma take_drop : forall n s, PyStr.take n s ++ PyStr.drop n s = s.
Proof.
  induction n as [|n IH]; intros [|c s]; simpl; try reflexivity.
  now rewrite IH.
Qed.

Lemma drop_length_app (a b : string) :
  PyStr.drop (String.length a) (a ++ b) = b.
Proof. induction a as [|c a IH]; simpl; [now destruct b | exact IH]. Qed.

Lemma endswith_iff (s p : string) :
  PyStr.endswith s p = true <-> exists pre, s = pre ++ p.
Proof.
  unfold PyStr.endswith. split.
  - intros H. apply andb_true_iff in H. destruct H as [_ H].
    apply String.eqb_eq in H.
    set (n := String.length s - String.length p) in *.
    exists (PyStr.take n s). pose proof (take_drop n s) as E.
    rewrite H in E. now symmetry.
  - intros [pre E]. subst s. rewrite length_append.
    replace (String.length pre + String.length p - String.length p)
      with (String.length pre) by lia.
    rewrite drop_length_app, String.eqb_refl, andb_true_r.
    apply Nat.leb_le. lia.
Qed.

Lemma startswith_iff : forall p s,
  PyStr.startswith s p = true <-> exists post, s = p ++ post.
Proof.
  intros p s. split.
  - revert s. induction p as [|a p IH]; intros s H.
    + now exists s.
    + destruct s as [|b s]; simpl in H; [discriminate |].
      apply andb_true_iff in H. destruct H as [Hab H].
      apply Ascii.eqb_eq in Hab. subst b.
      destruct (IH s H) as [post E]. exists post. simpl. now rewrite E.
  - intros [post E]. subst s. apply startswith_append.
Qed.

Lemma contains_iff (p s : string) :
  PyStr.contains p s = true <-> exists pre post, s = pre ++ p ++ post.
Proof.
  split.
  - induction s as [|c s IH]; cbn [PyStr.contains]; intros H;
      apply orb_true_iff in H; destruct H as [H | H]; try discriminate.
    + apply startswith_iff in H. destruct H as [post E].
      now exists EmptyString, post.
    + apply startswith_iff in H. destruct H as [post E].
      now exists EmptyString, post.
    + destruct (IH H) as [pre [post E]]. exists (String c pre), post.
      simpl. now rewrite E.
  - intros [pre [post E]]. subst s. apply contains_skip, contains_here.
Qed.

(** X15: what [_excluded] excludes.  A domain is excluded exactly when, in
    lower case, it ends with the lower case of an entry of the list, or holds
    the word livetrend somewhere.  The entry need not start at a label: an
    entry is a plain suffix, and an empty entry excludes every domain. *)
Theorem excluded_iff_suffix_or_livetrend :
  forall (domain : string) (exclude_domains : list string),
    _excluded domain exclude_domains = true
    <-> (exists ex pre,
            In ex exclude_domains
            /\ PyStr.lower domain = pre ++ PyStr.lower ex)
        \/ (exists pre post,
               PyStr.lower domain = pre ++ "livetrend" ++ post).
Proof.
  intros domain exs. unfold _excluded. split.
  - destruct (existsb _ exs) eqn:E.
    + intros _. left. apply existsb_exists in E. destruct E as [ex [Hin He]].
      apply endswith_iff in He. destruct He as [pre Hp]. now exists ex, pre.
    + intros H. right. now apply contains_iff in H.
  - intros [[ex [pre [Hin Hd]]] | H].
    + assert (E : existsb (fun ex => PyStr.endswith (PyStr.lower domain)
                                       (PyStr.lower ex)) exs = true).
      { apply existsb_exists. exists ex. split; [assumption |].
        apply endswith_iff. now exists pre. }
      now rewrite E.
    + destruct (existsb _ exs); [reflexivity |]. now apply contains_iff.
Qed.

Lemma star_not_slash {R : Type} (k : @Re.cont R) (rest : string)
      (cap : option string) :
  (rest = EmptyString \/ exists r, rest = String "/" r) ->
  (forall l, k l rest cap <> None) ->
  forall host fuel prev,
    occurs "/" host = false -> String.length host < fuel ->
    exists l,
      Re.star_loop (Re.exec (Re.Chr (fun c => negb (Ascii.eqb c "/")))) k
        fuel prev (host ++ rest) cap
      = k l rest cap.
Proof.
  intros Hrest Hk.
  set (step := Re.exec (Re.Chr (fun c => negb (Ascii.eqb c "/")))).
  induction host as [|c host IH]; intros fuel prev Hocc Hfuel.
  - exists prev. cbn [append]. destruct fuel as [|fuel]; [simpl in Hfuel; lia |].
    cbn [Re.star_loop]. unfold step.
    destruct Hrest as [E | [r E]]; subst rest; reflexivity.
  - destruct fuel as [|fuel]; [simpl in Hfuel; lia |].
    cbn [append Re.star_loop]. unfold step at 1. cbn [Re.exec].
    cbn [occurs] in Hocc.
    apply orb_false_iff in Hocc. destruct Hocc as [Hc Hocc].
    rewrite Ascii.eqb_sym in Hc. rewrite Hc. cbn [negb String.length].
    replace (String.length (host ++ rest) <? S (String.length (host ++ rest)))
      with true by (symmetry; apply Nat.ltb_lt; lia).
    destruct (IH fuel (Some c) Hocc) as [l El]; [simpl in Hfuel; lia |].
    exists l. rewrite El.
    destruct (k l rest cap) eqn:Ek; [reflexivity | exfalso; apply (Hk l Ek)].
Qed.

Lemma host_group {R : Type} (K : option ascii -> string -> option string -> R)
      (host rest : string) (prev : option ascii) (cap : option string) :
  host <> EmptyString -> occurs "/" host = false ->
  (rest = EmptyString \/ exists r, rest = String "/" r) ->
  exists l,
    Re.exec (Re.Group (Re.Plus (Re.Chr (fun c => negb (Ascii.eqb c "/")))))
      prev (host ++ rest) cap (fun p x y => Some (K p x y))
    = Some (K l rest (Some host)).
Proof.
  intros Hne Hocc Hrest. destruct host as [|c host]; [congruence |].
  unfold Re.Plus. cbn [Re.exec append]. cbn [occurs] in Hocc.
  apply orb_false_iff in Hocc. destruct Hocc as [Hc Hocc].
  rewrite Ascii.eqb_sym in Hc. rewrite Hc. cbn [negb].
  match goal with
  | |- exists l, Re.star_loop _ ?k _ _ _ _ = _ =>
      destruct (star_not_slash k rest cap Hrest) with
        (host := host) (fuel := S (String.length (host ++ rest)))
        (prev := Some c) as [l El]
  end.
  - intros l. discriminate.
  - assumption.
  - rewrite length_append. lia.
  - exists l. cbn [Re.exec] in El. rewrite El. cbn [String.length].
    replace (S (String.length (host ++ rest)) - String.length rest)
      with (S (String.length host)) by (rewrite length_append; lia).
    change (String c (host ++ rest)) with (String c host ++ rest).
    change (S (String.length host)) with (String.length (String c host)).
    now rewrite take_length_app.
Qed.

Lemma domain_re_needs_http (prev : option ascii) (s : string) :
  PyStr.startswith s "http" = false -> Re.match_here DOMAIN_RE prev s = None.
Proof.
  unfold Re.match_here, DOMAIN_RE.
  set (tail := Re.Seq (Re.Opt (Re.chr "s")) _).
  cbn [Re.lit Re.exec Re.chr PyStr.startswith].
  destruct s as [|a s]; [reflexivity |].
  destruct (Ascii.eqb "h" a) eqn:Ea; [| reflexivity].
  destruct s as [|b s]; [reflexivity |].
  destruct (Ascii.eqb "t" b) eqn:Eb; [| reflexivity].
  destruct s as [|c s]; [reflexivity |].
  destruct (Ascii.eqb "t" c) eqn:Ec; [| reflexivity].
  destruct s as [|d s]; [reflexivity |].
  destruct (Ascii.eqb "p" d) eqn:Ed; [| reflexivity].
  cbn [PyStr.startswith]. rewrite Ea, Eb, Ec, Ed. destruct s; discriminate.
Qed.

Lemma domain_re_no_http : forall s prev,
  PyStr.contains "http" s = false -> Re.search_from DOMAIN_RE prev s = None.
Proof.
  induction s as [|c s IH]; intros prev H; cbn [PyStr.contains] in H;
    apply orb_false_iff in H; destruct H as [H1 H2]; cbn [Re.search_from];
    rewrite (domain_re_needs_http prev _ H1); [reflexivity | now apply IH].
Qed.

Lemma domain_re_at_scheme (scheme host rest : string) :
  In scheme ["http://"; "https://"] ->
  host <> EmptyString -> occurs "/" host = false ->
  (rest = EmptyString \/ exists r, rest = String "/" r) ->
  exists m,
    Re.match_here DOMAIN_RE None (scheme ++ host ++ rest) = Some m
    /\ Re.m_group1 m = Some host.
Proof.
  intros Hs Hne Hocc Hrest. unfold Re.match_here, DOMAIN_RE.
  set (G := Re.Group _).
  set (K := fun (p : option ascii) (x : string) (y : option string) =>
              {| Re.m_text :=
                   PyStr.take (String.length (scheme ++ host ++ rest)
                               - String.length x) (scheme ++ host ++ rest);
                 Re.m_group1 := y; Re.m_rest := x; Re.m_last := p |}).
  change (exists m,
             Re.exec (Re.Seq (Re.lit "http")
                        (Re.Seq (Re.Opt (Re.chr "s")) (Re.Seq (Re.lit "://") G)))
               None (scheme ++ host ++ rest) None (fun p x y => Some (K p x y))
             = Some m /\ Re.m_group1 m = Some host).
  destruct (host_group K host rest (Some "/"%char) None Hne Hocc Hrest)
    as [l El]. fold G in El.
  exists (K l rest (Some host)). split; [| reflexivity].
  destruct Hs as [E | [E | []]]; subst scheme; unfold Re.Opt;
    cbn [append Re.lit Re.exec Re.chr Ascii.eqb Bool.eqb andb];
    rewrite El; reflexivity.
Qed.

(** X16: the domain of a website.  For a URL that starts with http:// or
    https://, [_domain] is what follows the scheme up to the first slash (or
    the end); a text without http anywhere is returned unchanged, path
    included. *)
Theorem domain_of_url :
  (forall scheme host rest : string,
      In scheme ["http://"; "https://"] ->
      host <> EmptyString -> occurs "/" host = false ->
      (rest = EmptyString \/ exists r, rest = String "/" r) ->
      _domain (scheme ++ host ++ rest) = host)
  /\ (forall url : string,
         PyStr.contains "http" url = false -> _domain url = url).
Proof.
  split.
  - intros scheme host rest Hs Hne Hocc Hrest. unfold _domain, Re.search.
    destruct (domain_re_at_scheme scheme host rest Hs Hne Hocc Hrest)
      as [m [Em Eg]].
    assert (E : Re.search_from DOMAIN_RE None (scheme ++ host ++ rest) = Some m).
    { destruct (scheme ++ host ++ rest); cbn [Re.search_from]; now rewrite Em. }
    now rewrite E, Eg.
  - intros url H. unfold _domain, Re.search.
    now rewrite (domain_re_no_http url None H).
Qed.

Lemma domain_of_url_witness :
  _domain ("https://" ++ "www.zara.com" ++ "/fr/") = "www.zara.com"
  /\ _domain "zara.com/fr" = "zara.com/fr".
Proof.
  split.
  - apply (proj1 domain_of_url "https://" "www.zara.com" "/fr/").
    + right. left. reflexivity.
    + discriminate.
    + reflexivity.
    + right. exists "fr/". reflexivity.
  - apply (proj2 domain_of_url "zara.com/fr"). reflexivity.
Defined.

Lemma split_acc_label (rest : string) : forall l cur,
  occurs "." l = false ->
  PyStr.split_acc "." (l ++ rest) cur = PyStr.split_acc "." rest (cur ++ l).
Proof.
  induction l as [|c l IH]; intros cur H; cbn [append].
  - now rewrite append_nil_r.
  - cbn [occurs] in H. apply orb_false_iff in H. destruct H as [Hc H].
    rewrite Ascii.eqb_sym in Hc. cbn [PyStr.split_acc]. rewrite Hc.
    rewrite (IH _ H), append_assoc. reflexivity.
Qed.

Lemma split_join : forall labels,
  labels <> [] -> Forall (fun l => occurs "." l = false) labels ->
  PyStr.split "." (PyStr.join "." labels) = labels.
Proof.
  unfold PyStr.split.
  assert (H : forall labels cur,
             Forall (fun l => occurs "." l = false) labels ->
             forall x, PyStr.split_acc "." (PyStr.join "." (x :: labels)) cur
                       = (cur ++ x) :: labels \/ occurs "." x = true).
  { induction labels as [|y labels IH]; intros cur Hall x;
      destruct (occurs "." x) eqn:Ex; try (now right); left.
    - cbn [PyStr.join]. rewrite <- (append_nil_r x) at 1.
      now rewrite (split_acc_label _ _ _ Ex).
    - inversion Hall as [| y' l' Hy Hl]; subst.
      change (PyStr.join "." (x :: y :: labels))
        with (x ++ String "." (PyStr.join "." (y :: labels))).
      rewrite (split_acc_label _ _ _ Ex). cbn [PyStr.split_acc].
      rewrite Ascii.eqb_refl.
      destruct (IH EmptyString Hl y) as [E | E]; [| congruence].
      now rewrite E. }
  intros [|x labels] Hne Hall; [congruence |].
  inversion Hall as [| x' l' Hx Hl]; subst.
  destruct (H labels EmptyString Hl x) as [E | E]; [exact E | congruence].
Qed.

(** X17: the brand of a domain.  For a domain written as labels joined by
    dots, [_brand_from_domain] ignores the empty labels and the label www
    (in any case) and gives the second-to-last of the others, capitalised:
    the label before the last one, whatever the last ones are. *)
Theorem brand_is_second_to_last_label :
  forall (labels : list string),
    Forall (fun l => occurs "." l = false) labels ->
    let parts :=
      filter (fun p => PyStr.truthy p
                       && negb (String.eqb (PyStr.lower p) "www")) labels in
    2 <= length parts ->
    _brand_from_domain (PyStr.join "." labels)
    = PyStr.capitalize (nth (length parts - 2) parts EmptyString).
Proof.
  intros labels Hall parts Hlen. unfold _brand_from_domain.
  rewrite split_join; [| | assumption].
  - fold parts. apply Nat.leb_le in Hlen. now rewrite Hlen.
  - intros E. subst labels. cbn in Hlen. lia.
Qed.

Lemma brand_is_second_to_last_label_witness :
  _brand_from_domain (PyStr.join "." ["www"; "shop"; "zara"; "co"; "uk"])
  = "Co".
Proof.
  apply (brand_is_second_to_last_label ["www"; "shop"; "zara"; "co"; "uk"]).
  - repeat constructor.
  - vm_compute. lia.
Defined.

(** ** A literal wrapped in prose *)

Lemma greedy_span_skip (s : string) : forall pre,
  occurs "{" pre = false -> occurs "[" pre = false ->
  greedy_span (pre ++ s) = greedy_span s.
Proof.
  induction pre as [|c pre IH]; intros H1 H2; [reflexivity |].
  cbn [occurs] in H1, H2.
  apply orb_false_iff in H1. destruct H1 as [Hc1 H1].
  apply orb_false_iff in H2. destruct H2 as [Hc2 H2].
  rewrite Ascii.eqb_sym in Hc1. rewrite Ascii.eqb_sym in Hc2.
  cbn [append greedy_span]. unfold closer_of. rewrite Hc1, Hc2.
  now apply IH.
Qed.

Lemma after_last_closer (c : ascii) (post : string) : forall mid,
  occurs c post = false -> after_last c (mid ++ String c post) = Some post.
Proof.
  induction mid as [|d mid IH]; intros H; cbn [append after_last].
  - apply after_last_none in H. now rewrite H, Ascii.eqb_refl.
  - now rewrite (IH H).
Qed.

(** X18: a JSON literal wrapped in prose is recovered.  When the text as a
    whole is not JSON, no brace or bracket opens before the literal and its
    closing character does not occur after it, [parse_json_safe] returns the
    value of the literal, not the default. *)
Theorem parse_json_safe_recovers_wrapped_literal :
  forall (pre mid post : string) (o c : ascii) (v default : Json.json),
    closer_of o = Some c ->
    occurs "{" pre = false -> occurs "[" pre = false ->
    occurs c post = false ->
    Json.loads (pre ++ String o (mid ++ String c EmptyString) ++ post) = None ->
    Json.loads (String o (mid ++ String c EmptyString)) = Some v ->
    parse_json_safe (pre ++ String o (mid ++ String c EmptyString) ++ post)
      default = v.
Proof.
  intros pre mid post o c v default Hoc Hp1 Hp2 Hpost Hwhole Hlit.
  rewrite parse_json_safe_eq, Hwhole.
  rewrite (greedy_span_skip _ pre Hp1 Hp2).
  set (lit := String o (mid ++ String c EmptyString)) in *.
  assert (E : greedy_span (lit ++ post) = Some lit).
  { unfold lit. cbn [append greedy_span]. rewrite Hoc.
    rewrite append_assoc. cbn [append].
    rewrite (after_last_closer c post mid Hpost). f_equal.
    cbn [String.length].
    replace (S (String.length (mid ++ String c post)) - String.length post)
      with (String.length (String o (mid ++ String c EmptyString)))
      by (cbn [String.length]; rewrite !length_append; cbn [String.length]; lia).
    change (String o (mid ++ String c post))
      with (String o (mid ++ String c (EmptyString ++ post))).
    change (String c (EmptyString ++ post))
      with (String c EmptyString ++ post).
    rewrite <- append_assoc.
    change (String o ((mid ++ String c EmptyString) ++ post))
      with (String o (mid ++ String c EmptyString) ++ post).
    apply take_length_app. }
  now rewrite E, Hlit.
Qed.

Lemma parse_json_safe_recovers_wrapped_literal_witness :
  parse_json_safe
    ("Here is the list: "
     ++ String "{" (Samples.dq "'companies': []" ++ String "}" EmptyString)
     ++ " Hope it helps.")
    Json.JNull
  = Json.JObj [("companies", Json.JArr [])].
Proof.
  apply (parse_json_safe_recovers_wrapped_literal
           "Here is the list: " (Samples.dq "'companies': []")
           " Hope it helps." "{" "}");
    vm_compute; reflexivity.
Defined.

(** ** Retrying a call *)

Lemma with_retries_loop_spec {A : Type} (fn : M A) :
  forall n last tr,
    0 < n ->
    exists k,
      k < n
      /\ with_retries_loop fn n last tr = fn (after_calls fn k tr)
      /\ (forall j, j < k ->
            exists e, fst (fn (after_calls fn j tr)) = Raise e)
      /\ (S k < n -> exists a, fst (fn (after_calls fn k tr)) = Ok a).
Proof.
  induction n as [|n IH]; intros last tr Hn; [lia |].
  cbn [with_retries_loop]. destruct (fn tr) as [[a | e] tr1] eqn:E.
  - exists 0. cbn [after_calls]. rewrite E.
    split; [lia | split; [reflexivity | split]].
    + intros j Hj. lia.
    + intros _. now exists a.
  - destruct n as [|n].
    + exists 0. cbn [after_calls with_retries_loop]. rewrite E.
      split; [lia | split; [reflexivity | split]].
      * intros j Hj. lia.
      * intros H. lia.
    + destruct (IH (Some e) tr1) as [k [Hk [Ek [Hbefore Hstop]]]]; [lia |].
      exists (S k). cbn [after_calls]. rewrite E. cbn [snd].
      split; [lia | split; [exact Ek | split]].
      * intros [|j] Hj.
        -- exists e. cbn [after_calls]. now rewrite E.
        -- cbn [after_calls]. rewrite E. cbn [snd]. apply Hbefore. lia.
      * intros H. apply Hstop. lia.
Qed.

(** X19: [with_retries] calls [fn] at most [max(1, retries + 1)] times, each
    call starting where the one before ended.  Its outcome is the outcome of
    the last call it makes: every call before raised, and it stops before
    its last turn only on a call that returns.  So it returns the first
    result, and when every call raises it raises the last exception. *)
Theorem with_retries_outcome :
  forall (A : Type) (fn : M A) (retries : Z) (tr : trace),
    exists k,
      (Z.of_nat k < Z.max 1 (retries + 1))%Z
      /\ with_retries fn retries tr = fn (after_calls fn k tr)
      /\ (forall j, j < k ->
            exists e, fst (fn (after_calls fn j tr)) = Raise e)
      /\ ((Z.of_nat (S k) < Z.max 1 (retries + 1))%Z ->
          exists a, fst (fn (after_calls fn k tr)) = Ok a).
Proof.
  intros A fn retries tr. unfold with_retries.
  destruct (with_retries_loop_spec fn (Z.to_nat (Z.max 1 (retries + 1))) None tr)
    as [k [Hk [Ek [Hbefore Hstop]]]]; [lia |].
  exists k. split; [lia | split; [exact Ek | split; [exact Hbefore |]]].
  intros H. apply Hstop. lia.
Qed.

(** ** From the contact fallback to the template emails *)

Lemma pydict_set_values {V : Type} (Q : V -> Prop) (k : string) (v : V) :
  forall d,
    Q v -> Forall (fun kv => Q (snd kv)) d ->
    Forall (fun kv => Q (snd kv)) (pydict_set k v d).
Proof.
  induction d as [|[k' v'] d IH]; intros Hv Hd; cbn [pydict_set].
  - constructor; [exact Hv | constructor].
  - inversion Hd as [| x l Hx Hl]; subst.
    destruct (String.eqb k k'); constructor; auto.
Qed.

Lemma pydict_of_values {A V : Type} (Q : V -> Prop) (key : A -> string)
      (val : A -> V) (l : list A) :
  Forall (fun x => Q (val x)) l ->
  Forall (fun kv => Q (snd kv)) (pydict_of key val l).
Proof.
  unfold pydict_of.
  assert (H : forall l d,
             Forall (fun x => Q (val x)) l ->
             Forall (fun kv => Q (snd kv)) d ->
             Forall (fun kv => Q (snd kv))
                    (fold_left (fun d x => pydict_set (key x) (val x) d) l d)).
  { clear l. induction l as [|x l IH]; intros d Hl Hd; cbn [fold_left];
      [exact Hd |].
    inversion Hl as [| y l' Hy Hl']; subst.
    apply IH; [exact Hl' | now apply pydict_set_values]. }
  intros Hl. apply H; [exact Hl | constructor].
Qed.

Lemma pydict_get_value {V : Type} (Q : V -> Prop) (k : string) :
  forall d v,
    Forall (fun kv => Q (snd kv)) d -> pydict_get k d = Some v -> Q v.
Proof.
  induction d as [|[k' v'] d IH]; intros v Hd H; cbn [pydict_get] in H;
    [discriminate |].
  inversion Hd as [| x l Hx Hl]; subst.
  destruct (String.eqb k k'); [inversion H; now subst v | now apply IH].
Qed.

Lemma nobody_recorded (names : list Company.t) (comp : Company.t) :
  recorded_contacts
    (ContactsPayload.mk
       (map (fun c => ContactsPerCompany.mk (Company.name c) []) names)) comp
  = [].
Proof.
  unfold recorded_contacts. cbn [ContactsPayload.companies].
  destruct (pydict_get _ _) as [l |] eqn:E; [| reflexivity].
  apply (pydict_get_value (fun l => l = []) _ _ _) in E; [exact E |].
  apply (pydict_of_values (fun l => l = [])). rewrite Forall_map.
  rewrite Forall_forall. intros c _. reflexivity.
Qed.

Lemma nobody_recorded_pairs (names : list Company.t) :
  forall l,
    email_pairs "Équipe"
      (ContactsPayload.mk
         (map (fun c => ContactsPerCompany.mk (Company.name c) []) names)) l
    = map (fun c => (Company.name c, "Équipe")) l.
Proof.
  induction l as [|comp l IH]; [reflexivity |].
  cbn [email_pairs flat_map map]. rewrite nobody_recorded.
  cbn [app]. f_equal. exact IH.
Qed.

Lemma contact_finder_falls_back exa agent companies td od retries tr :
  always_yields agent contact_attempt (ContactsPayload.mk []) ->
  exists tr',
    run_contact_finder (Some exa) agent companies td od retries true tr
    = (Ok (ContactsPayload.mk
             (map (fun c => ContactsPerCompany.mk (Company.name c) [])
                  (CompaniesPayload.companies companies))), tr').
Proof.
  intros Hagent. unfold run_contact_finder. set (prompt := (_ ++ _)%string).
  destruct (attempts_all_empty "ContactFinder" agent prompt contact_attempt
              has_contacts retries (ContactsPayload.mk []) Hagent eq_refl
              (loop_fuel retries) 0%Z tr) as [tr1 [E R]];
    [unfold loop_fuel; lia |].
  unfold bind at 1. rewrite E.
  cbn [has_contacts ContactsPayload.companies negb andb].
  unfold bind at 1, log_info, emit. unfold find_contacts_via_exa, bind.
  destruct (contact_companies_nobody exa true
              (CompaniesPayload.companies companies) []
              (tr1 ++ [EvLog "[EXA] Fallback: find contacts via Exa"])%list)
    as [tr' [E' _]].
  rewrite E'. cbn [app ret]. now exists tr'.
Qed.

(** X20: the contact fallback and the template emails composed.  When
    neither the contact agent nor the email agent gives a usable answer and
    fallbacks are enabled, with a search client, the contacts found by search
    are empty for every company, and the email stage fed with them writes
    exactly one email per company, to the placeholder contact. *)
Theorem unanswered_pipeline_writes_to_the_placeholder :
  forall (exa : ExaClient) (py_str : Json.json -> string)
         (contact_agent email_agent : Agent) (companies : CompaniesPayload.t)
         (research : ResearchPayload.t) (sender : list (string * string))
         (style td od : string) (retries : Z) (tr : trace),
    always_yields contact_agent contact_attempt (ContactsPayload.mk []) ->
    always_yields email_agent (email_attempt py_str) (EmailsPayload.mk []) ->
    exists contacts tr1 emails tr2,
      run_contact_finder (Some exa) contact_agent companies td od retries true tr
      = (Ok contacts, tr1)
      /\ run_email_writer py_str email_agent companies contacts research sender
           style retries true tr1
         = (Ok emails, tr2)
      /\ map pair_of_email (EmailsPayload.emails emails)
         = map (fun c => (Company.name c, "Équipe"))
               (CompaniesPayload.companies companies).
Proof.
  intros exa py_str contact_agent email_agent companies research sender style
         td od retries tr Hc He.
  destruct (contact_finder_falls_back exa contact_agent companies td od retries
              tr Hc) as [tr1 E1].
  set (contacts := ContactsPayload.mk _) in E1.
  destruct (email_writer_all_empty py_str email_agent companies contacts
              research sender style retries tr1 He) as [tr2 [E2 _]].
  exists contacts, tr1,
    (generate_template_emails companies contacts research sender style), tr2.
  split; [exact E1 | split; [exact E2 |]].
  unfold generate_template_emails. cbn [EmailsPayload.emails].
  rewrite template_pairs. unfold contacts.
  apply nobody_recorded_pairs.
Qed.

Lemma unanswered_pipeline_writes_to_the_placeholder_witness :
  exists contacts tr1 emails tr2,
    run_contact_finder (Some Samples.shop_exa) (Samples.const_agent EmptyString)
      (CompaniesPayload.mk [Samples.zara]) "target" "offer" 1 true []
    = (Ok contacts, tr1)
    /\ run_email_writer Samples.sample_py_str (Samples.const_agent EmptyString)
         (CompaniesPayload.mk [Samples.zara]) contacts (ResearchPayload.mk [])
         Samples.sample_sender "Professional" 1 true tr1
       = (Ok emails, tr2)
    /\ map pair_of_email (EmailsPayload.emails emails)
       = [(Company.name Samples.zara, "Équipe")].
Proof.
  apply (unanswered_pipeline_writes_to_the_placeholder Samples.shop_exa
           Samples.sample_py_str (Samples.const_agent EmptyString)
           (Samples.const_agent EmptyString)
           (CompaniesPayload.mk [Samples.zara]) (ResearchPayload.mk [])
           Samples.sample_sender "Professional" "target" "offer" 1 []);
    apply silent_agent_yields_nothing; vm_compute; reflexivity.
Defined.

(** ** Emails without a company or a contact *)

Lemma merge_followups_keeps py_str (k : string) (e : list (string * Json.json))
      (r : Json.json) :
  k <> "body" ->
  merge_followups py_str (Json.JObj e) = Ok r ->
  exists e1, r = Json.JObj e1 /\ Json.dict_get k e1 = Json.dict_get k e.
Proof.
  intros Hk H. cbn [merge_followups] in H.
  destruct (Json.dict_get "followups" e) as [fus |];
    [| inversion H; now exists e].
  destruct (py_truthy fus); [| inversion H; now exists e].
  destruct fus as [| | | | | |[|t ts]|]; try (inversion H; now exists e).
  destruct (Json.dict_get "body" e) as [[| | | | |b| |] |];
    try discriminate; inversion H; eexists; (split; [reflexivity |]);
    now apply dict_get_set_other.
Qed.

Lemma email_item_names d item :
  Validate.email_item (Json.JObj d) = Some item ->
  Json.dict_get "company" d = Some (Json.JStr (EmailItem.company item))
  /\ Json.dict_get "contact" d = Some (Json.JStr (EmailItem.contact item)).
Proof.
  unfold Validate.email_item, Validate.req_str, Validate.as_str.
  destruct (Json.dict_get "company" d) as [[| | | | |c| |] |]; try discriminate.
  destruct (Json.dict_get "contact" d) as [[| | | | |t| |] |]; try discriminate.
  destruct (Json.dict_get "subject" d) as [[| | | | |s| |] |]; try discriminate.
  destruct (Json.dict_get "body" d) as [[| | | | |b| |] |]; try discriminate.
  intros H. inversion H. split; reflexivity.
Qed.

Lemma dict_get_setdefault_same k d :
  Json.dict_get k (setdefault_empty k d)
  = match Json.dict_get k d with
    | Some v => Some v
    | None => Some (Json.JStr EmptyString)
    end.
Proof.
  unfold setdefault_empty, Json.dict_has.
  destruct (Json.dict_get k d) as [v |] eqn:E; [exact E |].
  apply dict_get_set_same.
Qed.

(** X21: an email record of the model that names no company (or no contact)
    is not rejected: the stage stores it with the empty string in that place;
    a name the record gives is kept as it is. *)
Theorem missing_company_or_contact_defaults_to_empty :
  forall (py_str : Json.json -> string) (agent : Agent)
         (companies : CompaniesPayload.t) (contacts : ContactsPayload.t)
         (research : ResearchPayload.t) (sender : list (string * string))
         (style : string) (retries : Z) (fb : bool) (tr : trace)
         (payload : EmailsPayload.t),
    ~ In TEMPLATE_FALLBACK_LOG tr ->
    fst (run_email_writer py_str agent companies contacts research sender style
           retries fb tr) = Ok payload ->
    ~ In TEMPLATE_FALLBACK_LOG
        (snd (run_email_writer py_str agent companies contacts research sender
                style retries fb tr)) ->
    has_emails payload = true ->
    exists k prompt res d records,
      agent k prompt = Ok res
      /\ parse_json_safe (response_text res)
           (Json.JObj [("emails", Json.JArr [])]) = Json.JObj d
      /\ Json.dict_get "emails" d = Some (Json.JArr records)
      /\ forall i e,
          nth_error records i = Some (Json.JObj e) ->
          exists item,
            nth_error (EmailsPayload.emails payload) i = Some item
            /\ (Json.dict_get "company" e = None ->
                EmailItem.company item = EmptyString)
            /\ (Json.dict_get "contact" e = None ->
                EmailItem.contact item = EmptyString)
            /\ (forall c, Json.dict_get "company" e = Some (Json.JStr c) ->
                          EmailItem.company item = c)
            /\ (forall c, Json.dict_get "contact" e = Some (Json.JStr c) ->
                          EmailItem.contact item = c).
Proof.
  intros py_str agent companies contacts research sender style retries fb tr
         payload Htr Hrun Hmodel Hnonempty.
  destruct (email_writer_model_path py_str agent companies contacts research
              sender style retries fb tr payload Htr Hrun Hmodel Hnonempty)
    as [k [prompt [res [Hagent Hattempt]]]].
  destruct (email_attempt_shape py_str res payload Hattempt Hnonempty)
    as [d [records [Hparse Hemails]]].
  destruct (email_attempt_steps py_str res d records payload Hparse Hemails
              Hattempt Hnonempty) as [merged [defaulted [Hm [Hd Ht]]]].
  exists k, prompt, res, d, records.
  split; [exact Hagent | split; [exact Hparse | split; [exact Hemails |]]].
  intros i e Hn.
  destruct (for_each_nth _ _ _ i _ Hm Hn) as [r1 [Hr1 Hn1]].
  destruct (merge_followups_keeps py_str "company" e r1) as [e1 [E1 Hcompany]];
    [discriminate | exact Hr1 |].
  destruct (merge_followups_keeps py_str "contact" e r1) as [e1' [E1' Hcontact]];
    [discriminate | exact Hr1 |].
  rewrite E1 in E1'. inversion E1'; subst e1'. subst r1.
  destruct (for_each_nth _ _ _ i _ Hd Hn1) as [r2 [Hr2 Hn2]].
  cbn [set_defaults] in Hr2. inversion Hr2; subst r2.
  destruct (traverse_nth _ _ _ i _ Ht Hn2) as [item [Hitem Hn3]].
  exists item. split; [exact Hn3 |].
  destruct (email_item_names _ _ Hitem) as [Hc Ht'].
  rewrite dict_get_setdefault_other in Hc by discriminate.
  rewrite dict_get_setdefault_same in Hc, Ht'.
  rewrite dict_get_setdefault_other in Ht' by discriminate.
  rewrite Hcompany in Hc. rewrite Hcontact in Ht'.
  split; [| split; [| split]].
  - intros H. rewrite H in Hc. now inversion Hc.
  - intros H. rewrite H in Ht'. now inversion Ht'.
  - intros c H. rewrite H in Hc. now inversion Hc.
  - intros c H. rewrite H in Ht'. now inversion Ht'.
Qed.

Lemma missing_company_or_contact_defaults_to_empty_witness :
  exists k prompt res d records,
    Samples.const_agent Samples.bare_email_answer k prompt = Ok res
    /\ parse_json_safe (response_text res)
         (Json.JObj [("emails", Json.JArr [])]) = Json.JObj d
    /\ Json.dict_get "emails" d = Some (Json.JArr records)
    /\ forall i e,
        nth_error records i = Some (Json.JObj e) ->
        exists item,
          nth_error [EmailItem.mk EmptyString EmptyString "Hi" "Hello."] i
          = Some item
          /\ (Json.dict_get "company" e = None ->
              EmailItem.company item = EmptyString)
          /\ (Json.dict_get "contact" e = None ->
              EmailItem.contact item = EmptyString)
          /\ (forall c, Json.dict_get "company" e = Some (Json.JStr c) ->
                        EmailItem.company item = c)
          /\ (forall c, Json.dict_get "contact" e = Some (Json.JStr c) ->
                        EmailItem.contact item = c).
Proof.
  apply (missing_company_or_contact_defaults_to_empty Samples.sample_py_str
           (Samples.const_agent Samples.bare_email_answer)
           (CompaniesPayload.mk [Samples.zara]) (ContactsPayload.mk [])
           (ResearchPayload.mk []) Samples.sample_sender "Professional" 1 true
           [] (EmailsPayload.mk
                 [EmailItem.mk EmptyString EmptyString "Hi" "Hello."])).
  - intros [].
  - vm_compute. reflexivity.
  - vm_compute. intros [H | [H | []]]; discriminate H.
  - reflexivity.
Defined.

(** ** Repeated domains *)

Lemma mem_cons_keeps (d x : string) (seen : list string) :
  PyStr.mem d seen = true -> PyStr.mem d (x :: seen) = true.
Proof.
  intros H. apply mem_true_iff. right. now apply mem_true_iff.
Qed.

Lemma normalize_loop_skips (ex : list string) (c2 : Company.t)
      (post : list Company.t) :
  forall mid clean seen,
    _excluded (domain_of c2) ex || PyStr.mem (domain_of c2) seen = true ->
    normalize_loop (mid ++ c2 :: post) ex clean seen
    = normalize_loop (mid ++ post) ex clean seen.
Proof.
  induction mid as [|x mid IH]; intros clean seen H; cbn [app normalize_loop].
  - unfold domain_of in H. now rewrite H.
  - assert (Hgrow : _excluded (domain_of c2) ex
                    || PyStr.mem (domain_of c2)
                         (_domain (Company.website x) :: seen) = true).
    { apply orb_true_iff in H. apply orb_true_iff.
      destruct H as [H | H]; [now left | right; now apply mem_cons_keeps]. }
    destruct (_excluded (_domain (Company.website x)) ex
              || PyStr.mem (_domain (Company.website x)) seen);
      [now apply IH |].
    destruct (negb (Re.found _FASHION_WORDS _)); now apply IH.
Qed.

Lemma normalize_loop_duplicate (ex : list string) (c1 c2 : Company.t)
      (mid post : list Company.t) :
  domain_of c1 = domain_of c2 ->
  forall pre clean seen,
    normalize_loop (pre ++ c1 :: mid ++ c2 :: post) ex clean seen
    = normalize_loop (pre ++ c1 :: mid ++ post) ex clean seen.
Proof.
  intros Hd. induction pre as [|x pre IH]; intros clean seen;
    cbn [app normalize_loop].
  - fold (domain_of c1).
    destruct (_excluded (domain_of c1) ex) eqn:Eex; cbn [orb].
    + apply normalize_loop_skips. now rewrite <- Hd, Eex.
    + destruct (PyStr.mem (domain_of c1) seen) eqn:Eseen.
      * apply normalize_loop_skips. rewrite <- Hd, Eseen. apply orb_true_r.
      * assert (Hseen : _excluded (domain_of c2) ex
                        || PyStr.mem (domain_of c2) (domain_of c1 :: seen)
                        = true).
        { apply orb_true_iff. right. apply mem_true_iff. left. exact Hd. }
        destruct (negb (Re.found _FASHION_WORDS _));
          now apply normalize_loop_skips.
  - destruct (_excluded (_domain (Company.website x)) ex
              || PyStr.mem (_domain (Company.website x)) seen);
      [apply IH |].
    destruct (negb (Re.found _FASHION_WORDS _)); apply IH.
Qed.

(** X22: in [normalize_companies] the first record of a domain settles the
    domain.  A later record of the same domain never counts: removing it from
    the input leaves the result unchanged, even when the first record was
    itself dropped for naming no fashion keyword. *)
Theorem later_record_of_a_domain_never_counts :
  forall (ex : option (list string)) (pre mid post : list Company.t)
         (c1 c2 : Company.t),
    domain_of c1 = domain_of c2 ->
    normalize_companies
      (CompaniesPayload.mk (pre ++ c1 :: mid ++ c2 :: post)) ex
    = normalize_companies (CompaniesPayload.mk (pre ++ c1 :: mid ++ post)) ex.
Proof.
  intros ex pre mid post c1 c2 Hd. unfold normalize_companies.
  cbn [CompaniesPayload.companies]. f_equal.
  now apply normalize_loop_duplicate.
Qed.

Lemma later_record_of_a_domain_never_counts_witness :
  normalize_companies
    (CompaniesPayload.mk [Samples.zara_plain; Samples.zara]) (Some [])
  = CompaniesPayload.mk []
  /\ normalize_companies (CompaniesPayload.mk [Samples.zara]) (Some [])
     <> CompaniesPayload.mk [].
Proof.
  split.
  - refine (eq_trans
              (later_record_of_a_domain_never_counts (Some []) [] [] []
                 Samples.zara_plain Samples.zara _) _);
      vm_compute; reflexivity.
  - vm_compute. discriminate.
Defined.

(** ** An answer with an invalid record *)

Lemma traverse_invalid {A B : Type} (f : A -> option B) (r : A) :
  f r = None -> forall l, In r l -> Validate.traverse f l = None.
Proof.
  intros Hr. induction l as [|x l IH]; intros Hin; [destruct Hin |].
  cbn [Validate.traverse]. destruct Hin as [E | Hin].
  - subst x. now rewrite Hr.
  - rewrite (IH Hin). now destruct (f x).
Qed.

Lemma construct_invalid {T P : Type} (item : Json.json -> option T)
      (field : string) (mk : list T -> P) (empty : P)
      (d : list (string * Json.json)) (records : list Json.json)
      (r : Json.json) :
  Json.dict_get field d = Some (Json.JArr records) ->
  In r records -> item r = None ->
  on_validation_error (Validate.construct item field mk (Json.JObj d)) empty
  = Ok empty.
Proof.
  intros Hd Hin Hr. unfold Validate.construct, Validate.list_field.
  rewrite Hd, (traverse_invalid item r Hr records Hin). reflexivity.
Qed.

(** X24: validation is all or nothing.  When one record of the list a model
    answer gives is not a valid record (a missing or mistyped field), what
    the stage reads from the answer is the empty payload, whatever the other
    records are, as for an answer without any record. *)
Theorem invalid_record_voids_the_answer :
  forall (res : Response) (d : list (string * Json.json))
         (records : list Json.json) (r : Json.json),
    parse_json_safe (response_text res)
      (Json.JObj [("companies", Json.JArr [])]) = Json.JObj d ->
    Json.dict_get "companies" d = Some (Json.JArr records) ->
    In r records ->
    (Validate.company r = None ->
     company_attempt res = Ok (CompaniesPayload.mk []))
    /\ (Validate.contacts_per_company r = None ->
        contact_attempt res = Ok (ContactsPayload.mk []))
    /\ (Validate.research_per_company r = None ->
        research_attempt res = Ok (ResearchPayload.mk [])).
Proof.
  intros res d records r Hparse Hd Hin.
  unfold company_attempt, contact_attempt, research_attempt.
  rewrite Hparse.
  unfold Validate.companies_payload, Validate.contacts_payload,
    Validate.research_payload.
  split; [| split]; intros Hr;
    now apply (construct_invalid _ _ _ _ d records r).
Qed.

Lemma invalid_record_voids_the_answer_witness :
  company_attempt (Samples.text_response Samples.half_valid_answer)
  = Ok (CompaniesPayload.mk []).
Proof.
  refine (proj1 (invalid_record_voids_the_answer
                   (Samples.text_response Samples.half_valid_answer)
                   [("companies",
                     Json.JArr
                       [Json.JObj [("name", Json.JStr "Zara");
                                   ("website", Json.JStr "https://www.zara.com/fr");
                                   ("why_fit", Json.JStr "fashion retailer")];
                        Json.JObj [("name", Json.JStr "Mango")]])]
                   [Json.JObj [("name", Json.JStr "Zara");
                               ("website", Json.JStr "https://www.zara.com/fr");
                               ("why_fit", Json.JStr "fashion retailer")];
                    Json.JObj [("name", Json.JStr "Mango")]]
                   (Json.JObj [("name", Json.JStr "Mango")]) _ _ _) _).
  - vm_compute. reflexivity.
  - reflexivity.
  - right. left. reflexivity.
  - reflexivity.
Defined.

(** ** The Follow-ups block *)






(** ** Distinct domains of the kept companies *)

Lemma written_domain_read (url d : string) :
  written_domain url d -> _domain url = d.
Proof.
  intros [[scheme [rest [Hs [Hne [Hocc [Hrest E]]]]]] | [Hno E]]; subst url.
  - unfold _domain, Re.search.
    destruct (domain_re_at_scheme scheme d rest Hs Hne Hocc Hrest)
      as [m [Em Eg]].
    assert (E : Re.search_from DOMAIN_RE None (scheme ++ d ++ rest) = Some m).
    { destruct (scheme ++ d ++ rest); cbn [Re.search_from]; now rewrite Em. }
    now rewrite E, Eg.
  - unfold _domain, Re.search. now rewrite (domain_re_no_http d None Hno).
Qed.

Lemma nodup_nth_error_distinct {A : Type} (l : list A) (i j : nat) (x y : A) :
  NoDup l -> i <> j ->
  nth_error l i = Some x -> nth_error l j = Some y -> x <> y.
Proof.
  intros Hnd Hij Hi Hj E. subst y. apply Hij.
  apply (proj1 (NoDup_nth_error l) Hnd).
  - apply nth_error_Some. congruence.
  - congruence.
Qed.

(** C8 (as the code has it): in every company result set that
    [run_company_finder] returns, from the model path (then normalized) or
    from the Exa fallback, no two kept companies share the domain their
    website text writes (what stands between [http://] or [https://] and
    the next slash, or the whole text when it holds no [http]), and no such
    domain, in lower case, ends with [livetrend.co], the list the stage
    excludes, or holds [livetrend]. *)
Theorem company_domains_distinct_and_allowed :
  forall (exa : option ExaClient) (agent : Agent) (td od : string)
         (n retries : Z) (fb : bool) (tr : trace) (p : CompaniesPayload.t),
    fst (run_company_finder exa agent td od n retries fb tr) = Ok p ->
    (forall i j ci cj d,
        i <> j ->
        nth_error (CompaniesPayload.companies p) i = Some ci ->
        nth_error (CompaniesPayload.companies p) j = Some cj ->
        written_domain (Company.website ci) d ->
        written_domain (Company.website cj) d ->
        False)
    /\ (forall c d,
           In c (CompaniesPayload.companies p) ->
           written_domain (Company.website c) d ->
           (forall pre, PyStr.lower d <> pre ++ "livetrend.co")
           /\ (forall pre post, PyStr.lower d <> pre ++ "livetrend" ++ post)).
Proof.
  intros exa agent td od n retries fb tr p H.
  destruct (company_finder_result _ _ _ _ _ _ _ _ _ H) as [E | [q E]].
  - rewrite E. split.
    + intros [|i] j ci cj d _ Hi; discriminate Hi.
    + intros c d [].
  - subst p.
    destruct (normalize_companies_ok q (Some ["livetrend.co"]))
      as [seen [H1 [_ H3]]].
    split.
    + intros i j ci cj d Hij Hi Hj Hdi Hdj.
      apply written_domain_read in Hdi, Hdj.
      assert (Hi' : nth_error (map domain_of
                                 (CompaniesPayload.companies
                                    (normalize_companies q (Some ["livetrend.co"]))))
                              i = Some d).
      { rewrite nth_error_map, Hi. cbn. unfold domain_of. now rewrite Hdi. }
      assert (Hj' : nth_error (map domain_of
                                 (CompaniesPayload.companies
                                    (normalize_companies q (Some ["livetrend.co"]))))
                              j = Some d).
      { rewrite nth_error_map, Hj. cbn. unfold domain_of. now rewrite Hdj. }
      now apply (nodup_nth_error_distinct _ i j d d H1 Hij Hi' Hj').
    + intros c d Hc Hd. apply written_domain_read in Hd.
      rewrite Forall_forall in H3. specialize (H3 c Hc).
      unfold domain_of in H3. rewrite Hd in H3.
      apply excluded_false in H3. destruct H3 as [Hex Hlt].
      unfold matches_exclusion in Hex. cbn [existsb] in Hex.
      rewrite orb_false_r in Hex.
      change (PyStr.lower "livetrend.co") with "livetrend.co" in Hex.
      split.
      * intros pre Epre.
        assert (Hends : PyStr.endswith (PyStr.lower d) "livetrend.co" = true)
          by (apply endswith_iff; now exists pre).
        congruence.
      * intros pre post Epre.
        assert (Hin : PyStr.contains "livetrend" (PyStr.lower d) = true)
          by (apply contains_iff; now exists pre, post).
        congruence.
Qed.

Lemma company_domains_distinct_and_allowed_witness :
  (forall i j ci cj d,
      i <> j ->
      nth_error [Company.mk "Zara" "https://www.zara.com/fr" "fashion retailer"] i
      = Some ci ->
      nth_error [Company.mk "Zara" "https://www.zara.com/fr" "fashion retailer"] j
      = Some cj ->
      written_domain (Company.website ci) d ->
      written_domain (Company.website cj) d ->
      False)
  /\ (forall c d,
         In c [Company.mk "Zara" "https://www.zara.com/fr" "fashion retailer"] ->
         written_domain (Company.website c) d ->
         (forall pre, PyStr.lower d <> pre ++ "livetrend.co")
         /\ (forall pre post, PyStr.lower d <> pre ++ "livetrend" ++ post)).
Proof.
  apply (company_domains_distinct_and_allowed None
           (Samples.const_agent Samples.three_companies_answer)
           "target" "offer" 5 1 true []
           (CompaniesPayload.mk
              [Company.mk "Zara" "https://www.zara.com/fr" "fashion retailer"])).
  vm_compute. reflexivity.
Defined.

(** C8 as stated fails: two pages of one site whose websites are written
    without scheme are both kept, each text being taken whole for its
    domain. *)
Lemma same_site_kept_twice :
  ~ (forall (agent : Agent) (p : CompaniesPayload.t),
        fst (run_company_finder None agent "target" "offer" 5 1 true []) = Ok p ->
        NoDup (map (fun c => website_domain_as_specified (Company.website c))
                   (CompaniesPayload.companies p))).
Proof.
  intros H.
  specialize (H (Samples.const_agent Samples.same_site_answer)
                (CompaniesPayload.mk
                   [Company.mk "Zara France" "www.zara.com/fr" "fashion retailer";
                    Company.mk "Zara UK" "www.zara.com/en" "fashion retailer"])).
  assert (E : NoDup ["www.zara.com"; "www.zara.com"]).
  { apply H. vm_compute. reflexivity. }
  inversion E as [| x l Hx Hl]. apply Hx. now left.
Qed.

(** ** Insights of the search fallback *)

(** The matcher hands over a rest of its subject. *)
Lemma star_loop_rest {R : Type}
      (step : option ascii -> string -> option string -> @Re.cont R -> option R)
      (k : @Re.cont R) :
  (forall prev s cap k' x,
      step prev s cap k' = Some x ->
      exists prev' s' cap' pre, s = pre ++ s' /\ k' prev' s' cap' = Some x) ->
  forall fuel prev s cap x,
    Re.star_loop step k fuel prev s cap = Some x ->
    exists prev' s' cap' pre, s = pre ++ s' /\ k prev' s' cap' = Some x.
Proof.
  intros Hstep. induction fuel as [|fuel IH]; intros prev s cap x H;
    cbn [Re.star_loop] in H.
  - now exists prev, s, cap, EmptyString.
  - match type of H with
    | match ?e with _ => _ end = _ => destruct e as [y |] eqn:E
    end.
    + inversion H; subst y.
      destruct (Hstep _ _ _ _ _ E) as [p1 [s1 [c1 [pre1 [E1 K1]]]]].
      destruct (String.length s1 <? String.length s); [| discriminate].
      destruct (IH _ _ _ _ K1) as [p2 [s2 [c2 [pre2 [E2 K2]]]]].
      exists p2, s2, c2, (pre1 ++ pre2).
      split; [| exact K2]. now rewrite E1, E2, append_assoc.
    + now exists prev, s, cap, EmptyString.
Qed.

Lemma exec_rest {R : Type} : forall (r : Re.regex) prev s cap (k : @Re.cont R) x,
  Re.exec r prev s cap k = Some x ->
  exists prev' s' cap' pre, s = pre ++ s' /\ k prev' s' cap' = Some x.
Proof.
  induction r as [| p | r1 IH1 r2 IH2 | r1 IH1 r2 IH2 | r1 IH1 | r1 IH1 | p | |];
    intros prev s cap k x H.
  - now exists prev, s, cap, EmptyString.
  - cbn [Re.exec] in H. destruct s as [|c s]; [discriminate |].
    destruct (p c); [| discriminate].
    now exists (Some c), s, cap, (String c EmptyString).
  - cbn [Re.exec] in H.
    destruct (IH1 _ _ _ _ _ H) as [p1 [s1 [c1 [pre1 [E1 K1]]]]].
    destruct (IH2 _ _ _ _ _ K1) as [p2 [s2 [c2 [pre2 [E2 K2]]]]].
    exists p2, s2, c2, (pre1 ++ pre2).
    split; [| exact K2]. now rewrite E1, E2, append_assoc.
  - cbn [Re.exec] in H.
    destruct (Re.exec r1 prev s cap k) as [y |] eqn:E.
    + inversion H; subst y. now apply (IH1 _ _ _ _ _ E).
    + now apply (IH2 _ _ _ _ _ H).
  - apply (star_loop_rest (Re.exec r1) k (fun p s c k' y => IH1 p s c k' y)
             (S (String.length s)) prev s cap x H).
  - cbn [Re.exec] in H.
    destruct (IH1 _ _ _ _ _ H) as [p1 [s1 [c1 [pre1 [E1 K1]]]]].
    now exists p1, s1, (Some (PyStr.take (String.length s - String.length s1) s)),
      pre1.
  - cbn [Re.exec] in H. destruct prev as [c |]; [| discriminate].
    destruct (p c); [| discriminate].
    now exists (Some c), s, cap, EmptyString.
  - cbn [Re.exec] in H.
    destruct s as [|c s]; [now exists prev, EmptyString, cap, EmptyString |].
    destruct c as [[] [] [] [] [] [] [] []]; try discriminate.
    destruct s; [| discriminate].
    now exists prev, (String "010" EmptyString), cap, EmptyString.
  - cbn [Re.exec] in H.
    destruct (PyStr.blank_width s) as [|n]; [discriminate |].
    exists (String.get n s), (PyStr.drop (S n) s), cap, (PyStr.take (S n) s).
    split; [symmetry; apply take_drop | exact H].
Qed.

Lemma match_here_rest (r : Re.regex) (prev : option ascii) (s : string)
      (m : Re.rmatch) :
  Re.match_here r prev s = Some m -> exists pre, s = pre ++ Re.m_rest m.
Proof.
  unfold Re.match_here. intros H.
  destruct (exec_rest _ _ _ _ _ _ H) as [p1 [s1 [c1 [pre [E K]]]]].
  inversion K. now exists pre.
Qed.

(** Every piece of a split stands in the text. *)
Lemma split_from_pieces (r : Re.regex) (piece : string) :
  forall fuel prev s cur,
    In piece (Re.split_from fuel r prev s cur) ->
    exists a b, cur ++ s = a ++ piece ++ b.
Proof.
  induction fuel as [|fuel IH]; intros prev s cur H; cbn [Re.split_from] in H.
  - destruct H as [E | []]. subst piece. exists EmptyString, EmptyString.
    cbn [append]. now rewrite append_nil_r.
  - destruct s as [|c s].
    + destruct H as [E | []]. subst piece. exists EmptyString, EmptyString.
      cbn [append]. now rewrite !append_nil_r.
    + assert (Hskip : In piece (Re.split_from fuel r (Some c) s
                                  (cur ++ String c EmptyString)) ->
                      exists a b, cur ++ String c s = a ++ piece ++ b).
      { intros H'. destruct (IH _ _ _ H') as [a [b E]].
        exists a, b. rewrite <- E, append_assoc. reflexivity. }
      destruct (Re.match_here r prev (String c s)) as [m |] eqn:Em;
        [| now apply Hskip].
      destruct (String.length (Re.m_rest m) <? String.length (String c s));
        [| now apply Hskip].
      destruct H as [E | H].
      * subst piece. exists EmptyString, (String c s). reflexivity.
      * destruct (IH _ _ _ H) as [a [b E]]. cbn [append] in E.
        destruct (match_here_rest _ _ _ _ Em) as [pre Epre].
        exists (cur ++ pre ++ a), b.
        rewrite Epre, E, !append_assoc. reflexivity.
Qed.

Lemma split_sentences text s0 :
  In s0 (Re.split SENTENCE_END_RE text) -> sentence_of text s0.
Proof.
  intros H. split; [exact H |].
  unfold Re.split in H. now apply split_from_pieces in H.
Qed.

Lemma extract_key_points_sound text brand :
  Forall (fun s => exists s0,
              sentence_of text s0
              /\ 40 <= PyStr.len s0 /\ PyStr.len s0 <= 200
              /\ s = PyStr.strip s0)
         (_extract_key_points text brand).
Proof.
  unfold _extract_key_points. apply Forall_firstn_of.
  rewrite Forall_forall. intros x Hx.
  apply in_map_iff in Hx. destruct Hx as [s0 [Hs Hin]].
  apply filter_In in Hin. destruct Hin as [Hin Hkeep].
  apply andb_true_iff in Hkeep. destruct Hkeep as [Hkeep Hmax].
  apply andb_true_iff in Hkeep. destruct Hkeep as [_ Hmin].
  apply Nat.leb_le in Hmin, Hmax.
  exists s0. split; [now apply split_sentences |].
  split; [assumption | split; [assumption | now symmetry]].
Qed.

Lemma retrieved_by_grows exa tr evs text :
  retrieved_by exa tr text -> retrieved_by exa (tr ++ evs)%list text.
Proof.
  intros [n [q [items [r [Hn H]]]]]. exists n, q, items, r.
  split; [| exact H]. rewrite filter_app.
  rewrite nth_error_app1; [exact Hn |]. apply nth_error_Some. congruence.
Qed.

Lemma fallback_insight_grows exa tr evs s :
  fallback_insight exa tr s -> fallback_insight exa (tr ++ evs)%list s.
Proof.
  intros [text [s0 [Hr H]]]. exists text, s0.
  split; [now apply retrieved_by_grows | exact H].
Qed.

Lemma research_items_insights exa tr brand (found : list SearchItem) :
  (forall r text, In r found -> item_field r FText = Ok text ->
                  retrieved_by exa tr text) ->
  forall items insights,
    (forall r, In r items -> In r found) ->
    Forall (fallback_insight exa tr) insights ->
    Forall (fallback_insight exa tr) (research_items items brand insights).
Proof.
  intros Hfound.
  induction items as [|r items IH]; intros insights Hsub H;
    cbn [research_items]; [assumption |].
  destruct (item_field r FText) as [text | e] eqn:Et; [| assumption].
  apply IH; [intros r' Hr'; apply Hsub; now right |].
  apply add_new_forall; [| assumption].
  eapply Forall_impl; [| apply extract_key_points_sound].
  intros s [s0 Hs]. exists text, s0.
  split; [| exact Hs]. apply (Hfound r); [apply Hsub; now left | exact Et].
Qed.

Lemma research_queries_insights exa brand debug :
  forall queries insights tr out tr',
    research_queries exa queries brand debug insights tr = (Ok out, tr') ->
    Forall (fallback_insight exa tr) insights ->
    Forall (fallback_insight exa tr') out
    /\ exists evs, tr' = (tr ++ evs)%list.
Proof.
  induction queries as [|q queries IH]; intros insights tr out tr' H Hi;
    cbn [research_queries] in H.
  - inversion H; subst. split; [assumption |].
    exists []. now rewrite app_nil_r.
  - unfold bind at 1 in H.
    assert (Hlog : exists evs0,
               (if debug then log_info ("[EXA] search research query: " ++ q)
                else ret tt) tr = (Ok tt, (tr ++ evs0)%list)
               /\ filter is_search evs0 = []).
    { destruct debug.
      - exists [EvLog ("[EXA] search research query: " ++ q)]. now split.
      - exists []. rewrite app_nil_r. now split. }
    destruct Hlog as [evs0 [E0 F0]]. rewrite E0 in H.
    unfold bind at 1 in H.
    unfold try_except, bind at 1, exa_search_and_contents, ret in H.
    set (tr1 := ((tr ++ evs0) ++ [EvSearchAndContents q 3%Z])%list) in *.
    assert (Hgrow : Forall (fallback_insight exa tr1) insights).
    { eapply Forall_impl; [| exact Hi]. intros s Hs. unfold tr1.
      rewrite <- app_assoc. now apply fallback_insight_grows. }
    assert (Hcall : nth_error (filter is_search tr1) (searches (tr ++ evs0)%list)
                    = Some (EvSearchAndContents q 3%Z)).
    { unfold tr1. rewrite filter_app. cbn [filter is_search].
      rewrite nth_error_app2 by (unfold searches; lia).
      unfold searches. now rewrite Nat.sub_diag. }
    destruct (search_and_contents exa (searches (tr ++ evs0)%list) q 3%Z)
      as [items | e] eqn:Es.
    + destruct (IH _ _ _ _ H) as [Hout [evs E]].
      * apply (research_items_insights exa tr1 brand items);
          [| auto | exact Hgrow].
        intros r text Hr Ht.
        now exists (searches (tr ++ evs0)%list), q, items, r.
      * split; [exact Hout |].
        exists (evs0 ++ [EvSearchAndContents q 3%Z] ++ evs)%list.
        rewrite E. unfold tr1. now rewrite <- !app_assoc.
    + destruct (IH _ _ _ _ H Hgrow) as [Hout [evs E]].
      split; [exact Hout |].
      exists (evs0 ++ [EvSearchAndContents q 3%Z] ++ evs)%list.
      rewrite E. unfold tr1. now rewrite <- !app_assoc.
Qed.

Lemma research_companies_insights exa debug :
  forall cs out tr out' tr',
    research_companies exa cs debug out tr = (Ok out', tr') ->
    Forall (fun rc => Forall (fallback_insight exa tr)
                             (ResearchPerCompany.insights rc)) out ->
    Forall (fun rc => Forall (fallback_insight exa tr')
                             (ResearchPerCompany.insights rc)) out'.
Proof.
  induction cs as [|c cs IH]; intros out tr out' tr' H Hout;
    cbn [research_companies] in H.
  - inversion H; now subst.
  - unfold bind at 1 in H.
    destruct (research_queries exa _ _ debug [] tr) as [[ins | e] tr1] eqn:E;
      [| discriminate].
    destruct (research_queries_insights exa _ debug _ _ _ _ _ E (Forall_nil _))
      as [Hins [evs Etr]].
    apply (IH _ _ _ _ H). apply Forall_app. split.
    + eapply Forall_impl; [| exact Hout]. intros rc Hrc.
      eapply Forall_impl; [| exact Hrc]. intros s Hs.
      rewrite Etr. now apply fallback_insight_grows.
    + constructor; [| constructor].
      cbn [ResearchPerCompany.insights]. now apply Forall_firstn_of.
Qed.

Lemma collect_research_insights exa companies debug tr p tr' :
  collect_research_via_exa (Some exa) companies debug tr = (Ok p, tr') ->
  Forall (fun rc => Forall (fallback_insight exa tr')
                           (ResearchPerCompany.insights rc))
         (ResearchPayload.companies p).
Proof.
  unfold collect_research_via_exa, bind.
  destruct (research_companies exa _ debug [] tr) as [[out | e] tr1] eqn:E;
    [| discriminate].
  cbn [ret]. intros H. inversion H; subst p tr'.
  cbn [ResearchPayload.companies].
  apply (research_companies_insights exa debug _ [] tr out tr1 E).
  constructor.
Qed.

(** C6 (as the code has it): when [run_research] takes the Exa fallback (its
    trace then holds the fallback log line), every insight of the payload is
    at most 200 characters long and is the stripped form of a sentence of 40
    to 200 characters of a text that one of the searches of the run
    retrieved.  On the model path the insights pass the noise and keyword
    filters only, without any bound on length. *)
Theorem fallback_insights_from_bounded_sentences :
  forall (exa : option ExaClient) (agent : Agent)
         (companies : CompaniesPayload.t) (retries : Z) (fb : bool)
         (tr : trace) (p : ResearchPayload.t),
    ~ In RESEARCH_FALLBACK_LOG tr ->
    fst (run_research exa agent companies retries fb tr) = Ok p ->
    In RESEARCH_FALLBACK_LOG
       (snd (run_research exa agent companies retries fb tr)) ->
    Forall (fun rc =>
              Forall (fun s =>
                        PyStr.len s <= 200
                        /\ exists client,
                            exa = Some client
                            /\ fallback_insight client
                                 (snd (run_research exa agent companies
                                         retries fb tr)) s)
                     (ResearchPerCompany.insights rc))
           (ResearchPayload.companies p).
Proof.
  intros exa agent companies retries fb tr p Htr.
  unfold run_research. set (prompt := (_ ++ _)%string).
  unfold bind at 1 4 7.
  destruct (attempts_emits_attempt_events "Research" agent prompt
              research_attempt has_research retries (loop_fuel retries) 0%Z
              (ResearchPayload.mk []) tr) as [evs [E F]].
  destruct (attempts _ _ _ _ _ _ _ _ _ tr) as [[p1 | e] tr1];
    cbn [snd] in E; subst tr1; [| discriminate].
  destruct (negb (has_research p1) && fb).
  - unfold bind at 1 3 5. unfold bind at 1 2 3, log_info, emit.
    destruct (collect_research_via_exa exa companies true _) as [[p2 | e] tr2]
      eqn:E2; [| discriminate].
    cbn [ret fst snd]. intros H _. inversion H; subst p.
    assert (H2 : Forall (fun rc =>
                           Forall (fun s =>
                                     exists client,
                                       exa = Some client
                                       /\ fallback_insight client tr2 s)
                                  (ResearchPerCompany.insights rc))
                   (ResearchPayload.companies p2)).
    { destruct exa as [client |].
      - eapply Forall_impl;
          [| exact (collect_research_insights client _ _ _ _ _ E2)].
        intros rc Hrc. eapply Forall_impl; [| exact Hrc].
        intros s Hs. now exists client.
      - cbn in E2. inversion E2. constructor. }
    assert (H3 : Forall (fun rc =>
                           Forall (fun s =>
                                     exists client,
                                       exa = Some client
                                       /\ fallback_insight client tr2 s)
                                  (ResearchPerCompany.insights rc))
                   (ResearchPayload.companies
                      (if has_research p2 then clean_research p2 else p2))).
    { destruct (has_research p2); [now apply clean_research_forall | assumption]. }
    eapply Forall_impl; [| exact H3].
    intros rc Hrc. eapply Forall_impl; [| exact Hrc].
    intros s [client [Ec Hs]]. split; [| now exists client].
    destruct Hs as [text [s0 [_ [_ [_ [Hmax Es]]]]]]. subst s.
    pose proof (strip_len s0). lia.
  - unfold bind. cbn [ret fst snd]. intros _ Hin. exfalso.
    now apply (attempts_no_other_event RESEARCH_FALLBACK_LOG tr evs eq_refl Htr F).
Qed.

Lemma fallback_insights_from_bounded_sentences_witness :
  Forall (fun rc =>
            Forall (fun s =>
                      PyStr.len s <= 200
                      /\ exists client,
                          Some Samples.french_exa = Some client
                          /\ fallback_insight client
                               (snd (run_research (Some Samples.french_exa)
                                       (Samples.const_agent EmptyString)
                                       (CompaniesPayload.mk [Samples.zara])
                                       1 true [])) s)
                   (ResearchPerCompany.insights rc))
         [ResearchPerCompany.mk "Zara" [Samples.french_sentence]].
Proof.
  apply (fallback_insights_from_bounded_sentences (Some Samples.french_exa)
           (Samples.const_agent EmptyString)
           (CompaniesPayload.mk [Samples.zara]) 1 true []
           (ResearchPayload.mk
              [ResearchPerCompany.mk "Zara" [Samples.french_sentence]])).
  - intros [].
  - vm_compute. reflexivity.
  - vm_compute. do 4 right. left. reflexivity.
Defined.

(** The lengths of the sample sentence: characters, then bytes. *)
Example french_sentence_lengths :
  PyStr.len Samples.french_sentence = 198
  /\ String.length Samples.french_sentence = 217.
Proof. split; vm_compute; reflexivity. Qed.

(** C6 as stated fails on the model path: an insight of six characters
    returned by the agent is kept. *)
Lemma model_insights_not_bounded :
  ~ (forall (agent : Agent) (p : ResearchPayload.t),
        fst (run_research None agent (CompaniesPayload.mk [Samples.zara])
               1 true []) = Ok p ->
        Forall (fun rc =>
                  Forall (fun s => 40 <= PyStr.len s /\ PyStr.len s <= 200)
                         (ResearchPerCompany.insights rc))
               (ResearchPayload.companies p)).
Proof.
  intros H.
  specialize (H (Samples.const_agent Samples.short_insight_answer)
                (ResearchPayload.mk [ResearchPerCompany.mk "Zara" ["retail"]])).
  assert (E : Forall (fun rc =>
                        Forall (fun s => 40 <= PyStr.len s
                                         /\ PyStr.len s <= 200)
                               (ResearchPerCompany.insights rc))
                [ResearchPerCompany.mk "Zara" ["retail"]]).
  { apply H. vm_compute. reflexivity. }
  inversion E as [| x l Hx Hl]. cbn in Hx.
  inversion Hx as [| y m Hy Hm]. vm_compute in Hy. lia.
Qed.

(** ** The why_fit of a company *)

Lemma slice_to_len : forall s n,
  PyStr.len (PyStr.slice_to n s) = Nat.min n (PyStr.len s).
Proof.
  induction s as [|c s IH]; intros n; cbn [PyStr.slice_to PyStr.len].
  - now rewrite Nat.min_0_r.
  - destruct (PyStr.is_cont c) eqn:E.
    + cbn [PyStr.len]. rewrite E. apply IH.
    + destruct n as [|n]; [reflexivity |].
      cbn [PyStr.len]. rewrite E, IH. reflexivity.
Qed.

Lemma slice_to_prefix : forall s n, exists rest, s = PyStr.slice_to n s ++ rest.
Proof.
  induction s as [|c s IH]; intros n; cbn [PyStr.slice_to].
  - now exists EmptyString.
  - destruct (PyStr.is_cont c).
    + destruct (IH n) as [rest E]. exists rest. cbn [append]. now rewrite <- E.
    + destruct n as [|n]; [now exists (String c s) |].
      destruct (IH n) as [rest E]. exists rest. cbn [append]. now rewrite <- E.
Qed.

Lemma normalize_loop_kept (Q : Company.t -> Prop) (ex : list string)
      (all : list Company.t) :
  (forall c0 name,
      In c0 all ->
      Q (Company.mk name (Company.website c0)
           (_clean_why_fit (Company.why_fit c0) GENERIC_WHY_FIT))) ->
  forall cs clean seen,
    (forall c0, In c0 cs -> In c0 all) ->
    Forall Q clean -> Forall Q (normalize_loop cs ex clean seen).
Proof.
  intros HQ. induction cs as [|c cs IH]; intros clean seen Hsub H;
    cbn [normalize_loop]; [assumption |].
  assert (Hsub' : forall c0, In c0 cs -> In c0 all)
    by (intros c0 Hc0; apply Hsub; now right).
  destruct (_excluded _ ex || PyStr.mem _ seen); [now apply IH |].
  destruct (negb (Re.found _FASHION_WORDS _)); apply IH; try assumption.
  apply Forall_app. split; [assumption |].
  constructor; [| constructor]. apply HQ. apply Hsub. now left.
Qed.

(** X11: what normalization writes for [why_fit].  Every company that
    [normalize_companies] keeps stems from a record of its input with the
    same website; its [why_fit] is the generic sentence when that of the
    record is empty or holds a noise word, and otherwise the first 160
    characters of that of the record, stripped.  So every company that
    [run_company_finder] returns has a [why_fit] of at most 160
    characters. *)
Theorem company_why_fit_at_most_160 :
  (forall (payload : CompaniesPayload.t) (ex : option (list string))
          (c : Company.t),
      In c (CompaniesPayload.companies (normalize_companies payload ex)) ->
      exists c0,
        In c0 (CompaniesPayload.companies payload)
        /\ Company.website c = Company.website c0
        /\ (((Company.why_fit c0 = EmptyString
              \/ Re.found _BAD_SNIPPET_RE (Company.why_fit c0) = true)
             /\ Company.why_fit c
                = "Retailer/brand with ecommerce; matches targeting.")
            \/ (Company.why_fit c0 <> EmptyString
                /\ Re.found _BAD_SNIPPET_RE (Company.why_fit c0) = false
                /\ Company.why_fit c
                   = PyStr.slice_to 160 (PyStr.strip (Company.why_fit c0))
                /\ (exists rest,
                       PyStr.strip (Company.why_fit c0)
                       = Company.why_fit c ++ rest)
                /\ PyStr.len (Company.why_fit c)
                   = Nat.min 160
                       (PyStr.len (PyStr.strip (Company.why_fit c0))))))
  /\ (forall (exa : option ExaClient) (agent : Agent) (td od : string)
             (n retries : Z) (fb : bool) (tr : trace)
             (p : CompaniesPayload.t),
         fst (run_company_finder exa agent td od n retries fb tr) = Ok p ->
         Forall (fun c => PyStr.len (Company.why_fit c) <= 160)
                (CompaniesPayload.companies p)).
Proof.
  assert (Hval : forall text,
             ((text = EmptyString \/ Re.found _BAD_SNIPPET_RE text = true)
              /\ _clean_why_fit text GENERIC_WHY_FIT
                 = "Retailer/brand with ecommerce; matches targeting.")
             \/ (text <> EmptyString
                 /\ Re.found _BAD_SNIPPET_RE text = false
                 /\ _clean_why_fit text GENERIC_WHY_FIT
                    = PyStr.slice_to 160 (PyStr.strip text))).
  { intros text. unfold _clean_why_fit.
    destruct text as [|a text]; [left; split; [now left | reflexivity] |].
    cbn [PyStr.truthy negb orb].
    destruct (Re.found _BAD_SNIPPET_RE (String a text)) eqn:E.
    - left. split; [now right | reflexivity].
    - right. split; [discriminate | split; reflexivity]. }
  assert (Hlen : forall text,
             PyStr.len (_clean_why_fit text GENERIC_WHY_FIT) <= 160).
  { intros text. destruct (Hval text) as [[_ E] | [_ [_ E]]]; rewrite E.
    - vm_compute. lia.
    - rewrite slice_to_len. lia. }
  split.
  - intros payload ex c Hc. unfold normalize_companies in Hc.
    cbn [CompaniesPayload.companies] in Hc.
    pose proof (normalize_loop_kept
                  (fun c => exists c0,
                       In c0 (CompaniesPayload.companies payload)
                       /\ Company.website c = Company.website c0
                       /\ Company.why_fit c
                          = _clean_why_fit (Company.why_fit c0) GENERIC_WHY_FIT)
                  (match ex with Some l => l | None => [] end)
                  (CompaniesPayload.companies payload)) as Hk.
    assert (Hall : Forall (fun c => exists c0,
                               In c0 (CompaniesPayload.companies payload)
                               /\ Company.website c = Company.website c0
                               /\ Company.why_fit c
                                  = _clean_why_fit (Company.why_fit c0)
                                      GENERIC_WHY_FIT)
                     (normalize_loop (CompaniesPayload.companies payload)
                        (match ex with Some l => l | None => [] end) [] [])).
    { apply Hk; [| auto | constructor].
      intros c0 name Hc0. now exists c0. }
    rewrite Forall_forall in Hall.
    destruct (Hall c Hc) as [c0 [Hin [Hweb Hwhy]]].
    exists c0. split; [exact Hin | split; [exact Hweb |]].
    destruct (Hval (Company.why_fit c0)) as [[Hc0 E] | [Hne [Hbad E]]].
    + left. split; [exact Hc0 | now rewrite Hwhy].
    + right. split; [exact Hne | split; [exact Hbad |]].
      rewrite Hwhy, E. split; [reflexivity | split].
      * apply slice_to_prefix.
      * apply slice_to_len.
  - intros exa agent td od n retries fb tr p H.
    destruct (company_finder_result _ _ _ _ _ _ _ _ _ H) as [E | [q E]].
    + rewrite E. constructor.
    + subst p. unfold normalize_companies. cbn [CompaniesPayload.companies].
      apply (normalize_loop_kept _ _ (CompaniesPayload.companies q));
        [| auto | constructor].
      intros c0 name _. cbn [Company.why_fit]. apply Hlen.
Qed.

Lemma company_why_fit_at_most_160_witness :
  Forall (fun c => PyStr.len (Company.why_fit c) <= 160)
         [Company.mk "Zara" "https://www.zara.com/fr" "fashion retailer"].
Proof.
  apply (proj2 company_why_fit_at_most_160 None
           (Samples.const_agent Samples.three_companies_answer)
           "target" "offer" 5%Z 1%Z true []
           (CompaniesPayload.mk
              [Company.mk "Zara" "https://www.zara.com/fr" "fashion retailer"])).
  vm_compute. reflexivity.
Defined.

(** The cut counts characters: 160 of them, written on more bytes. *)
Example why_fit_counts_characters :
  PyStr.len (_clean_why_fit Samples.french_sentence GENERIC_WHY_FIT) = 160
  /\ String.length (_clean_why_fit Samples.french_sentence GENERIC_WHY_FIT)
     = 175.
Proof. split; vm_compute; reflexivity. Qed.

(** ** The tail of a page title *)

Ltac split_ifs :=
  repeat match goal with
         | |- context [if ?b then _ else _] => destruct b eqn:?
         | H : context [if ?b then _ else _] |- _ => destruct b eqn:?
         end.

(** A blank is read off the bytes it is written on. *)
Lemma blank_width_app (s x : string) (n : nat) :
  PyStr.blank_width s = S n -> PyStr.blank_width (s ++ x) = S n.
Proof.
  destruct s as [|c [|c1 [|c2 s3]]]; cbn [PyStr.blank_width append];
    intros H; split_ifs; try discriminate; try assumption;
    destruct x as [|y [|y1 x]]; cbn [PyStr.blank_width append];
    split_ifs; try discriminate; try assumption; congruence.
Qed.

Lemma blank_width_bound (s : string) (n : nat) :
  PyStr.blank_width s = S n -> S n <= String.length s.
Proof.
  destruct s as [|c [|c1 [|c2 s3]]]; cbn [PyStr.blank_width String.length];
    intros H; split_ifs; try discriminate; inversion H; lia.
Qed.

Lemma blank_width_cut (a b : string) (n : nat) :
  PyStr.blank_width (a ++ b) = S n -> S n <= String.length a ->
  PyStr.blank_width a = S n.
Proof.
  destruct a as [|c [|c1 [|c2 a3]]]; cbn [PyStr.blank_width append String.length];
    intros H Hlen; split_ifs; try discriminate; try assumption; try lia;
    destruct b as [|y [|y1 b]]; cbn [PyStr.blank_width append] in *;
    split_ifs; try discriminate; try assumption; try lia; try congruence;
    inversion H; lia.
Qed.

Lemma length_take (n : nat) : forall s,
  n <= String.length s -> String.length (PyStr.take n s) = n.
Proof.
  induction n as [|n IH]; intros [|c s] H; cbn in *; try reflexivity; try lia.
  rewrite IH; [reflexivity | lia].
Qed.

Lemma blank_from_drop : forall s k,
  PyStr.blank_from k s = PyStr.all_blank (PyStr.drop k s).
Proof.
  induction s as [|c s IH]; intros [|k]; try reflexivity.
  cbn [PyStr.blank_from PyStr.drop]. apply IH.
Qed.

Lemma all_blank_eq (c : ascii) (s : string) :
  PyStr.all_blank (String c s)
  = match PyStr.blank_width (String c s) with
    | O => false
    | S n => PyStr.all_blank (PyStr.drop (S n) (String c s))
    end.
Proof.
  unfold PyStr.all_blank at 1. cbn [PyStr.blank_from].
  destruct (PyStr.blank_width (String c s)); [reflexivity |].
  cbn [PyStr.drop]. apply blank_from_drop.
Qed.

(** A run of blanks grows by a blank at its head. *)
Lemma all_blank_cons (s x : string) (n : nat) :
  PyStr.blank_width s = S n -> PyStr.all_blank x = true ->
  PyStr.all_blank (PyStr.take (S n) s ++ x) = true.
Proof.
  intros Hw Hx. pose proof (blank_width_bound s n Hw) as Hb.
  pose proof (length_take (S n) s Hb) as Hl.
  assert (Ht : PyStr.blank_width (PyStr.take (S n) s) = S n).
  { apply (blank_width_cut _ (PyStr.drop (S n) s)); [| lia].
    now rewrite take_drop. }
  pose proof (blank_width_app _ x n Ht) as Ha.
  destruct (PyStr.take (S n) s ++ x) as [|c t] eqn:E.
  - reflexivity.
  - rewrite all_blank_eq, Ha, <- E, <- Hl at 1.
    now rewrite drop_length_app.
Qed.

(** The first byte of a blank continues no code point; its other bytes do. *)
Lemma blank_width_lead (s : string) (n : nat) :
  PyStr.blank_width s = S n ->
  match s with String c _ => PyStr.is_cont c = false | EmptyString => False end.
Proof.
  destruct s as [|c s]; [discriminate |].
  intros H.
  assert (D : PyStr.is_space c = true \/ PyStr.code c = 194
              \/ PyStr.code c = 225 \/ PyStr.code c = 226
              \/ PyStr.code c = 227).
  { revert H. cbn [PyStr.blank_width].
    destruct (PyStr.is_space c); [now left | right].
    destruct s as [|c1 [|c2 s]]; try discriminate;
      repeat match goal with
             | H : context [if ?b then _ else _] |- _ => destruct b eqn:?
             end; try discriminate;
      repeat match goal with
             | H : (_ && _) = true |- _ => apply andb_true_iff in H; destruct H
             | H : (_ =? _) = true |- _ => apply Nat.eqb_eq in H
             end; tauto. }
  unfold PyStr.is_cont, PyStr.is_space in *.
  destruct D as [D | D].
  - apply andb_false_iff. left. apply Nat.leb_gt.
    apply orb_true_iff in D. destruct D as [D | D];
      [apply orb_true_iff in D; destruct D as [D | D];
       apply andb_true_iff in D; destruct D as [_ D];
       apply Nat.leb_le in D; lia |].
    apply Nat.eqb_eq in D. lia.
  - apply andb_false_iff. right. apply Nat.leb_gt. lia.
Qed.

Lemma blank_width_straddle (a b : string) (n : nat) :
  PyStr.blank_width (a ++ b) = S n ->
  a <> EmptyString -> String.length a < S n ->
  match b with String c _ => PyStr.is_cont c = true | EmptyString => False end.
Proof.
  intros H Ha Hl.
  destruct a as [|c [|c1 [|c2 a]]]; [congruence | | |].
  - destruct b as [|y [|y1 b]]; cbn [PyStr.blank_width append String.length] in *;
      repeat match goal with
             | H : context [if ?b then _ else _] |- _ => destruct b eqn:?
             end; try discriminate; try (inversion H; lia);
      unfold PyStr.is_cont;
      repeat match goal with
             | H : (_ && _) = true |- _ => apply andb_true_iff in H; destruct H
             | H : (_ || _) = true |- _ => apply orb_true_iff in H; destruct H
             | H : (_ =? _) = true |- _ => apply Nat.eqb_eq in H
             | H : (_ <=? _) = true |- _ => apply Nat.leb_le in H
             end;
      apply andb_true_iff; split; apply Nat.leb_le; lia.
  - destruct b as [|y b]; cbn [PyStr.blank_width append String.length] in *;
      repeat match goal with
             | H : context [if ?b then _ else _] |- _ => destruct b eqn:?
             end; try discriminate; try (inversion H; lia);
      unfold PyStr.is_cont;
      repeat match goal with
             | H : (_ && _) = true |- _ => apply andb_true_iff in H; destruct H
             | H : (_ || _) = true |- _ => apply orb_true_iff in H; destruct H
             | H : (_ =? _) = true |- _ => apply Nat.eqb_eq in H
             | H : (_ <=? _) = true |- _ => apply Nat.leb_le in H
             end;
      apply andb_true_iff; split; apply Nat.leb_le; lia.
  - pose proof (blank_width_bound _ _ H) as Hb.
    cbn [PyStr.blank_width append String.length] in *.
    repeat match goal with
           | H : context [if ?b then _ else _] |- _ => destruct b eqn:?
           end; try discriminate; inversion H; lia.
Qed.

(** Blanks that end where a code point starts: what stands before the end
    is made of blanks too. *)
Lemma all_blank_left (b : string) :
  match b with String c _ => PyStr.is_cont c = false | EmptyString => True end ->
  forall m a, String.length a <= m ->
    PyStr.all_blank (a ++ b) = true -> PyStr.all_blank a = true.
Proof.
  intros Hb. induction m as [|m IH]; intros a Hm H.
  - destruct a; [reflexivity | simpl in Hm; lia].
  - destruct a as [|c a]; [reflexivity |].
    cbn [append] in H. rewrite all_blank_eq in H.
    destruct (PyStr.blank_width (String c (a ++ b))) as [|n] eqn:Ew;
      [discriminate |].
    destruct (Nat.le_gt_cases (S n) (String.length (String c a))) as [Hle | Hgt].
    + pose proof (blank_width_cut (String c a) b n Ew Hle) as Ea.
      rewrite all_blank_eq, Ea.
      apply IH.
      * pose proof (take_drop (S n) (String c a)) as E.
        apply (f_equal String.length) in E. rewrite length_append in E.
        rewrite length_take in E by exact Hle.
        cbn [String.length] in E, Hm. lia.
      * replace (PyStr.drop (S n) (String c a) ++ b)
          with (PyStr.drop (S n) (String c (a ++ b))); [exact H |].
        pose proof (take_drop (S n) (String c a)) as E.
        change (String c (a ++ b)) with (String c a ++ b).
        rewrite <- E at 1. rewrite append_assoc.
        rewrite <- (length_take (S n) (String c a) Hle) at 1.
        apply drop_length_app.
    + pose proof (blank_width_straddle (String c a) b n Ew) as Hs.
      destruct b as [|y b].
      * exfalso. apply Hs; [discriminate | lia].
      * rewrite Hb in Hs. discriminate Hs; [discriminate | lia].
Qed.

(** A string that [rstrip] leaves as it is ends on no blank. *)
Lemma rstrip_fixed : forall s,
  PyStr.rstrip s = s ->
  forall p q, s = p ++ q -> q <> EmptyString -> PyStr.all_blank q = false.
Proof.
  induction s as [|c s IH]; intros H p q E Hq.
  - destruct p; [cbn in E; congruence | discriminate].
  - cbn [PyStr.rstrip] in H.
    destruct (PyStr.all_blank (String c s)) eqn:Eb; [discriminate |].
    injection H as H.
    destruct p as [|x p]; cbn [append] in E.
    + now subst q.
    + injection E as _ E. now apply (IH H p q).
Qed.

(** The greedy loop over [\s] fails when the continuation fails after every
    run of blanks at the head of the subject. *)
Lemma star_space_none {R : Type} (k : @Re.cont R) (cap : option string) :
  forall fuel s prev,
    (forall s1 s2 prev', s = s1 ++ s2 -> PyStr.all_blank s1 = true ->
                         k prev' s2 cap = None) ->
    Re.star_loop (Re.exec Re.Space) k fuel prev s cap = None.
Proof.
  set (step := Re.exec Re.Space).
  induction fuel as [|fuel IH]; intros s prev Hk.
  - cbn [Re.star_loop]. now apply (Hk EmptyString s prev).
  - pose proof (Hk EmptyString s prev eq_refl eq_refl) as H0.
    cbn [Re.star_loop]. unfold step at 1. cbn [Re.exec].
    destruct (PyStr.blank_width s) as [|n] eqn:Ew; [exact H0 |].
    destruct (String.length (PyStr.drop (S n) s) <? String.length s);
      [| exact H0].
    rewrite IH; [exact H0 |].
    intros s1 s2 prev' E Hb.
    apply (Hk (PyStr.take (S n) s ++ s1) s2 prev').
    + rewrite append_assoc, <- E. symmetry. apply take_drop.
    + now apply all_blank_cons.
Qed.

(** The loop runs through a gap of blanks and hands over where it ends. *)
Lemma star_space_all {R : Type} (Q : R -> Prop) (k : @Re.cont R)
      (tail : string) (cap : option string) :
  PyStr.blank_width tail = 0 ->
  (forall prev, exists x, k prev tail cap = Some x /\ Q x) ->
  forall fuel gap prev,
    PyStr.all_blank gap = true ->
    String.length gap < fuel ->
    exists x,
      Re.star_loop (Re.exec Re.Space) k fuel prev (gap ++ tail) cap = Some x
      /\ Q x.
Proof.
  intros Htail Hk. set (step := Re.exec Re.Space).
  induction fuel as [|fuel IH]; intros gap prev Hgap Hfuel; [lia |].
  cbn [Re.star_loop]. unfold step at 1. cbn [Re.exec].
  destruct gap as [|c gap].
  - cbn [append]. rewrite Htail. apply Hk.
  - rewrite all_blank_eq in Hgap.
    destruct (PyStr.blank_width (String c gap)) as [|n] eqn:Ew;
      [discriminate |].
    rewrite (blank_width_app _ tail n Ew).
    pose proof (blank_width_bound _ _ Ew) as Hb.
    assert (Ed : PyStr.drop (S n) (String c gap ++ tail)
                 = PyStr.drop (S n) (String c gap) ++ tail).
    { pose proof (take_drop (S n) (String c gap)) as E.
      rewrite <- E at 1. rewrite append_assoc.
      rewrite <- (length_take (S n) (String c gap) Hb) at 1.
      apply drop_length_app. }
    assert (El : String.length (PyStr.drop (S n) (String c gap))
                 < String.length (String c gap)).
    { pose proof (take_drop (S n) (String c gap)) as E.
      apply (f_equal String.length) in E. rewrite length_append in E.
      rewrite length_take in E by exact Hb. lia. }
    rewrite Ed.
    replace (String.length (PyStr.drop (S n) (String c gap) ++ tail)
             <? String.length (String c gap ++ tail)) with true
      by (symmetry; apply Nat.ltb_lt; rewrite !length_append; lia).
    destruct (IH (PyStr.drop (S n) (String c gap))
                (String.get n (String c gap ++ tail)) Hgap) as [x [Ex Qx]];
      [lia |].
    exists x. now rewrite Ex.
Qed.

(** A greedy loop over a character class runs through a body of that class
    and hands over to the continuation where the body ends. *)
Lemma star_class_all {R : Type} (p : ascii -> bool) (Q : R -> Prop)
      (k : @Re.cont R) (tail : string) (cap : option string) :
  match tail with String c _ => p c = false | EmptyString => True end ->
  (forall prev, exists x, k prev tail cap = Some x /\ Q x) ->
  forall body fuel prev,
    Forall (fun c => p c = true) (list_ascii_of_string body) ->
    String.length body < fuel ->
    exists x,
      Re.star_loop (Re.exec (Re.Chr p)) k fuel prev (body ++ tail) cap = Some x
      /\ Q x.
Proof.
  intros Htail Hk.
  set (step := Re.exec (Re.Chr p)).
  induction body as [|c body IH]; intros fuel prev Hall Hfuel.
  - cbn [append]. destruct fuel as [|fuel]; [simpl in Hfuel; lia |].
    cbn [Re.star_loop]. unfold step.
    destruct tail as [|c tail]; cbn [Re.exec]; [apply Hk |].
    rewrite Htail. apply Hk.
  - destruct fuel as [|fuel]; [simpl in Hfuel; lia |].
    cbn [list_ascii_of_string] in Hall.
    inversion Hall as [| c' l Hc Hl]; subst.
    cbn [append Re.star_loop]. unfold step at 1. cbn [Re.exec].
    rewrite Hc. cbn [String.length].
    replace (String.length (body ++ tail) <? S (String.length (body ++ tail)))
      with true by (symmetry; apply Nat.ltb_lt; lia).
    destruct (IH fuel (Some c) Hl) as [x [Ex Qx]]; [simpl in Hfuel; lia |].
    exists x. now rewrite Ex.
Qed.

(** After the blanks the pattern needs one of its separators. *)
Lemma separator_needed {R : Type} (k : @Re.cont R) (prev : option ascii)
      (s : string) (cap : option string) :
  PyStr.startswith s "-" = false -> PyStr.startswith s "|" = false ->
  PyStr.startswith s "•" = false ->
  Re.exec (Re.Seq (Re.alts [Re.chr "-"; Re.chr "|"; Re.lit "•"])
             (Re.Seq (Re.Star Re.dot) Re.EndAnchor)) prev s cap k = None.
Proof.
  set (X := Re.Seq (Re.Star Re.dot) Re.EndAnchor).
  intros H1 H2 H3.
  cbn [Re.alts Re.lit]. unfold Re.chr. cbn [Re.exec].
  destruct s as [|c s]; [reflexivity |].
  cbn [PyStr.startswith] in H1, H2, H3.
  rewrite startswith_empty, andb_true_r in H1, H2. rewrite H1, H2.
  destruct (Ascii.eqb "226" c); [| reflexivity].
  destruct s as [|c1 s]; [reflexivity |].
  cbn [PyStr.startswith andb] in H3.
  destruct (Ascii.eqb "128" c1); [| reflexivity].
  destruct s as [|c2 s]; [reflexivity |].
  cbn [PyStr.startswith andb] in H3.
  rewrite startswith_empty, andb_true_r in H3. now rewrite H3.
Qed.

Lemma app_split : forall q tail s1 s2 : string,
  q ++ tail = s1 ++ s2 ->
  (exists m, m <> EmptyString /\ q = s1 ++ m /\ s2 = m ++ tail)
  \/ (exists t1, s1 = q ++ t1 /\ tail = t1 ++ s2).
Proof.
  induction q as [|c q IH]; intros tail s1 s2 E.
  - right. now exists s1.
  - destruct s1 as [|x s1]; cbn [append] in E.
    + left. exists (String c q). repeat split; [discriminate | now subst s2].
    + injection E as Ex E. subst x.
      destruct (IH tail s1 s2 E) as [[m [Hm [E1 E2]]] | [t1 [E1 E2]]].
      * left. exists m. cbn [append]. now rewrite <- E1.
      * right. exists t1. cbn [append]. now rewrite <- E1.
Qed.

Lemma occurs_app (c : ascii) (a b : string) :
  occurs c (a ++ b) = occurs c a || occurs c b.
Proof.
  induction a as [|x a IH]; cbn [append occurs]; [reflexivity |].
  now rewrite IH, orb_assoc.
Qed.

(** Inside a name that holds no separator, no separator starts, whatever
    follows the name. *)
Lemma name_holds_no_separator (name p m tail : string) :
  name = p ++ m -> m <> EmptyString ->
  occurs "-" name = false -> occurs "|" name = false ->
  PyStr.contains "•" name = false ->
  match tail with
  | String c _ => PyStr.is_cont c = false
  | EmptyString => True
  end ->
  PyStr.startswith (m ++ tail) "-" = false
  /\ PyStr.startswith (m ++ tail) "|" = false
  /\ PyStr.startswith (m ++ tail) "•" = false.
Proof.
  intros E Hm H1 H2 H3 Htail. subst name.
  destruct m as [|c m]; [congruence |].
  rewrite occurs_app in H1, H2. cbn [occurs] in H1, H2.
  apply orb_false_iff in H1. destruct H1 as [_ H1].
  apply orb_false_iff in H1. destruct H1 as [H1 _].
  apply orb_false_iff in H2. destruct H2 as [_ H2].
  apply orb_false_iff in H2. destruct H2 as [H2 _].
  cbn [append PyStr.startswith]. rewrite H1, H2.
  repeat split.
  destruct (Ascii.eqb "226" c) eqn:Ec; [| reflexivity].
  cbn [andb].
  destruct m as [|c1 m]; cbn [append].
  { destruct tail as [|y tail]; [reflexivity |].
    cbn [PyStr.startswith].
    destruct (Ascii.eqb "128" y) eqn:Ey; [| reflexivity].
    apply Ascii.eqb_eq in Ey. subst y. discriminate Htail. }
  cbn [PyStr.startswith].
  destruct (Ascii.eqb "128" c1) eqn:Ec1; [| reflexivity].
  cbn [andb].
  destruct m as [|c2 m]; cbn [append].
  { destruct tail as [|y tail]; [reflexivity |].
    cbn [PyStr.startswith].
    destruct (Ascii.eqb "162" y) eqn:Ey; [| reflexivity].
    apply Ascii.eqb_eq in Ey. subst y. discriminate Htail. }
  cbn [PyStr.startswith].
  destruct (Ascii.eqb "162" c2) eqn:Ec2; [| reflexivity].
  exfalso.
  apply Ascii.eqb_eq in Ec, Ec1, Ec2. subst c c1 c2.
  assert (Hc : PyStr.contains "•" (p ++ "•" ++ m) = true)
    by apply contains_skip, contains_here.
  cbn [append] in Hc. rewrite Hc in H3. discriminate H3.
Qed.

(** Inside a name without separator that ends on a visible character, the
    pattern matches nowhere. *)
Lemma title_name_blocked {R : Type} (k : @Re.cont R) (name tail : string) :
  occurs "-" name = false -> occurs "|" name = false ->
  PyStr.contains "•" name = false ->
  PyStr.rstrip name = name ->
  match tail with
  | String c _ => PyStr.is_cont c = false
  | EmptyString => True
  end ->
  forall p q prev,
    name = p ++ q -> q <> EmptyString ->
    Re.exec TITLE_TAIL_RE prev (q ++ tail) None k = None.
Proof.
  intros H1 H2 H3 Hr Htail p q prev E Hq.
  refine (star_space_none
            (fun prev' s' cap' =>
               Re.exec (Re.Seq (Re.alts [Re.chr "-"; Re.chr "|"; Re.lit "•"])
                          (Re.Seq (Re.Star Re.dot) Re.EndAnchor))
                 prev' s' cap' k)
            None (S (String.length (q ++ tail))) (q ++ tail) prev _).
  clear prev. intros s1 s2 prev Es Hb.
  destruct (app_split q tail s1 s2 Es) as [[m [Hm [E1 E2]]] | [t1 [E1 E2]]].
  - subst s2.
    destruct (name_holds_no_separator name (p ++ s1) m tail) as [A [B C]];
      auto.
    { now rewrite append_assoc, <- E1. }
    now apply separator_needed.
  - exfalso. subst s1.
    assert (Hq' : PyStr.all_blank q = true).
    { apply (all_blank_left t1) with (m := String.length q); auto.
      destruct t1 as [|y t1]; [exact I |].
      subst tail. exact Htail. }
    rewrite (rstrip_fixed name Hr p q E Hq) in Hq'. discriminate Hq'.
Qed.

(** At a separator, after any gap of blanks, the pattern takes the rest of
    the line. *)
Lemma title_tail_taken (K : option ascii -> string -> option string -> Re.rmatch)
      (gap sep rest : string) (prev : option ascii) :
  PyStr.all_blank gap = true ->
  In sep ["-"; "|"; "•"] ->
  occurs "010" rest = false ->
  exists l,
    Re.exec TITLE_TAIL_RE prev (gap ++ sep ++ rest) None
      (fun p x y => Some (K p x y))
    = Some (K l EmptyString None).
Proof.
  intros Hgap Hsep Hrest.
  assert (Hline : Forall (fun c => negb (Ascii.eqb c "010") = true)
                         (list_ascii_of_string rest)).
  { clear -Hrest. induction rest as [|c rest IH]; cbn; [constructor |].
    cbn [occurs] in Hrest. apply orb_false_iff in Hrest.
    destruct Hrest as [Hc Hrest]. constructor; [| now apply IH].
    rewrite Ascii.eqb_sym in Hc. now rewrite Hc. }
  assert (Hdot : forall p,
             exists x,
               Re.exec (Re.Seq (Re.Star Re.dot) Re.EndAnchor) p rest None
                 (fun p x y => Some (K p x y)) = Some x
               /\ exists l, x = K l EmptyString None).
  { intros p.
    pose proof (star_class_all (fun c => negb (Ascii.eqb c "010"))
                  (fun x => exists l, x = K l EmptyString None)
                  (fun prev' s' cap' =>
                     Re.exec Re.EndAnchor prev' s' cap'
                       (fun p x y => Some (K p x y)))
                  EmptyString None I) as H.
    specialize (H (fun q => ex_intro _ (K q EmptyString None)
                              (conj eq_refl (ex_intro _ q eq_refl)))
                  rest (S (String.length rest)) p Hline (Nat.lt_succ_diag_r _)).
    rewrite append_nil_r in H. exact H. }
  assert (Hsepm : forall p,
             exists x,
               Re.exec (Re.Seq (Re.alts [Re.chr "-"; Re.chr "|"; Re.lit "•"])
                          (Re.Seq (Re.Star Re.dot) Re.EndAnchor))
                 p (sep ++ rest) None (fun p x y => Some (K p x y)) = Some x
               /\ exists l, x = K l EmptyString None).
  { intros p.
    assert (Hlast : exists c, forall x,
               Re.exec (Re.Seq (Re.Star Re.dot) Re.EndAnchor) (Some c) rest None
                 (fun p x y => Some (K p x y)) = Some x ->
               Re.exec (Re.Seq (Re.alts [Re.chr "-"; Re.chr "|"; Re.lit "•"])
                          (Re.Seq (Re.Star Re.dot) Re.EndAnchor))
                 p (sep ++ rest) None (fun p x y => Some (K p x y)) = Some x).
    { set (X := Re.Seq (Re.Star Re.dot) Re.EndAnchor).
      destruct Hsep as [E | [E | [E | []]]]; subst sep;
        [exists "-"%char | exists "|"%char | exists "162"%char];
        intros x Ex; cbn [append Re.alts Re.lit]; unfold Re.chr;
        cbn [Re.exec Ascii.eqb Bool.eqb andb]; now rewrite Ex. }
    destruct Hlast as [c Hc]. destruct (Hdot (Some c)) as [x [Ex Qx]].
    exists x. split; [now apply Hc | exact Qx]. }
  destruct (star_space_all
              (fun x => exists l, x = K l EmptyString None)
              (fun prev' s' cap' =>
                 Re.exec (Re.Seq (Re.alts [Re.chr "-"; Re.chr "|"; Re.lit "•"])
                            (Re.Seq (Re.Star Re.dot) Re.EndAnchor))
                   prev' s' cap' (fun p x y => Some (K p x y)))
              (sep ++ rest) None) with
    (gap := gap) (fuel := S (String.length (gap ++ sep ++ rest)))
    (prev := prev) as [x [Ex [l El]]].
  - destruct Hsep as [E | [E | [E | []]]]; subst sep;
      [destruct rest as [|c1 [|c2 r]]; vm_compute; reflexivity
      | destruct rest as [|c1 [|c2 r]]; vm_compute; reflexivity
      | vm_compute; reflexivity].
  - exact Hsepm.
  - exact Hgap.
  - rewrite length_append. lia.
  - exists l. rewrite <- El. exact Ex.
Qed.

Lemma sub_title_tail (name gap sep rest : string) :
  occurs "-" name = false -> occurs "|" name = false ->
  PyStr.contains "•" name = false ->
  PyStr.rstrip name = name ->
  PyStr.all_blank gap = true ->
  In sep ["-"; "|"; "•"] ->
  occurs "010" rest = false ->
  forall q p fuel prev,
    name = p ++ q ->
    String.length (q ++ gap ++ sep ++ rest) < fuel ->
    Re.sub_empty_from fuel TITLE_TAIL_RE prev (q ++ gap ++ sep ++ rest) = q.
Proof.
  intros H1 H2 H3 Hr Hgap Hsep Hrest.
  assert (Hlen : 0 < String.length (gap ++ sep ++ rest)).
  { rewrite !length_append.
    destruct Hsep as [E | [E | [E | []]]]; subst sep; cbn; lia. }
  assert (Htail : match gap ++ sep ++ rest with
                  | String c _ => PyStr.is_cont c = false
                  | EmptyString => True
                  end).
  { destruct gap as [|c gap].
    - destruct Hsep as [E | [E | [E | []]]]; subst sep; reflexivity.
    - rewrite all_blank_eq in Hgap.
      destruct (PyStr.blank_width (String c gap)) as [|n] eqn:Ew;
        [discriminate |].
      exact (blank_width_lead _ _ Ew). }
  induction q as [|c q IH]; intros p fuel prev E Hfuel.
  - cbn [append] in *. destruct fuel as [|fuel]; [lia |].
    cbn [Re.sub_empty_from]. unfold Re.match_here at 1.
    destruct (title_tail_taken
                (fun p x y =>
                   {| Re.m_text :=
                        PyStr.take (String.length (gap ++ sep ++ rest)
                                    - String.length x) (gap ++ sep ++ rest);
                      Re.m_group1 := y; Re.m_rest := x; Re.m_last := p |})
                gap sep rest prev Hgap Hsep Hrest) as [l El].
    rewrite El. cbn [Re.m_rest Re.m_last String.length].
    replace (0 <? String.length (gap ++ sep ++ rest)) with true
      by (symmetry; now apply Nat.ltb_lt).
    destruct fuel as [|fuel]; [reflexivity |]. cbn [Re.sub_empty_from].
    destruct (Re.match_here TITLE_TAIL_RE l EmptyString); reflexivity.
  - cbn [append] in *. destruct fuel as [|fuel]; [lia |].
    cbn [Re.sub_empty_from]. unfold Re.match_here at 1.
    match goal with
    | |- context [Re.exec TITLE_TAIL_RE prev _ None ?k] =>
        pose proof (title_name_blocked k name (gap ++ sep ++ rest)
                      H1 H2 H3 Hr Htail p (String c q) prev E
                      ltac:(discriminate)) as Hb
    end.
    cbn [append] in Hb. rewrite Hb.
    f_equal. apply (IH (p ++ String c EmptyString)).
    + now rewrite append_assoc.
    + cbn [String.length] in Hfuel. lia.
Qed.

(** X23: the name read from a page title.  For a title made of a name, a gap
    of blanks (those of Unicode, the no-break space among them), a separator
    (a hyphen, a bar or a bullet) and the rest of the line, where the name
    holds no separator and ends on no blank, [_infer_company_name] cuts the
    title at the blanks before the separator and returns the name stripped,
    unless the stripped name is empty, is home or welcome, or holds a legal
    word (then the brand of the domain is returned). *)
Theorem title_is_cut_at_the_separator :
  forall (name gap sep rest url : string),
    occurs "-" name = false -> occurs "|" name = false ->
    PyStr.contains "•" name = false ->
    PyStr.rstrip name = name ->
    PyStr.all_blank gap = true ->
    In sep ["-"; "|"; "•"] ->
    occurs "010" rest = false ->
    Re.sub_empty TITLE_TAIL_RE (name ++ gap ++ sep ++ rest) = name
    /\ _infer_company_name (name ++ gap ++ sep ++ rest) url
       = (if PyStr.truthy (PyStr.strip name)
             && negb (PyStr.mem (PyStr.lower (PyStr.strip name))
                        ["home"; "welcome"])
             && negb (Re.found LEGAL_RE (PyStr.strip name))
          then PyStr.strip name
          else _brand_from_domain (_domain url)).
Proof.
  intros name gap sep rest url H1 H2 H3 Hr Hgap Hsep Hrest.
  assert (E : Re.sub_empty TITLE_TAIL_RE (name ++ gap ++ sep ++ rest) = name).
  { unfold Re.sub_empty.
    apply (sub_title_tail name gap sep rest H1 H2 H3 Hr Hgap Hsep Hrest
             name EmptyString); [reflexivity | lia]. }
  split; [exact E |].
  unfold _infer_company_name. rewrite E.
  replace (PyStr.truthy (name ++ gap ++ sep ++ rest)) with true;
    [reflexivity |].
  destruct name; [| reflexivity]. destruct gap; [| reflexivity].
  destruct Hsep as [Es | [Es | [Es | []]]]; subst sep; reflexivity.
Qed.

(** The gap of the title below is a no-break space, U+00A0. *)
Lemma title_is_cut_at_the_separator_witness :
  Re.sub_empty TITLE_TAIL_RE ("L’Oréal" ++ " " ++ "-" ++ " Official")
  = "L’Oréal"
  /\ _infer_company_name ("L’Oréal" ++ " " ++ "-" ++ " Official")
       "https://www.loreal.com/fr"
     = "L’Oréal".
Proof.
  apply (title_is_cut_at_the_separator "L’Oréal" " " "-" " Official"
           "https://www.loreal.com/fr"); try reflexivity.
  left. reflexivity.
Defined.

(** A no-break space before the separator goes with the tail, and the blanks
    of the title's ends go with [strip]. *)
Example title_with_no_break_space :
  _infer_company_name "Zara - Official" "https://www.zara.com/fr" = "Zara"
  /\ _infer_company_name " Zara Home  | Site" "https://www.zara.com"
     = "Zara Home"
  /\ _infer_company_name "Home - Zara" "https://www.zara.com/fr" = "Zara".
Proof. repeat split; reflexivity. Qed.
